(** * teii.finance: a shallow embedding of the AlphaVantage client

    The development follows the two source modules:
    - [teii/finance/finance.py]     the abstract [FinanceClient];
    - [teii/finance/timeseries.py]  the concrete [TimeSeriesFinanceClient].

    Python exceptions are values of [exn]; a computation that may raise
    returns a [result].  Code that talks to the network runs in [IO], which
    threads the list of URLs requested so far.  Logging has no effect on any
    value and is left out (the logging level is assumed to be a valid one);
    [assert] statements run, as they do unless Python is started with -O.

    What pandas, numpy and requests do is not in the sources: the file
    models the calls the client makes, on the inputs the API can send (a
    dict of dicts of strings), and answers [Unmodelled] elsewhere.  Floats,
    the text [DataFrame.to_csv] writes and the sort behind [sort_index] and
    [sort_values] are parameters, the latter bound by what numpy promises
    for the default [kind='quicksort']: a sorted permutation, not a stable
    one.  The sort numpy runs for that kind is given too
    ([numpy_quicksort]), to run the client on tables long enough for it to
    differ from a stable sort. *)

From Stdlib Require Import ZArith List String Ascii Bool Lia Arith.
From Stdlib Require Import Sorting.Permutation Sorting.Sorted.
From Stdlib Require Import Numbers.DecimalString.
Import ListNotations.
Set Warnings "-register-all".
Open Scope string_scope.
Open Scope Z_scope.

(** ** Exceptions and results *)

Inductive exn : Type :=
| FinanceClientInvalidAPIKey (msg : string)
| FinanceClientAPIError (msg : string)
| FinanceClientInvalidData (msg : string)
| FinanceClientParamError (msg : string)
| FinanceClientIOError (msg : string)
| AssertionError
| KeyError
| TypeError
| ValueError
| IndexError
| UnboundLocalError
| OSError                          (* IOError and PermissionError *)
| TransportError (name : string)   (* whatever requests.get raises *)
| Unmodelled.                      (* input outside the modelled library domain *)

Inductive result (A : Type) : Type :=
| Ok (a : A)
| Raise (e : exn).
Arguments Ok {A} a.
Arguments Raise {A} e.

Definition rbind {A B} (m : result A) (f : A -> result B) : result B :=
  match m with
  | Ok a => f a
  | Raise e => Raise e
  end.

(** [try: body except Exception as e: handler e] *)
Definition try_except {A} (body : result A) (handler : exn -> result A) : result A :=
  match body with
  | Ok a => Ok a
  | Raise e => handler e
  end.

(** [try: body except C as e: handler e] for a set of classes [C]. *)
Definition try_except_if {A} (is_c : exn -> bool) (body : result A)
           (handler : exn -> result A) : result A :=
  match body with
  | Ok a => Ok a
  | Raise e => if is_c e then handler e else Raise e
  end.

Definition is_TypeError (e : exn) : bool :=
  match e with TypeError => true | _ => false end.
Definition is_KeyError (e : exn) : bool :=
  match e with KeyError => true | _ => false end.
Definition is_OSError (e : exn) : bool :=
  match e with OSError => true | _ => false end.

Declare Scope result_scope.
Delimit Scope result_scope with result.
Notation "x <- m ;; k" := (rbind m (fun x => k))
  (at level 61, m at next level, right associativity) : result_scope.

(** ** Python values that reach the client *)

(** What a caller may pass as [api_key]. *)
Inductive pyval : Type :=
| PyNone
| PyStr (s : string)
| PyInt (z : Z)
| PyBool (b : bool).

Definition truthy (v : pyval) : bool :=
  match v with
  | PyNone => false
  | PyStr s => negb (s =? EmptyString)%string
  | PyInt z => negb (z =? 0)
  | PyBool b => b
  end.

Definition isinstance_str (v : pyval) : bool :=
  match v with PyStr _ => true | _ => false end.

(** The value of [json.load]: a dict is an association list in insertion
    order (its keys are distinct, being the keys of a Python dict). *)
Inductive json : Type :=
| JNull
| JBool (b : bool)
| JNum (lit : string)
| JStr (s : string)
| JArr (l : list json)
| JObj (l : list (string * json)).

Fixpoint assoc {V} (k : string) (l : list (string * V)) : option V :=
  match l with
  | [] => None
  | (k', v) :: l' => if (k =? k')%string then Some v else assoc k l'
  end.

(** [d[k]] for a JSON value [d] and a string key [k]: [KeyError] on a dict
    without the key, [TypeError] on anything that is not a dict. *)
Definition getitem (d : json) (k : string) : result json :=
  match d with
  | JObj l => match assoc k l with Some v => Ok v | None => Raise KeyError end
  | _ => Raise TypeError
  end.

(** [v == s] for a JSON value [v] and a [str] [s]. *)
Definition json_eq_str (v : json) (s : string) : bool :=
  match v with
  | JStr s' => (s' =? s)%string
  | _ => false
  end.

Definition str_of_int (z : Z) : string := NilZero.string_of_int (Z.to_int z).

(** ** The outside world *)

Record Response : Type := {
  url : string;
  status_code : Z;
  json_body : option json         (* [None]: [response.json()] raises *)
}.

Inductive get_outcome : Type :=
| GetRaises (e : exn)
| GetResponse (r : Response).

Record World : Type := {
  requests_get : string -> get_outcome;
  os_getenv : string -> option string
}.

(** Code that may fetch: the state is the list of URLs requested so far. *)
Definition IO (A : Type) : Type := list string -> result A * list string.

Definition io_ret {A} (a : A) : IO A := fun tr => (Ok a, tr).
Definition io_raise {A} (e : exn) : IO A := fun tr => (Raise e, tr).
Definition io_lift {A} (r : result A) : IO A := fun tr => (r, tr).
Definition io_bind {A B} (m : IO A) (f : A -> IO B) : IO B :=
  fun tr =>
    match m tr with
    | (Ok a, tr') => f a tr'
    | (Raise e, tr') => (Raise e, tr')
    end.

Declare Scope io_scope.
Delimit Scope io_scope with io.
Notation "x <- m ;; k" := (io_bind m (fun x => k))
  (at level 61, m at next level, right associativity) : io_scope.

(** ** finance.py *)

Module Finance.

(** The attributes assigned by [FinanceClient.__init__]. *)
Record self : Type := {
  _ticker : list string;
  _api_key : string;
  _json_data : list json;
  _json_metadata : list json
}.

(** The abstract methods a subclass has to provide. *)
Record Methods : Type := {
  _build_base_query_url_params : string -> string -> string;
                                 (* api key, ticker *)
  _build_query_data_key : string;
  _validate_query_data : self -> string -> result unit
}.

Definition _FinanceBaseQueryURL : string := "https://www.alphavantage.co/query?".
Definition _build_base_query_url : string := _FinanceBaseQueryURL.
Definition _build_query_metadata_key : string := "Meta Data".

Definition api_error_message (r : Response) : string :=
  "Unsuccessful API access [URL: " ++ url r ++ ", status: "
    ++ str_of_int (status_code r) ++ "]".

Section Client.
Variable w : World.
Variable cls : Methods.

(** The local [response] is bound only once [requests.get] has returned;
    the handler reads it in either case. *)
Definition _query_api (s : self) (t : string) : IO Response :=
  fun tr =>
    let u := _build_base_query_url
               ++ _build_base_query_url_params cls (_api_key s) t in
    let '(response, body) :=
      match requests_get w u with
      | GetRaises e => (None, Raise e)
      | GetResponse r =>
          (Some r, if status_code r =? 200 then Ok r else Raise AssertionError)
      end in
    (try_except body
       (fun _ =>
          match response with
          | None => Raise UnboundLocalError
          | Some r => Raise (FinanceClientAPIError (api_error_message r))
          end),
     (tr ++ [u])%list).

Definition response_json (r : Response) : result json :=
  match json_body r with
  | Some j => Ok j
  | None => Raise ValueError
  end.

Definition _process_query_response (s : self) (response : Response) : result self :=
  try_except
    (json_data_downloaded <- response_json response ;;
     json_metadata <- getitem json_data_downloaded _build_query_metadata_key ;;
     json_data <- getitem json_data_downloaded (_build_query_data_key cls) ;;
     Ok {| _ticker := _ticker s;
           _api_key := _api_key s;
           _json_data := (_json_data s ++ [json_data])%list;
           _json_metadata := (_json_metadata s ++ [json_metadata])%list |})%result
    (fun _ => Raise (FinanceClientInvalidData "Invalid data")).

(** The body of [for t in self._ticker]. *)
Definition init_step (s : self) (t : string) : IO self :=
  (response <- _query_api s t ;;
   s' <- io_lift (_process_query_response s response) ;;
   _ <- io_lift (_validate_query_data cls s' t) ;;
   io_ret s')%io.

Fixpoint init_loop (ts : list string) (s : self) : IO self :=
  match ts with
  | [] => io_ret s
  | t :: ts' => (s' <- init_step s t ;; init_loop ts' s')%io
  end.

(** The key in effect after the environment lookup. *)
Definition configure_api_key (api_key : pyval) : pyval :=
  if negb (truthy api_key) then
    match os_getenv w "TEII_FINANCE_API_KEY" with
    | Some k => PyStr k
    | None => PyNone
    end
  else api_key.

Definition __init__ (qualname : string) (ticker : list string) (api_key : pyval)
  : IO self :=
  let key := configure_api_key api_key in
  if negb (truthy key) || negb (isinstance_str key) then
    io_raise (FinanceClientInvalidAPIKey (qualname ++ " operation failed"))
  else
    match key with
    | PyStr k =>
        init_loop ticker {| _ticker := ticker; _api_key := k;
                            _json_data := []; _json_metadata := [] |}
    | _ => io_raise TypeError     (* not reached: the key is a str here *)
    end.
End Client.

End Finance.

(** ** Numbers, dates and sorting, as the libraries provide them *)

(** Python's [float] (IEEE binary64), kept abstract: the client only parses,
    subtracts, adds, divides and compares. *)
Class FloatModel : Type := {
  float : Type;
  float_of_str : string -> option float;   (* [float(s)]; [None]: ValueError *)
  str_of_float : float -> string;
  nan : float;
  isnan : float -> bool;
  isfinite : float -> bool;
  to_int64 : float -> Z;                   (* the cast of a finite value to int64 *)
  float_of_nat : nat -> float;
  fadd : float -> float -> float;
  fsub : float -> float -> float;
  fdiv : float -> float -> float;
  fle : float -> float -> bool
}.

(** What the client relies on: away from NaN, [<=] is a total preorder. *)
Class FloatOrder (F : FloatModel) : Prop := {
  fle_total : forall x y, isnan x = false -> isnan y = false ->
                          fle x y = true \/ fle y x = true;
  fle_trans : forall x y z, fle x y = true -> fle y z = true -> fle x z = true
}.

(** numpy's sort behind [sort_index] and [sort_values] (default
    [kind='quicksort']): ascending for the comparison it is given. *)
Class Sorter : Type := {
  sort : forall A : Type, (A -> A -> bool) -> list A -> list A
}.
Arguments sort {Sorter A} le l.

Definition total {A} (le : A -> A -> bool) : Prop :=
  forall x y, le x y = true \/ le y x = true.
Definition transitive {A} (le : A -> A -> bool) : Prop :=
  forall x y z, le x y = true -> le y z = true -> le x z = true.

(** The same, among the elements that satisfy [P]. *)
Definition total_on {A} (P : A -> Prop) (le : A -> A -> bool) : Prop :=
  forall x y, P x -> P y -> le x y = true \/ le y x = true.
Definition transitive_on {A} (P : A -> Prop) (le : A -> A -> bool) : Prop :=
  forall x y z, P x -> P y -> P z -> le x y = true -> le y z = true -> le x z = true.

(** The contract of a sort: a permutation of the input, in order whenever
    the comparison is a total preorder on the elements of the input. *)
Class SorterOk (S : Sorter) : Prop := {
  sort_perm : forall A (le : A -> A -> bool) l, Permutation (sort le l) l;
  sort_sorted : forall A (le : A -> A -> bool) l,
      total_on (fun x => In x l) le -> transitive_on (fun x => In x l) le ->
      StronglySorted (fun x y => le x y = true) (sort le l)
}.

(** Insertion sort; [x] goes before the first element it is [<=] to, so
    equal elements keep the order of the input: a stable sort. *)
Fixpoint insert {A} (le : A -> A -> bool) (x : A) (l : list A) : list A :=
  match l with
  | [] => [x]
  | y :: l' => if le x y then x :: l else y :: insert le x l'
  end.

Fixpoint isort {A} (le : A -> A -> bool) (l : list A) : list A :=
  match l with
  | [] => []
  | x :: l' => insert le x (isort le l')
  end.

Definition stable_sorter : Sorter := {| sort := @isort |}.

(** *** numpy's quicksort

    The sort numpy runs for [kind='quicksort'] where it has no vectorised
    sort for the element type: the introsort of [npysort/quicksort]
    ([aquicksort_], which [argsort] calls).  A stretch [t[pl..pr]] with
    [pr - pl > 16] is partitioned around the median of its first, middle
    and last element; a shorter one is sorted by insertion.  numpy gives a
    stretch to heap sort once the partitions nest deeper than twice the
    binary logarithm of the length, which takes an input built for it; the
    model has no heap sort and keeps partitioning there. *)

Definition SMALL_QUICKSORT : nat := 16.

(** numpy sorts with [<]; the sorts of the model are handed [<=]. *)
Definition strict {A} (le : A -> A -> bool) : A -> A -> bool :=
  fun a b => negb (le b a).

Fixpoint set_nth {A} (i : nat) (x : A) (l : list A) : list A :=
  match l, i with
  | [], _ => []
  | _ :: l', O => x :: l'
  | y :: l', S i' => y :: set_nth i' x l'
  end.

Section Quicksort.
Context {A : Type}.
Variable less : A -> A -> bool.
Variable d : A.                          (* read outside the list, never reached *)

(** [INTP_SWAP(t[i], t[j])] *)
Definition swap (i j : nat) (t : list A) : list A :=
  set_nth i (nth j t d) (set_nth j (nth i t d) t).

(** [while (less(v[*pi], vp)) ++pi] and [while (less(vp, v[*pj])) --pj];
    the pivot on the right and an element that is not above it on the
    left stop the two. *)
Fixpoint scan_up (fuel : nat) (vp : A) (t : list A) (pi : nat) : nat :=
  match fuel with
  | O => pi
  | S fuel' => if less (nth pi t d) vp then scan_up fuel' vp t (S pi) else pi
  end.

Fixpoint scan_down (fuel : nat) (vp : A) (t : list A) (pj : nat) : nat :=
  match fuel with
  | O => pj
  | S fuel' => if less vp (nth pj t d) then scan_down fuel' vp t (pred pj) else pj
  end.

(** The [for (;;)] of the partition: both scans move by one at least,
    then the two elements change places unless the scans have met. *)
Fixpoint partition_loop (fuel : nat) (vp : A) (t : list A) (pi pj : nat)
  : list A * nat :=
  match fuel with
  | O => (t, pi)
  | S fuel' =>
      let pi' := scan_up (List.length t) vp t (S pi) in
      let pj' := scan_down (List.length t) vp t (pred pj) in
      if (pj' <=? pi')%nat then (t, pi')
      else partition_loop fuel' vp (swap pi' pj' t) pi' pj'
  end.

(** The three comparisons that leave the median at [pm]. *)
Definition median_of_three (pl pm pr : nat) (t : list A) : list A :=
  let t := if less (nth pm t d) (nth pl t d) then swap pm pl t else t in
  let t := if less (nth pr t d) (nth pm t d) then swap pr pm t else t in
  if less (nth pm t d) (nth pl t d) then swap pm pl t else t.

(** One partition of [t[pl..pr]]: the list after it, and where the pivot
    ended up. *)
Definition partition (pl pr : nat) (t : list A) : list A * nat :=
  let pm := (pl + (pr - pl) / 2)%nat in
  let t := median_of_three pl pm pr t in
  let vp := nth pm t d in
  let t := swap pm (pr - 1) t in
  let '(t, pi) := partition_loop (List.length t) vp t pl (pr - 1) in
  (swap pi (pr - 1) t, pi).

(** The insertion sort of the short stretches; [before] is the part
    already in order, nearest element first: [x] moves left past the
    elements it is below and stops at the first it is not. *)
Fixpoint insert_back (x : A) (before : list A) : list A :=
  match before with
  | [] => [x]
  | y :: before' => if less x y then y :: insert_back x before' else x :: before
  end.

Definition insertion_sort (l : list A) : list A :=
  rev (fold_left (fun before x => insert_back x before) l []).

Definition sort_stretch (pl pr : nat) (t : list A) : list A :=
  (firstn pl t ++ insertion_sort (firstn (pr + 1 - pl) (skipn pl t))
     ++ skipn (pr + 1) t)%list.

(** The two sides of a partition are sorted one after the other (numpy
    keeps the longer one on a stack; the outcome does not depend on which
    comes first). *)
Fixpoint quicksort_stretch (fuel : nat) (pl pr : nat) (t : list A) : list A :=
  if (SMALL_QUICKSORT <? pr - pl)%nat then
    match fuel with
    | O => t
    | S fuel' =>
        let '(t, pi) := partition pl pr t in
        quicksort_stretch fuel' (pi + 1) pr (quicksort_stretch fuel' pl (pi - 1) t)
    end
  else sort_stretch pl pr t.
End Quicksort.

Definition numpy_quicksort : Sorter :=
  {| sort := fun A le l =>
       match l with
       | [] => []
       | d :: _ =>
           quicksort_stretch (strict le) d (List.length l) 0 (List.length l - 1) l
       end |}.

(** Calendar dates: the labels of a [datetime64[ns]] index built from
    date strings, and the [datetime.date] bounds of the range queries. *)
Record date : Type := { year : Z; month : Z; day : Z }.

Definition date_leb (a b : date) : bool :=
  (year a <? year b)
  || ((year a =? year b)
      && ((month a <? month b)
          || ((month a =? month b) && (day a <=? day b)))).

Definition date_ltb (a b : date) : bool := negb (date_leb b a).

Definition is_leap (y : Z) : bool :=
  ((y mod 4 =? 0) && negb (y mod 100 =? 0)) || (y mod 400 =? 0).

Definition days_in_month (y m : Z) : Z :=
  if m =? 2 then (if is_leap y then 29 else 28)
  else if (m =? 4) || (m =? 6) || (m =? 9) || (m =? 11) then 30
  else 31.

Definition digit_of_ascii (c : ascii) : option Z :=
  let n := Z.of_nat (nat_of_ascii c) in
  if (48 <=? n) && (n <=? 57) then Some (n - 48) else None.

Definition digits2 (a b : ascii) : option Z :=
  match digit_of_ascii a, digit_of_ascii b with
  | Some x, Some y => Some (10 * x + y)
  | _, _ => None
  end.

Definition digits4 (a b c d : ascii) : option Z :=
  match digits2 a b, digits2 c d with
  | Some x, Some y => Some (100 * x + y)
  | _, _ => None
  end.

(** The years every day of which [datetime64[ns]] can hold (its range
    ends inside 1677 and 2262). *)
Definition representable_year (y : Z) : bool := (1678 <=? y) && (y <=? 2261).

(** A day of the calendar inside that range. *)
Definition representable (d : date) : bool :=
  representable_year (year d) && (1 <=? month d) && (month d <=? 12)
  && (1 <=? day d) && (day d <=? days_in_month (year d) (month d)).

(** A date of the form ["YYYY-MM-DD"] inside the range of [datetime64[ns]]. *)
Definition parse_iso_date (s : string) : option date :=
  match s with
  | String y1 (String y2 (String y3 (String y4 (String sep1
      (String m1 (String m2 (String sep2 (String d1 (String d2 EmptyString))))))))) =>
      match digits4 y1 y2 y3 y4, digits2 m1 m2, digits2 d1 d2 with
      | Some y, Some m, Some d =>
          if (sep1 =? "-")%char && (sep2 =? "-")%char
             && (1678 <=? y) && (y <=? 2261) && (1 <=? m) && (m <=? 12)
             && (1 <=? d) && (d <=? days_in_month y m)
          then Some {| year := y; month := m; day := d |}
          else None
      | _, _, _ => None
      end
  | _ => None
  end.

(** A month or a day written with one digit gets its zero: ["2021-5-3"]
    becomes ["2021-05-03"]; every other string is left as it is. *)
Definition zero_padded (s : string) : string :=
  match s with
  | String y1 (String y2 (String y3 (String y4 (String sep1 rest)))) =>
      let dated tail :=
        String y1 (String y2 (String y3 (String y4 (String sep1 tail)))) in
      match rest with
      | String m (String sep2 (String d EmptyString)) =>
          if (sep2 =? "-")%char
          then dated (String "0" (String m (String sep2
                        (String "0" (String d EmptyString)))))
          else s
      | String a (String b (String c (String e EmptyString))) =>
          if (b =? "-")%char
          then dated (String "0" (String a (String b (String c (String e EmptyString)))))
          else if (c =? "-")%char
          then dated (String a (String b (String c (String "0" (String e EmptyString)))))
          else s
      | _ => s
      end
  | _ => s
  end.

(** The date pandas reads from an index label: the form ["YYYY-MM-DD"],
    where the second digit of the month and of the day may be missing.
    [None] for every other string (pandas reads more spellings still; the
    model leaves them out). *)
Definition parse_date (s : string) : option date :=
  parse_iso_date (zero_padded s).

(** ** pandas, as far as the client uses it *)

Fixpoint mapM {A B} (f : A -> result B) (l : list A) : result (list B) :=
  match l with
  | [] => Ok []
  | a :: l' => (b <- f a ;; bs <- mapM f l' ;; Ok (b :: bs))%result
  end.

(** A frame: the column labels, and per index label the cells of its row. *)
Record DataFrame (Ix C : Type) : Type := {
  columns : list string;
  rows : list (Ix * list C)
}.
Arguments columns {Ix C} d.
Arguments rows {Ix C} d.

Definition Series (Ix V : Type) : Type := list (Ix * V).

Definition has_column (cols : list string) (name : string) : bool :=
  existsb (String.eqb name) cols.

Fixpoint position (name : string) (cols : list string) : option nat :=
  match cols with
  | [] => None
  | c :: cols' =>
      if (name =? c)%string then Some O else option_map S (position name cols')
  end.

(** [df[name]] *)
Definition df_getitem {Ix C} (df : DataFrame Ix C) (name : string)
  : result (Series Ix C) :=
  match position name (columns df) with
  | None => Raise KeyError
  | Some i =>
      mapM (fun r : Ix * list C =>
              match nth_error (snd r) i with
              | Some x => Ok (fst r, x)
              | None => Raise Unmodelled        (* a row shorter than the header *)
              end) (rows df)
  end.

(** The data block of a response: date string -> field name -> string. *)
Definition data_block : Type := list (string * list (string * string)).

Fixpoint fields_of (l : list (string * json)) : option (list (string * string)) :=
  match l with
  | [] => Some []
  | (k, JStr v) :: l' => option_map (cons (k, v)) (fields_of l')
  | _ => None
  end.

Fixpoint block_of (l : list (string * json)) : option data_block :=
  match l with
  | [] => Some []
  | (k, JObj fs) :: l' =>
      match fields_of fs, block_of l' with
      | Some f, Some b => Some ((k, f) :: b)
      | _, _ => None
      end
  | _ => None
  end.

(** Column labels in order of first appearance. *)
Definition add_new (cols names : list string) : list string :=
  fold_left (fun acc n => if has_column acc n then acc else (acc ++ [n])%list)
            names cols.

Definition union_columns (b : data_block) : list string :=
  fold_left (fun acc r => add_new acc (map fst (snd r))) b [].

Inductive dtype : Type := DFloat | DInt.

(** [None]: numpy does not understand the name (a TypeError). *)
Definition dtype_of_str (s : string) : option dtype :=
  if (s =? "float")%string then Some DFloat
  else if (s =? "int")%string then Some DInt
  else None.

Section Pandas.
Context {F : FloatModel}.

Inductive cell : Type :=
| CFloat (x : float)
| CInt (n : Z).

Definition cell_of_field (fs : list (string * string)) (c : string) : result float :=
  match assoc c fs with
  | None => Ok nan                      (* a field the row lacks *)
  | Some s =>
      match float_of_str s with
      | Some x => Ok x
      | None => Raise ValueError
      end
  end.

(** [pd.DataFrame.from_dict(d, orient='index', dtype=float)] for a dict of
    dicts of strings, and for the values that have no [len()].  A string
    that is no number is a ValueError (older versions of pandas keep the
    column as it is and the ValueError comes from [astype] below: the
    build ends the same way). *)
Definition from_dict (d : json) : result (DataFrame string float) :=
  match d with
  | JNull | JBool _ | JNum _ => Raise TypeError
  | JObj l =>
      match block_of l with
      | Some b =>
          let cols := union_columns b in
          (rs <- mapM (fun r : string * list (string * string) =>
                         cs <- mapM (cell_of_field (snd r)) cols ;;
                         Ok (fst r, cs)) b ;;
           Ok {| columns := cols; rows := rs |})%result
      | None => Raise Unmodelled
      end
  | _ => Raise Unmodelled
  end.

(** [df.rename(columns=mapping)]: labels without an entry are kept, and an
    entry without a label is ignored ([errors='ignore'] is the default). *)
Definition rename {Ix C} (mapping : list (string * string)) (df : DataFrame Ix C)
  : DataFrame Ix C :=
  {| columns := map (fun c => match assoc c mapping with
                              | Some n => n
                              | None => c
                              end) (columns df);
     rows := rows df |}.

Definition cast (d : dtype) (x : float) : result cell :=
  match d with
  | DFloat => Ok (CFloat x)
  | DInt => if isfinite x then Ok (CInt (to_int64 x)) else Raise ValueError
  end.

(** [df.astype(dtype=mapping)]: every key has to be a column label
    (KeyError); then each column is cast to the type named for it. *)
Definition astype {Ix} (mapping : list (string * string)) (df : DataFrame Ix float)
  : result (DataFrame Ix cell) :=
  if forallb (fun nt => has_column (columns df) (fst nt)) mapping then
    (casts <- mapM (fun c => match assoc c mapping with
                             | None => Ok (cast DFloat)
                             | Some ty =>
                                 match dtype_of_str ty with
                                 | Some d => Ok (cast d)
                                 | None => Raise TypeError
                                 end
                             end) (columns df) ;;
     rs <- mapM (fun r : Ix * list float =>
                   cs <- mapM (fun fx : (float -> result cell) * float =>
                                 fst fx (snd fx)) (combine casts (snd r)) ;;
                   Ok (fst r, cs)) (rows df) ;;
     Ok {| columns := columns df; rows := rs |})%result
  else Raise KeyError.

(** [df.index.astype("datetime64[ns]")] *)
Definition index_astype_datetime {C} (df : DataFrame string C)
  : result (DataFrame date C) :=
  (rs <- mapM (fun r : string * list C =>
                 match parse_date (fst r) with
                 | Some d => Ok (d, snd r)
                 | None => Raise Unmodelled
                 end) (rows df) ;;
   Ok {| columns := columns df; rows := rs |})%result.

Context {S : Sorter}.

(** [df.sort_index(ascending=True)] *)
Definition sort_index {C} (df : DataFrame date C) : DataFrame date C :=
  {| columns := columns df;
     rows := sort (fun a b : date * list C => date_leb (fst a) (fst b)) (rows df) |}.

(** [s.loc[lo:hi]] on an index in ascending order: both ends included. *)
Definition loc {Ix V} (leb : Ix -> Ix -> bool) (lo hi : Ix) (s : Series Ix V)
  : Series Ix V :=
  filter (fun kv => leb lo (fst kv) && leb (fst kv) hi) s.

(** [s.loc[from_date:to_date]] on a [datetime64[ns]] index, the bounds
    being [datetime.date]s: pandas makes a timestamp of each bound, which
    fails for a date outside the range of [datetime64[ns]] (with an error
    that depends on the version of pandas; the model does not say which). *)
Definition loc_dates {V} (lo hi : date) (s : Series date V) : result (Series date V) :=
  if representable lo && representable hi then Ok (loc date_leb lo hi s)
  else Raise Unmodelled.

(** [df.sort_values(by, ascending=False)] where [key] reads the [by]
    column: pandas sorts the reversed rows in ascending order and reverses
    the outcome; rows whose key is NaN go last. *)
Definition sort_values_desc {R} (key : R -> float) (l : list R) : list R :=
  let non_nans := filter (fun r => negb (isnan (key r))) l in
  let nans := filter (fun r => isnan (key r)) l in
  (rev (sort (fun a b => fle (key a) (key b)) (rev non_nans)) ++ nans)%list.
End Pandas.

(** The text [DataFrame.to_csv] makes of a frame with its default
    arguments.  The formatter of pandas is no part of the client: the
    model takes it as given. *)
Class CsvFormat (F : FloatModel) : Type := {
  csv_of_frame : DataFrame date (@cell F) -> string
}.

(** ** timeseries.py *)

Module TimeSeries.
Import Finance.

Definition _data_field2name_type : list (string * (string * string)) :=
  [ ("1. open",              ("open",     "float"));
    ("2. high",              ("high",     "float"));
    ("3. low",               ("low",      "float"));
    ("4. close",             ("close",    "float"));
    ("5. adjusted close",    ("aclose",   "float"));
    ("6. volume",            ("volume",   "int"));
    ("7. dividend amount",   ("dividend", "float"));
    ("8. split coefficient", ("splitc",   "int")) ].

(** [{key: name_type[0] for key, name_type in ...items()}] *)
Definition rename_columns : list (string * string) :=
  map (fun kv => (fst kv, fst (snd kv))) _data_field2name_type.

(** [{name_type[0]: name_type[1] for key, name_type in ...items()}] *)
Definition astype_dtype : list (string * string) :=
  map (fun kv => (fst (snd kv), snd (snd kv))) _data_field2name_type.

Definition _build_base_query_url_params (api_key ticker : string) : string :=
  "function=TIME_SERIES_DAILY_ADJUSTED&symbol=" ++ ticker
    ++ "&outputsize=full&apikey=" ++ api_key.

Definition _build_query_data_key : string := "Time Series (Daily)".

Definition assert (b : bool) : result unit :=
  if b then Ok tt else Raise AssertionError.

(** [l[-1]] *)
Definition last_item {A} (l : list A) : result A :=
  match rev l with
  | x :: _ => Ok x
  | [] => Raise IndexError
  end.

Definition _validate_query_data (s : self) (ticker : string) : result unit :=
  try_except
    (metadata <- last_item (_json_metadata s) ;;
     symbol <- getitem metadata "2. Symbol" ;;
     assert (json_eq_str symbol ticker))%result
    (fun _ => Raise (FinanceClientInvalidData "Metadata field '2. Symbol' not found")).

Definition methods : Methods :=
  {| Finance._build_base_query_url_params := _build_base_query_url_params;
     Finance._build_query_data_key := _build_query_data_key;
     Finance._validate_query_data := _validate_query_data |}.

Section Client.
Context {F : FloatModel} {S : Sorter}.

Definition Table : Type := DataFrame date cell.

Record client : Type := {
  base : self;
  _data_frame : list Table
}.

(** The body of the loop of [_build_data_frame], for one data block. *)
Definition build_table (d : json) : result Table :=
  (data_frame <- try_except_if is_TypeError (from_dict d)
                   (fun _ => Raise (FinanceClientInvalidData "Data json not specified")) ;;
   data_frame <- try_except_if is_KeyError (Ok (rename rename_columns data_frame))
                   (fun _ => Raise (FinanceClientInvalidData "Not found in axis")) ;;
   data_frame <- try_except_if is_TypeError (astype astype_dtype data_frame)
                   (fun _ => Raise (FinanceClientInvalidData "Data type not understood")) ;;
   data_frame <- index_astype_datetime data_frame ;;
   Ok (sort_index data_frame))%result.

(** [for i, tick in enumerate(self._ticker)] reading [self._json_data[i]] *)
Definition _build_data_frame (s : self) : result (list Table) :=
  mapM (fun i => match nth_error (_json_data s) i with
                 | Some d => build_table d
                 | None => Raise IndexError
                 end)
       (seq 0 (List.length (_ticker s))).

Definition __init__ (w : World) (ticker : list string) (api_key : pyval)
  : IO client :=
  (s <- Finance.__init__ w methods "TimeSeriesFinanceClient" ticker api_key ;;
   frames <- io_lift (_build_data_frame s) ;;
   io_ret {| base := s; _data_frame := frames |})%io.

Definition to_pandas (c : client) : list Table := _data_frame c.

(** *** Range queries *)

Definition param_error {A} : exn -> result A :=
  fun _ => Raise (FinanceClientParamError "Dates are incorrect").

Definition daily_body (column : string) (from_date to_date : option date)
           (df : Table) : result (Series date cell) :=
  (series <- df_getitem df column ;;
   _ <- match from_date, to_date with
        | Some f, Some t => try_except (assert (date_leb f t)) param_error
        | _, _ => Ok tt
        end ;;
   match from_date, to_date with
   | Some f, Some t => loc_dates f t series
   | _, _ => Ok series
   end)%result.

Definition daily_price (c : client) (from_date to_date : option date)
  : result (list (Series date cell)) :=
  mapM (daily_body "close" from_date to_date) (_data_frame c).

Definition daily_volume (c : client) (from_date to_date : option date)
  : result (list (Series date cell)) :=
  mapM (daily_body "volume" from_date to_date) (_data_frame c).
(** *** Grouping by calendar period *)

Definition as_float (c : cell) : result float :=
  match c with
  | CFloat x => Ok x
  | CInt _ => Raise Unmodelled       (* the columns read below are float *)
  end.

Definition floats_of {Ix} (s : Series Ix cell) : result (Series Ix float) :=
  mapM (fun kv => (x <- as_float (snd kv) ;; Ok (fst kv, x))%result) s.

Definition zrange (lo hi : Z) : list Z :=
  map (fun i => lo + Z.of_nat i) (seq 0 (Z.to_nat (hi - lo + 1))).

(** [groupby(pd.Grouper(level=0, freq=...))] and [resample(...)] on an
    ascending index: one bin per period from the period of the first row
    to that of the last, the empty ones included. *)
Definition group_by_period {R} (period : R -> Z) (s : list R)
  : list (Z * list R) :=
  match s, rev s with
  | first :: _, last :: _ =>
      map (fun p => (p, filter (fun r => period r =? p) s))
          (zrange (period first) (period last))
  | _, _ => []
  end.

Definition skipna (xs : list float) : list float :=
  filter (fun x => negb (isnan x)) xs.

Definition fsum (xs : list float) : float :=
  fold_left fadd (skipna xs) (float_of_nat 0).

Definition fmean (xs : list float) : float :=
  match skipna xs with
  | [] => nan
  | ys => fdiv (fold_left fadd ys (float_of_nat 0)) (float_of_nat (List.length ys))
  end.

Definition year_period (d : date) : Z := year d.
Definition quarter_period (d : date) : Z := 4 * year d + (month d - 1) / 3.
Definition month_period (d : date) : Z := 12 * year d + (month d - 1).

Definition quarter_start (p : Z) : date :=
  {| year := p / 4; month := 3 * (p mod 4) + 1; day := 1 |}.
Definition month_start (p : Z) : date :=
  {| year := p / 12; month := p mod 12 + 1; day := 1 |}.

Definition year_check (from_year to_year : option Z) : result unit :=
  match from_year, to_year with
  | Some f, Some t => try_except (assert (f <=? t)) param_error
  | _, _ => Ok tt
  end.

Definition yearly_dividends_body (from_year to_year : option Z) (df : Table)
  : result (Series string float) :=
  (column <- df_getitem df "dividend" ;;
   dividend <- floats_of column ;;
   let series := map (fun g => (str_of_int (fst g), fsum (map snd (snd g))))
                     (group_by_period (fun kv => year_period (fst kv)) dividend) in
   _ <- year_check from_year to_year ;;
   Ok match from_year, to_year with
      | Some f, Some t => loc String.leb (str_of_int f) (str_of_int t) series
      | _, _ => series
      end)%result.

Definition yearly_dividends (c : client) (from_year to_year : option Z)
  : result (list (Series string float)) :=
  mapM (yearly_dividends_body from_year to_year) (_data_frame c).

(** [series.loc[str(from_year):str(to_year)]] on a datetime index: every
    label whose year lies between the two. *)
Definition loc_years {V} (f t : Z) (s : Series date V) : result (Series date V) :=
  if representable_year f && representable_year t
  then Ok (filter (fun kv => (f <=? year (fst kv)) && (year (fst kv) <=? t)) s)
  else Raise Unmodelled.

Definition yearly_dividends_per_quarter_body (from_year to_year : option Z)
           (df : Table) : result (Series date float) :=
  (column <- df_getitem df "dividend" ;;
   dividend <- floats_of column ;;
   let series := map (fun g => (quarter_start (fst g), fsum (map snd (snd g))))
                     (group_by_period (fun kv => quarter_period (fst kv)) dividend) in
   _ <- year_check from_year to_year ;;
   match from_year, to_year with
   | Some f, Some t => loc_years f t series
   | _, _ => Ok series
   end)%result.

Definition yearly_dividends_per_quarter (c : client) (from_year to_year : option Z)
  : result (list (Series date float)) :=
  mapM (yearly_dividends_per_quarter_body from_year to_year) (_data_frame c).

(** *** Extremal queries *)

(** A row of [series] once the difference column is added:
    date, high, low, high - low. *)
Definition variation : Type := (date * float * float * float)%type.

Definition v_date (r : variation) : date := fst (fst (fst r)).
Definition v_high (r : variation) : float := snd (fst (fst r)).
Definition v_low (r : variation) : float := snd (fst r).
Definition v_spread (r : variation) : float := snd r.

(** [df[['high', 'low']]] with [series['high'] - series['low']] added *)
Definition high_low (df : Table) : result (list variation) :=
  (highs <- df_getitem df "high" ;;
   lows <- df_getitem df "low" ;;
   highs <- floats_of highs ;;
   lows <- floats_of lows ;;
   Ok (map (fun hl : (date * float) * (date * float) =>
              (fst (fst hl), snd (fst hl), snd (snd hl),
               fsub (snd (fst hl)) (snd (snd hl))))
           (combine highs lows)))%result.

Definition highest_daily_variation_body (df : Table) : result variation :=
  (series <- high_low df ;;
   let series_highest := firstn 1 (sort_values_desc v_spread series) in
   match series_highest with
   | r :: _ => Ok r
   | [] => Raise IndexError
   end)%result.

Definition highest_daily_variation (c : client) : result (list variation) :=
  mapM highest_daily_variation_body (_data_frame c).

(** The column-wise mean of one month. *)
Definition monthly_mean (g : Z * list variation) : variation :=
  (month_start (fst g),
   fmean (map v_high (snd g)),
   fmean (map v_low (snd g)),
   fmean (map v_spread (snd g))).

Definition highest_monthly_mean_variation_body (df : Table)
  : result (date * float) :=
  (series <- high_low df ;;
   let series_highest :=
     map monthly_mean (group_by_period (fun r => month_period (v_date r)) series) in
   let series_highest := firstn 1 (sort_values_desc v_spread series_highest) in
   match series_highest with
   | r :: _ => Ok (v_date r, v_spread r)
   | [] => Raise IndexError
   end)%result.

Definition highest_monthly_mean_variation (c : client)
  : result (list (date * float)) :=
  mapM highest_monthly_mean_variation_body (_data_frame c).

(** *** Export *)

Record FileSystem : Type := {
  files : list (string * string);      (* path, contents; newest first *)
  can_write : string -> bool
}.

Definition write_file (path text : string) (fs : FileSystem) : FileSystem :=
  {| files := (path, text) :: files fs; can_write := can_write fs |}.

(** What a reader finds under [path]: the text written last. *)
Definition read_file (path : string) (fs : FileSystem) : option string :=
  assoc path (files fs).

Context {T : CsvFormat F}.

(** [df.to_csv(path)]: the file is opened for writing (an OSError where
    that is refused) and receives the text of the frame. *)
Definition DataFrame_to_csv (df : Table) (path : string) (fs : FileSystem)
  : result unit * FileSystem :=
  if can_write fs path then (Ok tt, write_file path (csv_of_frame df) fs)
  else (Raise OSError, fs).

Definition to_csv (c : client) (path2file : string) (fs : FileSystem)
  : result string * FileSystem :=
  let '(written, fs') :=
    match nth_error (_data_frame c) 0 with
    | Some df => DataFrame_to_csv df path2file fs
    | None => (Raise IndexError, fs)
    end in
  (try_except_if is_OSError (_ <- written ;; Ok path2file)%result
     (fun _ => Raise (FinanceClientIOError
                        ("Unable to write json data into file '" ++ path2file ++ "'"))),
   fs').
End Client.
End TimeSeries.

(** ** An instance to run the model on

    Integer-valued floats with one NaN.  On the small integers of the
    examples below binary64 computes the same sums, differences and
    comparisons. *)

Module IntFloat.

Fixpoint digits_value (s : string) (acc : Z) : option Z :=
  match s with
  | EmptyString => Some acc
  | String c s' =>
      match digit_of_ascii c with
      | Some d => digits_value s' (10 * acc + d)
      | None => None
      end
  end.

Definition int_of_str (s : string) : option Z :=
  match s with
  | EmptyString => None
  | String "-" EmptyString => None
  | String "-" s' => option_map Z.opp (digits_value s' 0)
  | _ => digits_value s 0
  end.

Definition of_str (s : string) : option (option Z) :=
  if (s =? "nan")%string then Some None
  else option_map Some (int_of_str s).

Definition lift2 (f : Z -> Z -> Z) (x y : option Z) : option Z :=
  match x, y with
  | Some a, Some b => Some (f a b)
  | _, _ => None
  end.

Definition to_str (x : option Z) : string :=
  match x with
  | Some z => str_of_int z ++ ".0"
  | None => "nan"
  end.

Definition div (x y : option Z) : option Z :=
  match x, y with
  | Some a, Some b => if b =? 0 then None else Some (a / b)
  | _, _ => None
  end.

Definition le (x y : option Z) : bool :=
  match x, y with
  | Some a, Some b => a <=? b
  | _, _ => false
  end.

(** The cast to int64 as x86-64 does it: a value that does not fit comes
    out as the smallest int64. *)
Definition to_int (x : option Z) : Z :=
  match x with
  | Some z => if (- 2 ^ 63 <=? z) && (z <? 2 ^ 63) then z else - 2 ^ 63
  | None => - 2 ^ 63
  end.

Definition model : FloatModel :=
  {| float := option Z;
     float_of_str := of_str;
     str_of_float := to_str;
     nan := None;
     isnan := fun x => match x with Some _ => false | None => true end;
     isfinite := fun x => match x with Some _ => true | None => false end;
     to_int64 := to_int;
     float_of_nat := fun n => Some (Z.of_nat n);
     fadd := lift2 Z.add;
     fsub := lift2 Z.sub;
     fdiv := div;
     fle := le |}.

(** The float of an integer, and the two kinds of cell. *)
Definition num (z : Z) : @float model := Some z.
Definition fcell (z : Z) : @cell model := CFloat (num z).
Definition icell (z : Z) : @cell model := CInt z.

End IntFloat.

(** ** A csv text to run the export on

    A header, then one line per row that starts with the index label.
    (pandas also quotes the labels that need it; the examples have none.) *)

Definition str_of_cell {F : FloatModel} (c : cell) : string :=
  match c with
  | CFloat x => str_of_float x
  | CInt n => str_of_int n
  end.

Definition pad2 (n : Z) : string :=
  if n <? 10 then "0" ++ str_of_int n else str_of_int n.

Definition str_of_date (d : date) : string :=
  str_of_int (year d) ++ "-" ++ pad2 (month d) ++ "-" ++ pad2 (day d).

Definition newline : string := String (ascii_of_nat 10) EmptyString.

Definition csv_line (fields : list string) : string :=
  String.concat "," fields ++ newline.

Definition csv_text {F : FloatModel} (df : DataFrame date cell) : string :=
  csv_line (EmptyString :: columns df)
    ++ String.concat EmptyString
         (map (fun r => csv_line (str_of_date (fst r) :: map str_of_cell (snd r)))
              (rows df)).

Definition plain_csv (F : FloatModel) : CsvFormat F :=
  {| csv_of_frame := csv_text |}.

(** ** Predicates the properties are stated with *)

Definition api_key_variable : string := "TEII_FINANCE_API_KEY".

(** No key was passed (or a falsy one) and the environment holds none, or
    the key passed is not a string. *)
Definition unusable_key (w : World) (api_key : pyval) : Prop :=
  (truthy api_key = false
   /\ (os_getenv w api_key_variable = None
       \/ os_getenv w api_key_variable = Some EmptyString))
  \/ (truthy api_key = true /\ isinstance_str api_key = false).

(** The key in effect is a non-empty string. *)
Definition usable_key (w : World) (api_key : pyval) : Prop :=
  exists k, Finance.configure_api_key w api_key = PyStr k /\ k <> EmptyString.

Definition invalid_api_key : exn :=
  FinanceClientInvalidAPIKey "TimeSeriesFinanceClient operation failed".

Definition symbol_not_found : exn :=
  FinanceClientInvalidData "Metadata field '2. Symbol' not found".

Definition dates_incorrect : exn := FinanceClientParamError "Dates are incorrect".

(** The URL requested for a ticker, and the attributes the loop of
    [FinanceClient.__init__] starts from. *)
Definition query_url (k t : string) : string :=
  Finance._build_base_query_url ++ TimeSeries._build_base_query_url_params k t.

Definition initial (ticker : list string) (k : string) : Finance.self :=
  {| Finance._ticker := ticker; Finance._api_key := k;
     Finance._json_data := []; Finance._json_metadata := [] |}.

(** The attributes once a response with these two blocks is recorded. *)
Definition recorded (s : Finance.self) (metadata data : json) : Finance.self :=
  {| Finance._ticker := Finance._ticker s;
     Finance._api_key := Finance._api_key s;
     Finance._json_data := (Finance._json_data s ++ [data])%list;
     Finance._json_metadata := (Finance._json_metadata s ++ [metadata])%list |}.

Definition invalid_data : exn := FinanceClientInvalidData "Invalid data".

(** ** Invariants of a table *)

(** Every row has one cell per column. *)
Definition rectangular {Ix C} (df : DataFrame Ix C) : Prop :=
  Forall (fun r => List.length (snd r) = List.length (columns df)) (rows df).

Definition canonical_columns : list string :=
  map (fun kv => fst (snd kv)) TimeSeries._data_field2name_type.

(** A rectangular table that has the eight canonical columns. *)
Definition well_formed_table {Ix C} (df : DataFrame Ix C) : Prop :=
  rectangular df
  /\ forall name, In name canonical_columns -> has_column (columns df) name = true.

(** The index labels, in row order. *)
Definition index {Ix C} (df : DataFrame Ix C) : list Ix := map fst (rows df).

Definition strictly_ascending (l : list date) : Prop :=
  StronglySorted (fun a b => date_ltb a b = true) l.

(** The same, a date being allowed to come twice. *)
Definition ascending (l : list date) : Prop :=
  StronglySorted (fun a b => date_leb a b = true) l.

(** A data block as [json.load] builds it: a dict, so no key twice. *)
Definition distinct_keys (d : json) : Prop :=
  match d with
  | JObj l => NoDup (map fst l)
  | _ => True
  end.

(** Every key of the block is a date written ["YYYY-MM-DD"]. *)
Definition iso_date_keys (d : json) : Prop :=
  match d with
  | JObj l => Forall (fun k => parse_iso_date k <> None) (map fst l)
  | _ => True
  end.

(** [l'] is [l] with some elements left out. *)
Inductive subsequence {A} : list A -> list A -> Prop :=
| subsequence_nil : subsequence [] []
| subsequence_skip x l' l : subsequence l' l -> subsequence l' (x :: l)
| subsequence_keep x l' l : subsequence l' l -> subsequence (x :: l') (x :: l).

Definition in_range {V} (lo hi : date) (kv : date * V) : Prop :=
  date_leb lo (fst kv) = true /\ date_leb (fst kv) hi = true.

(** [s'] is [s] cut down to the dates from [lo] to [hi]: it keeps the
    order of [s], every entry of it lies in the range, and the entries of
    [s] it leaves out all lie outside. *)
Definition restricted_to {V} (lo hi : date) (s s' : Series date V) : Prop :=
  subsequence s' s
  /\ Forall (in_range lo hi) s'
  /\ exists dropped,
      Permutation s (s' ++ dropped) /\ Forall (fun kv => ~ in_range lo hi kv) dropped.

(** ** The largest element of a list, for a boolean comparison *)

Definition last_error {A} (l : list A) : option A := hd_error (rev l).

(** [m] sits in [l], nothing in [l] is above it, and everything after it
    is strictly below it: the last of the largest elements. *)
Definition last_max {A} (le : A -> A -> bool) (l : list A) (m : A) : Prop :=
  exists l1 l2,
    l = (l1 ++ m :: l2)%list
    /\ Forall (fun x => le x m = true) l1
    /\ Forall (fun x => le m x = false) l2.

(** The same with "before" for "after": the first of the largest. *)
Definition first_max {A} (le : A -> A -> bool) (l : list A) (m : A) : Prop :=
  exists l1 l2,
    l = (l1 ++ m :: l2)%list
    /\ Forall (fun x => le m x = false) l1
    /\ Forall (fun x => le x m = true) l2.

(** ** Comparing rows by their spread *)

Definition spread_le {F : FloatModel} (a b : TimeSeries.variation) : bool :=
  fle (TimeSeries.v_spread a) (TimeSeries.v_spread b).

Definition no_nan_spread {F : FloatModel} (series : list TimeSeries.variation) : Prop :=
  Forall (fun r => isnan (TimeSeries.v_spread r) = false) series.

(** The rows whose difference is a number: the ones that are sorted. *)
Definition with_spread {F : FloatModel} (series : list TimeSeries.variation)
  : list TimeSeries.variation :=
  filter (fun r => negb (isnan (TimeSeries.v_spread r))) series.

(** ** The types of the cells *)

(** The numpy name of the type of a cell. *)
Definition cell_dtype {F : FloatModel} (c : cell) : string :=
  match c with
  | CFloat _ => "float"
  | CInt _ => "int"
  end.

(** Every column that carries a canonical name holds, in every row, a cell
    of the type that [_data_field2name_type] declares for the name. *)
Definition typed_table {F : FloatModel} {Ix} (df : DataFrame Ix cell) : Prop :=
  forall name ty i,
    assoc name TimeSeries.astype_dtype = Some ty ->
    position name (columns df) = Some i ->
    Forall (fun r => exists c, nth_error (snd r) i = Some c /\ cell_dtype c = ty)
           (rows df).

(** ** The expected shape of a data block, and its normal form row by row *)

(** The eight strings the API sends for one day. *)
Record raw_fields : Type := {
  r_open : string; r_high : string; r_low : string; r_close : string;
  r_aclose : string; r_volume : string; r_dividend : string; r_splitc : string
}.

Definition raw_keys : list string :=
  map fst TimeSeries._data_field2name_type.

Definition fields_list (r : raw_fields) : list (string * string) :=
  [ ("1. open", r_open r); ("2. high", r_high r); ("3. low", r_low r);
    ("4. close", r_close r); ("5. adjusted close", r_aclose r);
    ("6. volume", r_volume r); ("7. dividend amount", r_dividend r);
    ("8. split coefficient", r_splitc r) ].

Definition fields_json (r : raw_fields) : json :=
  JObj (map (fun kv => (fst kv, JStr (snd kv))) (fields_list r)).

(** The data block with one such dict per date string. *)
Definition block_json (rs : list (string * raw_fields)) : json :=
  JObj (map (fun kr => (fst kr, fields_json (snd kr))) rs).

Fixpoint traverse {A B} (f : A -> option B) (l : list A) : option (list B) :=
  match l with
  | [] => Some []
  | a :: l' =>
      match f a, traverse f l' with
      | Some b, Some bs => Some (b :: bs)
      | _, _ => None
      end
  end.

(** What a row should become: every string read as a float, volume and
    split coefficient cast to int64, the key read as a date. *)
Definition expected_floats {F : FloatModel} (r : raw_fields) : option (list float) :=
  traverse (fun kv => float_of_str (snd kv)) (fields_list r).

Definition expected_cells {F : FloatModel} (xs : list float) : option (list cell) :=
  match xs with
  | [o; h; l; c; a; v; d; s] =>
      if isfinite v && isfinite s
      then Some [CFloat o; CFloat h; CFloat l; CFloat c; CFloat a;
                 CInt (to_int64 v); CFloat d; CInt (to_int64 s)]
      else None
  | _ => None
  end.

Definition expected_row {F : FloatModel} (kr : string * raw_fields)
  : option (date * list cell) :=
  match parse_date (fst kr), expected_floats (snd kr) with
  | Some d, Some xs => option_map (pair d) (expected_cells xs)
  | _, _ => None
  end.

(** The casts [astype] applies to the canonical columns, in their order. *)
Definition casts_of_columns {F : FloatModel} : list (float -> result cell) :=
  [cast DFloat; cast DFloat; cast DFloat; cast DFloat; cast DFloat;
   cast DInt; cast DFloat; cast DInt].

(** The metadata block reports the symbol [t]. *)
Definition names_ticker (t : string) (md : json) : Prop :=
  getitem md "2. Symbol" = Ok (JStr t).

(** ** Sample responses *)

Module Sample.

Definition row (o h l c a v d s : string) : json :=
  JObj [ ("1. open", JStr o); ("2. high", JStr h); ("3. low", JStr l);
         ("4. close", JStr c); ("5. adjusted close", JStr a);
         ("6. volume", JStr v); ("7. dividend amount", JStr d);
         ("8. split coefficient", JStr s) ].

Definition block : json :=
  JObj [ ("2021-05-11", row "10" "14" "9" "12" "12" "100" "0" "1");
         ("2021-05-10", row "10" "15" "10" "11" "11" "200" "1" "1");
         ("2021-04-30", row "10" "13" "9" "11" "11" "300" "0" "1") ].

Definition body (symbol : string) (data : json) : json :=
  JObj [ ("Meta Data", JObj [ ("1. Information", JStr "Daily Time Series");
                              ("2. Symbol", JStr symbol) ]);
         ("Time Series (Daily)", data) ].

Definition respond (status : Z) (b : option json) : string -> get_outcome :=
  fun u => GetResponse {| url := u; status_code := status; json_body := b |}.

Definition no_env : string -> option string := fun _ => None.

(** The API answers every request with the IBM series. *)
Definition ibm : World :=
  {| requests_get := respond 200 (Some (body "IBM" block)); os_getenv := no_env |}.

Definition ibm_url : string :=
  "https://www.alphavantage.co/query?function=TIME_SERIES_DAILY_ADJUSTED&symbol=IBM&outputsize=full&apikey=nokey".

Definition may_10 : date := {| year := 2021; month := 5; day := 10 |}.
Definition may_11 : date := {| year := 2021; month := 5; day := 11 |}.
Definition apr_30 : date := {| year := 2021; month := 4; day := 30 |}.

Definition disk : TimeSeries.FileSystem :=
  {| TimeSeries.files := []; TimeSeries.can_write := fun _ => true |}.

End Sample.

Module SampleWorlds.
Import Sample.

(** The API answers 404. *)
Definition not_found : World :=
  {| requests_get := respond 404 None; os_getenv := no_env |}.

(** The API answers 200 with a body that is not JSON. *)
Definition unparsable : World :=
  {| requests_get := respond 200 None; os_getenv := no_env |}.

Definition ibm_answer : Response :=
  {| url := ibm_url; status_code := 200; json_body := Some (body "IBM" block) |}.

Definition ibm_metadata : json :=
  JObj [ ("1. Information", JStr "Daily Time Series"); ("2. Symbol", JStr "IBM") ].

Definition table_of (d : json) : @TimeSeries.Table IntFloat.model :=
  match @TimeSeries.build_table IntFloat.model stable_sorter d with
  | Ok df => df
  | Raise _ => {| columns := []; rows := [] |}
  end.

Definition other_block : json :=
  JObj [ ("2020-01-02", row "1" "2" "1" "2" "2" "5" "0" "1") ].

Definition two_tables : @TimeSeries.client IntFloat.model :=
  {| TimeSeries.base := initial ["IBM"; "AMZN"] "nokey";
     TimeSeries._data_frame := [table_of block; table_of other_block] |}.

Definition one_table : @TimeSeries.client IntFloat.model :=
  {| TimeSeries.base := initial ["IBM"] "nokey";
     TimeSeries._data_frame := [table_of block] |}.
Definition ibm_client : @TimeSeries.client IntFloat.model :=
  {| TimeSeries.base := recorded (initial ["IBM"] "nokey") ibm_metadata block;
     TimeSeries._data_frame := [table_of block] |}.
(** The rows of the IBM table as [highest_daily_variation] sorts them:
    10 May and 11 May share the largest difference. *)
Definition ibm_series : list (@TimeSeries.variation IntFloat.model) :=
  [ (apr_30, Some 13, Some 9, Some 4);
    (may_10, Some 15, Some 10, Some 5);
    (may_11, Some 14, Some 9, Some 5) ].
(** A block whose only row lacks "1. open". *)
Definition no_open_block : json :=
  JObj [ ("2021-05-11",
          JObj [ ("2. high", JStr "14"); ("3. low", JStr "9"); ("4. close", JStr "12");
                 ("5. adjusted close", JStr "12"); ("6. volume", JStr "100");
                 ("7. dividend amount", JStr "0"); ("8. split coefficient", JStr "1") ]) ].

Definition no_open_frame : DataFrame string (@float IntFloat.model) :=
  match @from_dict IntFloat.model no_open_block with
  | Ok df => df
  | Raise _ => {| columns := []; rows := [] |}
  end.

Definition no_open : World :=
  {| requests_get := respond 200 (Some (body "IBM" no_open_block)); os_getenv := no_env |}.

(** A block whose close price is no number, as a dict and as a table of
    strings. *)
Definition bad_close_fields : list (string * string) :=
  [ ("1. open", "10"); ("2. high", "14"); ("3. low", "9"); ("4. close", "abc");
    ("5. adjusted close", "12"); ("6. volume", "100");
    ("7. dividend amount", "0"); ("8. split coefficient", "1") ].

Definition bad_close_rows : list (string * json) :=
  [ ("2021-05-11", row "10" "14" "9" "abc" "12" "100" "0" "1") ].

Definition bad_close : World :=
  {| requests_get := respond 200 (Some (body "IBM" (JObj bad_close_rows)));
     os_getenv := no_env |}.

(** A block whose volume is not finite. *)
Definition nan_volume_block : json :=
  JObj [ ("2021-05-11", row "10" "14" "9" "12" "12" "nan" "0" "1") ].
(** A block of two rows, the older of which lacks "1. open". *)
Definition partly_open_block : json :=
  JObj [ ("2021-05-11", row "10" "14" "9" "12" "12" "100" "0" "1");
         ("2021-05-10",
          JObj [ ("2. high", JStr "15"); ("3. low", JStr "10"); ("4. close", JStr "11");
                 ("5. adjusted close", JStr "11"); ("6. volume", JStr "200");
                 ("7. dividend amount", JStr "1"); ("8. split coefficient", JStr "1") ]) ].
(** No network: every request raises. *)
Definition offline : World :=
  {| requests_get := fun _ => GetRaises (TransportError "ConnectionError");
     os_getenv := no_env |}.

(** The answer of the API to a symbol it does not know. *)
Definition error_body : json :=
  JObj [ ("Error Message", JStr "Invalid API call.") ].

Definition unknown_symbol : World :=
  {| requests_get := respond 200 (Some error_body); os_getenv := no_env |}.

(** The IBM answers again, with a key in the environment. *)
Definition ibm_with_env : World :=
  {| requests_get := respond 200 (Some (body "IBM" block));
     os_getenv := fun _ => Some "envkey" |}.

Definition read_only_disk : TimeSeries.FileSystem :=
  {| TimeSeries.files := []; TimeSeries.can_write := fun _ => false |}.

(** The IBM block as rows of raw fields, and the rows it should become. *)
Definition raw (o h l c a v d s : string) : raw_fields :=
  {| r_open := o; r_high := h; r_low := l; r_close := c; r_aclose := a;
     r_volume := v; r_dividend := d; r_splitc := s |}.

Definition ibm_rows : list (string * raw_fields) :=
  [ ("2021-05-11", raw "10" "14" "9" "12" "12" "100" "0" "1");
    ("2021-05-10", raw "10" "15" "10" "11" "11" "200" "1" "1");
    ("2021-04-30", raw "10" "13" "9" "11" "11" "300" "0" "1") ].

Definition typed_cells (o h l c a v d s : Z) : list (@cell IntFloat.model) :=
  [ IntFloat.fcell o; IntFloat.fcell h; IntFloat.fcell l; IntFloat.fcell c;
    IntFloat.fcell a; IntFloat.icell v; IntFloat.fcell d; IntFloat.icell s ].

Definition ibm_expected_rows : list (date * list (@cell IntFloat.model)) :=
  [ (may_11, typed_cells 10 14 9 12 12 100 0 1);
    (may_10, typed_cells 10 15 10 11 11 200 1 1);
    (apr_30, typed_cells 10 13 9 11 11 300 0 1) ].

(** Eighteen days of March 2021, oldest first: high - low is 1 on every
    day but the 2nd and the 3rd, where it is 2. *)
Definition quiet (day : string) : string * json :=
  (day, row "10" "11" "10" "10" "10" "100" "0" "1").
Definition wide (day : string) : string * json :=
  (day, row "10" "12" "10" "10" "10" "100" "0" "1").

Definition march_block : json :=
  JObj [ quiet "2021-03-01"; wide "2021-03-02"; wide "2021-03-03";
         quiet "2021-03-04"; quiet "2021-03-05"; quiet "2021-03-06";
         quiet "2021-03-07"; quiet "2021-03-08"; quiet "2021-03-09";
         quiet "2021-03-10"; quiet "2021-03-11"; quiet "2021-03-12";
         quiet "2021-03-13"; quiet "2021-03-14"; quiet "2021-03-15";
         quiet "2021-03-16"; quiet "2021-03-17"; quiet "2021-03-18" ].

Definition march : World :=
  {| requests_get := respond 200 (Some (body "IBM" march_block)); os_getenv := no_env |}.

Definition mar (d : Z) : date := {| year := 2021; month := 3; day := d |}.

Definition march_days : list Z :=
  [1; 2; 3; 4; 5; 6; 7; 8; 9; 10; 11; 12; 13; 14; 15; 16; 17; 18].

Definition march_high (d : Z) : Z := if (d =? 2) || (d =? 3) then 12 else 11.

(** The table of the block, and its rows as [highest_daily_variation]
    sorts them. *)
Definition march_table : @TimeSeries.Table IntFloat.model :=
  {| columns := canonical_columns;
     rows := map (fun d => (mar d, typed_cells 10 (march_high d) 10 10 10 100 0 1))
                 march_days |}.

Definition march_client : @TimeSeries.client IntFloat.model :=
  {| TimeSeries.base := recorded (initial ["IBM"] "nokey") ibm_metadata march_block;
     TimeSeries._data_frame := [march_table] |}.

Definition march_series : list (@TimeSeries.variation IntFloat.model) :=
  map (fun d => (mar d, Some (march_high d), Some 10, Some (march_high d - 10)))
      march_days.

(** A block with one day under two spellings. *)
Definition twice_block : json :=
  JObj [ ("2021-5-10", row "10" "14" "9" "12" "12" "100" "0" "1");
         ("2021-05-10", row "10" "15" "10" "11" "11" "200" "1" "1") ].

Definition twice : World :=
  {| requests_get := respond 200 (Some (body "IBM" twice_block)); os_getenv := no_env |}.
End SampleWorlds.

(** * Properties *)

(** ** The result monads *)

Lemma mapM_length {A B} (f : A -> result B) (l : list A) (bs : list B) :
  mapM f l = Ok bs -> List.length bs = List.length l.
Proof.
  revert bs; induction l as [|a l IH]; simpl; intros bs H.
  - now inversion H.
  - destruct (f a) as [b|e]; simpl in H; [|discriminate].
    destruct (mapM f l) as [bs'|e]; simpl in H; [|discriminate].
    inversion H; subst; simpl. now rewrite (IH bs' eq_refl).
Qed.

Lemma mapM_Forall2 {A B} (f : A -> result B) (l : list A) (bs : list B) :
  mapM f l = Ok bs <-> Forall2 (fun a b => f a = Ok b) l bs.
Proof.
  revert bs; induction l as [|a l IH]; simpl; intros bs; split; intros H.
  - inversion H; constructor.
  - now inversion H.
  - destruct (f a) as [b|e] eqn:Ha; simpl in H; [|discriminate].
    destruct (mapM f l) as [bs'|e] eqn:Hl; simpl in H; [|discriminate].
    inversion H; subst. constructor; [exact Ha|]. now apply IH.
  - inversion H as [|a' b l' bs' Ha Hl]; subst.
    rewrite Ha; simpl. apply IH in Hl. now rewrite Hl.
Qed.

Lemma mapM_total {A B} (f : A -> result B) (l : list A) :
  Forall (fun a => exists b, f a = Ok b) l -> exists bs, mapM f l = Ok bs.
Proof.
  induction 1 as [|a l [b Ha] _ [bs Hl]]; simpl.
  - now exists [].
  - rewrite Ha, Hl; simpl. now exists (b :: bs).
Qed.

Lemma mapM_first_raise {A B} (f : A -> result B) (a : A) (l : list A) (e : exn) :
  f a = Raise e -> mapM f (a :: l) = Raise e.
Proof. intros H; simpl; now rewrite H. Qed.

(** ** Construction: the API key *)

Section KeyFacts.
Context {F : FloatModel} {S : Sorter}.

Lemma base_init_unusable_key (w : World) (cls : Finance.Methods) (q : string)
      (ticker : list string) (api_key : pyval) (tr : list string) :
  unusable_key w api_key ->
  Finance.__init__ w cls q ticker api_key tr
  = (Raise (FinanceClientInvalidAPIKey (q ++ " operation failed")), tr).
Proof.
  unfold unusable_key, Finance.__init__, Finance.configure_api_key, api_key_variable.
  intros [[Hf [He|He]]|[Ht Hs]].
  - rewrite Hf, He; reflexivity.
  - rewrite Hf, He; reflexivity.
  - rewrite Ht; simpl. rewrite Ht, Hs; reflexivity.
Qed.

(** C8.  Without a usable API key (none passed and none in the
    environment, or a key that is not a string) the constructor raises
    FinanceClientInvalidAPIKey, whatever the ticker list; the list of
    requested URLs is the one it started with, so nothing was fetched. *)
Theorem init_invalid_api_key_before_network
        (w : World) (ticker : list string) (api_key : pyval) (tr : list string) :
  unusable_key w api_key ->
  TimeSeries.__init__ w ticker api_key tr = (Raise invalid_api_key, tr).
Proof.
  intros H. unfold TimeSeries.__init__, io_bind.
  rewrite (base_init_unusable_key w _ _ ticker api_key tr H). reflexivity.
Qed.
End KeyFacts.

Lemma init_invalid_api_key_before_network_witness :
  unusable_key Sample.ibm PyNone
  /\ @TimeSeries.__init__ IntFloat.model stable_sorter Sample.ibm ["IBM"; "IBM"] PyNone []
     = (Raise invalid_api_key, []).
Proof.
  assert (H : unusable_key Sample.ibm PyNone)
    by (left; split; [reflexivity | left; reflexivity]).
  split; [exact H|].
  exact (@init_invalid_api_key_before_network IntFloat.model stable_sorter
           Sample.ibm ["IBM"; "IBM"] PyNone [] H).
Defined.

(** ** The client of an empty ticker list *)

Section EmptyClient.
Context {F : FloatModel} {S : Sorter}.

Lemma init_empty (w : World) (api_key : pyval) (tr : list string) (k : string) :
  Finance.configure_api_key w api_key = PyStr k -> k <> EmptyString ->
  TimeSeries.__init__ w [] api_key tr
  = (Ok {| TimeSeries.base := {| Finance._ticker := []; Finance._api_key := k;
                                 Finance._json_data := [];
                                 Finance._json_metadata := [] |};
           TimeSeries._data_frame := [] |}, tr).
Proof.
  intros Hk Hne.
  unfold TimeSeries.__init__, io_bind, Finance.__init__.
  rewrite Hk; simpl.
  apply String.eqb_neq in Hne. rewrite Hne; simpl. reflexivity.
Qed.

(** C10.  With a usable key the constructor accepts the empty ticker
    list and fetches nothing; the client has no table, so each query
    returns the empty list, also the four range queries called with
    from > to: the range check sits inside the loop over the tables. *)
Theorem empty_ticker_list_client
        (w : World) (api_key : pyval) (tr : list string) :
  usable_key w api_key ->
  exists c,
    TimeSeries.__init__ w [] api_key tr = (Ok c, tr)
    /\ TimeSeries.to_pandas c = []
    /\ forall (from_date to_date : option date) (from_year to_year : option Z),
        TimeSeries.daily_price c from_date to_date = Ok []
        /\ TimeSeries.daily_volume c from_date to_date = Ok []
        /\ TimeSeries.yearly_dividends c from_year to_year = Ok []
        /\ TimeSeries.yearly_dividends_per_quarter c from_year to_year = Ok []
        /\ TimeSeries.highest_daily_variation c = Ok []
        /\ TimeSeries.highest_monthly_mean_variation c = Ok [].
Proof.
  intros [k [Hk Hne]].
  eexists; split; [exact (init_empty w api_key tr k Hk Hne)|].
  split; [reflexivity|].
  intros; repeat split; reflexivity.
Qed.
End EmptyClient.

Lemma empty_ticker_list_client_witness :
  usable_key Sample.ibm (PyStr "nokey")
  /\ exists c : @TimeSeries.client IntFloat.model,
      @TimeSeries.__init__ IntFloat.model stable_sorter Sample.ibm [] (PyStr "nokey") []
      = (Ok c, [])
      /\ TimeSeries.daily_price c (Some Sample.may_11) (Some Sample.may_10) = Ok []
      /\ TimeSeries.yearly_dividends c (Some 2021) (Some 2020) = Ok [].
Proof.
  assert (H : usable_key Sample.ibm (PyStr "nokey"))
    by (exists "nokey"; split; [reflexivity | discriminate]).
  split; [exact H|].
  destruct (@empty_ticker_list_client IntFloat.model stable_sorter
              Sample.ibm (PyStr "nokey") [] H) as [c [Hc [_ Hq]]].
  exists c. split; [exact Hc|].
  destruct (Hq (Some Sample.may_11) (Some Sample.may_10) (Some 2021) (Some 2020))
    as [Hp [_ [Hy _]]].
  split; assumption.
Defined.

(** ** Export *)

Section CsvExport.
Context {F : FloatModel} {T : CsvFormat F}.

Lemma read_file_written (path text : string) (fs : TimeSeries.FileSystem) :
  TimeSeries.read_file path (TimeSeries.write_file path text fs) = Some text.
Proof.
  unfold TimeSeries.read_file, TimeSeries.write_file. simpl.
  now rewrite String.eqb_refl.
Qed.

Lemma read_file_elsewhere (p path text : string) (fs : TimeSeries.FileSystem) :
  p <> path ->
  TimeSeries.read_file p (TimeSeries.write_file path text fs)
  = TimeSeries.read_file p fs.
Proof.
  intros Hp. unfold TimeSeries.read_file, TimeSeries.write_file. simpl.
  destruct (String.eqb_spec p path) as [E|_]; [contradiction|reflexivity].
Qed.

End CsvExport.

(** ** Construction: the loop over the tickers *)

Section Loop.
Variable w : World.
Let cls := TimeSeries.methods.

Lemma init_loop_app (ts1 ts2 : list string) (s : Finance.self) (tr : list string) :
  Finance.init_loop w cls (ts1 ++ ts2) s tr
  = match Finance.init_loop w cls ts1 s tr with
    | (Ok s1, tr1) => Finance.init_loop w cls ts2 s1 tr1
    | (Raise e, tr1) => (Raise e, tr1)
    end.
Proof.
  revert s tr; induction ts1 as [|t ts1 IH]; intros s tr; simpl; [reflexivity|].
  unfold io_bind.
  destruct (Finance.init_step w cls s t tr) as [[s'|e] tr']; [apply IH|reflexivity].
Qed.

Lemma process_ok_inv (s s' : Finance.self) (r : Response) :
  Finance._process_query_response cls s r = Ok s' ->
  exists b md d,
    json_body r = Some b
    /\ getitem b Finance._build_query_metadata_key = Ok md
    /\ getitem b TimeSeries._build_query_data_key = Ok d
    /\ s' = recorded s md d.
Proof.
  unfold Finance._process_query_response, Finance.response_json, try_except, rbind.
  destruct (json_body r) as [b|]; [|discriminate].
  destruct (getitem b Finance._build_query_metadata_key) as [md|] eqn:Hm; [|discriminate].
  simpl. destruct (getitem b TimeSeries._build_query_data_key) as [d|] eqn:Hd; [|discriminate].
  intros H; inversion H; subst. exists b, md, d. repeat split; assumption.
Qed.

Lemma init_step_api_key (s s' : Finance.self) (t : string) (tr tr' : list string) :
  Finance.init_step w cls s t tr = (Ok s', tr') ->
  Finance._api_key s' = Finance._api_key s /\ Finance._ticker s' = Finance._ticker s.
Proof.
  unfold Finance.init_step, io_bind, io_lift, io_ret.
  destruct (Finance._query_api w cls s t tr) as [[r|e] tr1]; [|discriminate].
  destruct (Finance._process_query_response cls s r) as [s1|e] eqn:Hp; [|discriminate].
  destruct (Finance._validate_query_data cls s1 t); [|discriminate].
  intros H; inversion H; subst.
  destruct (process_ok_inv _ _ _ Hp) as [b [md [d [_ [_ [_ ->]]]]]]. now split.
Qed.

Lemma init_loop_api_key (ts : list string) (s s' : Finance.self) (tr tr' : list string) :
  Finance.init_loop w cls ts s tr = (Ok s', tr') ->
  Finance._api_key s' = Finance._api_key s /\ Finance._ticker s' = Finance._ticker s.
Proof.
  revert s tr; induction ts as [|t ts IH]; intros s tr; simpl.
  - unfold io_ret; intros H; inversion H; now split.
  - unfold io_bind.
    destruct (Finance.init_step w cls s t tr) as [[s1|e] tr1] eqn:Hs; [|discriminate].
    intros H. apply IH in H. apply init_step_api_key in Hs.
    destruct H as [-> ->]; exact Hs.
Qed.

(** What one turn of the loop does with the response it gets. *)
Lemma init_step_response (s : Finance.self) (t : string) (tr : list string)
      (r : Response) :
  requests_get w (query_url (Finance._api_key s) t) = GetResponse r ->
  Finance.init_step w cls s t tr
  = (if status_code r =? 200
     then match Finance._process_query_response cls s r with
          | Ok s' => match TimeSeries._validate_query_data s' t with
                     | Ok _ => Ok s'
                     | Raise e => Raise e
                     end
          | Raise e => Raise e
          end
     else Raise (FinanceClientAPIError (Finance.api_error_message r)),
     (tr ++ [query_url (Finance._api_key s) t])%list).
Proof.
  intros Hget.
  unfold Finance.init_step, io_bind, io_lift, io_ret, Finance._query_api.
  unfold query_url in Hget. simpl in Hget |- *. rewrite Hget.
  destruct (status_code r =? 200); simpl; [|reflexivity].
  destruct (Finance._process_query_response cls s r) as [s'|e]; [|reflexivity].
  simpl. destruct (TimeSeries._validate_query_data s' t) as [[]|e]; reflexivity.
Qed.

Context {F : FloatModel} {S : Sorter}.

(** A failure inside the loop is the failure of the constructor. *)
Lemma init_loop_failure (ticker : list string) (api_key : pyval) (k : string)
      (tr tr' : list string) (e : exn) :
  Finance.configure_api_key w api_key = PyStr k -> k <> EmptyString ->
  Finance.init_loop w cls ticker (initial ticker k) tr = (Raise e, tr') ->
  TimeSeries.__init__ w ticker api_key tr = (Raise e, tr').
Proof.
  intros Hk Hne Hl.
  unfold TimeSeries.__init__, io_bind, Finance.__init__.
  rewrite Hk; simpl. apply String.eqb_neq in Hne; rewrite Hne; simpl.
  fold cls. unfold initial in Hl. rewrite Hl. reflexivity.
Qed.

(** The loop stops at the first ticker whose turn fails. *)
Lemma init_loop_stops (ts1 rest : list string) (t : string)
      (s0 s : Finance.self) (tr0 tr tr' : list string) (e : exn) :
  Finance.init_loop w cls ts1 s0 tr0 = (Ok s, tr) ->
  Finance.init_step w cls s t tr = (Raise e, tr') ->
  Finance.init_loop w cls (ts1 ++ t :: rest) s0 tr0 = (Raise e, tr').
Proof.
  intros H1 H2. rewrite init_loop_app, H1. simpl. unfold io_bind. now rewrite H2.
Qed.
End Loop.

(** ** Construction: failed requests and the symbol check *)

Lemma validate_last (s : Finance.self) (l : list json) (md : json) (t : string) :
  Finance._json_metadata s = (l ++ [md])%list ->
  TimeSeries._validate_query_data s t
  = match getitem md "2. Symbol" with
    | Ok v => if json_eq_str v t then Ok tt else Raise symbol_not_found
    | Raise _ => Raise symbol_not_found
    end.
Proof.
  intros H. unfold TimeSeries._validate_query_data, TimeSeries.last_item.
  rewrite H, rev_app_distr; simpl.
  destruct (getitem md "2. Symbol") as [v|e]; simpl; [|reflexivity].
  destruct (json_eq_str v t); reflexivity.
Qed.

Lemma json_eq_str_true (v : json) (t : string) :
  json_eq_str v t = true <-> v = JStr t.
Proof.
  destruct v; simpl; split; intros H; try discriminate.
  - apply String.eqb_eq in H. now subst.
  - inversion H. apply String.eqb_refl.
Qed.

(** The check passes exactly when the last metadata block is a dict whose
    "2. Symbol" entry is the string [t]. *)
Lemma validate_spec (s : Finance.self) (l : list json) (md : json) (t : string) :
  Finance._json_metadata s = (l ++ [md])%list ->
  (getitem md "2. Symbol" = Ok (JStr t) -> TimeSeries._validate_query_data s t = Ok tt)
  /\ (getitem md "2. Symbol" <> Ok (JStr t) ->
      TimeSeries._validate_query_data s t = Raise symbol_not_found).
Proof.
  intros H. rewrite (validate_last s l md t H). split.
  - intros ->. simpl. now rewrite String.eqb_refl.
  - intros Hne. destruct (getitem md "2. Symbol") as [v|e]; [|reflexivity].
    destruct (json_eq_str v t) eqn:Hv; [|reflexivity].
    apply json_eq_str_true in Hv. subst. now elim Hne.
Qed.

Section Requests.
Context {F : FloatModel} {S : Sorter}.
Variable w : World.

(** When [requests.get] itself raises, the handler of [_query_api] reads
    the local [response], which was never bound. *)
Remark transport_exception_unbound_local
       (s : Finance.self) (t : string) (tr : list string) (e : exn) :
  requests_get w (query_url (Finance._api_key s) t) = GetRaises e ->
  Finance._query_api w TimeSeries.methods s t tr
  = (Raise UnboundLocalError, (tr ++ [query_url (Finance._api_key s) t])%list).
Proof.
  intros H. unfold Finance._query_api. unfold query_url in H; simpl in H |- *.
  now rewrite H.
Qed.

(** C4 (amended).  Once the tickers before [t] are through, an answer for
    [t] with a status other than 200 makes the constructor raise
    FinanceClientAPIError with the URL and the status of the answer in its
    message; an answer with status 200 whose body does not parse makes it
    raise FinanceClientInvalidData. *)
Theorem failed_request_fails_construction
        (ts1 rest : list string) (t : string) (api_key : pyval) (k : string)
        (tr0 tr : list string) (s : Finance.self) (r : Response) :
  Finance.configure_api_key w api_key = PyStr k -> k <> EmptyString ->
  Finance.init_loop w TimeSeries.methods ts1 (initial (ts1 ++ t :: rest) k) tr0
  = (Ok s, tr) ->
  requests_get w (query_url k t) = GetResponse r ->
  (status_code r <> 200 ->
   TimeSeries.__init__ w (ts1 ++ t :: rest) api_key tr0
   = (Raise (FinanceClientAPIError
               ("Unsuccessful API access [URL: " ++ url r ++ ", status: "
                  ++ str_of_int (status_code r) ++ "]")),
      (tr ++ [query_url k t])%list))
  /\ (status_code r = 200 -> json_body r = None ->
      TimeSeries.__init__ w (ts1 ++ t :: rest) api_key tr0
      = (Raise invalid_data, (tr ++ [query_url k t])%list)).
Proof.
  intros Hk Hne Hpre Hget.
  destruct (init_loop_api_key w _ _ _ _ _ Hpre) as [Hkey _]; simpl in Hkey.
  rewrite <- Hkey in Hget.
  pose proof (init_step_response w s t tr r Hget) as Hstep. rewrite Hkey in Hstep.
  split.
  - intros Hst. apply Z.eqb_neq in Hst. rewrite Hst in Hstep.
    apply (init_loop_failure w _ _ k _ _ _ Hk Hne).
    exact (init_loop_stops w ts1 rest t _ s tr0 tr _ _ Hpre Hstep).
  - intros Hst Hbody. apply Z.eqb_eq in Hst. rewrite Hst in Hstep.
    unfold Finance._process_query_response, Finance.response_json in Hstep.
    rewrite Hbody in Hstep; simpl in Hstep.
    apply (init_loop_failure w _ _ k _ _ _ Hk Hne).
    exact (init_loop_stops w ts1 rest t _ s tr0 tr _ _ Hpre Hstep).
Qed.

(** C7.  Once the tickers before [t] are through and the answer for [t]
    holds a metadata block [md] and a data block: if [md] has no
    "2. Symbol" entry, or one that is not the string [t], the constructor
    raises FinanceClientInvalidData; if the entry is the string [t] the
    check passes and the loop goes on with the two blocks recorded. *)
Theorem symbol_check_during_construction
        (ts1 rest : list string) (t : string) (api_key : pyval) (k : string)
        (tr0 tr : list string) (s : Finance.self) (r : Response) (b md d : json) :
  Finance.configure_api_key w api_key = PyStr k -> k <> EmptyString ->
  Finance.init_loop w TimeSeries.methods ts1 (initial (ts1 ++ t :: rest) k) tr0
  = (Ok s, tr) ->
  requests_get w (query_url k t) = GetResponse r ->
  status_code r = 200 ->
  json_body r = Some b ->
  getitem b "Meta Data" = Ok md ->
  getitem b "Time Series (Daily)" = Ok d ->
  (getitem md "2. Symbol" <> Ok (JStr t) ->
   TimeSeries.__init__ w (ts1 ++ t :: rest) api_key tr0
   = (Raise symbol_not_found, (tr ++ [query_url k t])%list))
  /\ (getitem md "2. Symbol" = Ok (JStr t) ->
      TimeSeries._validate_query_data (recorded s md d) t = Ok tt
      /\ Finance.init_loop w TimeSeries.methods (ts1 ++ [t])
           (initial (ts1 ++ t :: rest) k) tr0
         = (Ok (recorded s md d), (tr ++ [query_url k t])%list)).
Proof.
  intros Hk Hne Hpre Hget Hst Hbody Hmd Hd.
  destruct (init_loop_api_key w _ _ _ _ _ Hpre) as [Hkey _]; simpl in Hkey.
  rewrite <- Hkey in Hget.
  pose proof (init_step_response w s t tr r Hget) as Hstep. rewrite Hkey in Hstep.
  apply Z.eqb_eq in Hst. rewrite Hst in Hstep.
  assert (Hp : Finance._process_query_response TimeSeries.methods s r
               = Ok (recorded s md d)).
  { unfold Finance._process_query_response, Finance.response_json.
    rewrite Hbody; simpl. unfold Finance._build_query_metadata_key.
    rewrite Hmd; simpl. unfold TimeSeries._build_query_data_key.
    rewrite Hd; reflexivity. }
  rewrite Hp in Hstep.
  destruct (validate_spec (recorded s md d) (Finance._json_metadata s) md t eq_refl)
    as [Hpass Hfail].
  split.
  - intros Hsym. rewrite (Hfail Hsym) in Hstep.
    apply (init_loop_failure w _ _ k _ _ _ Hk Hne).
    exact (init_loop_stops w ts1 rest t _ s tr0 tr _ _ Hpre Hstep).
  - intros Hsym. split; [exact (Hpass Hsym)|].
    rewrite (Hpass Hsym) in Hstep.
    rewrite init_loop_app, Hpre. simpl. unfold io_bind. rewrite Hstep. reflexivity.
Qed.
End Requests.


Lemma failed_request_fails_construction_witness :
  @TimeSeries.__init__ IntFloat.model stable_sorter SampleWorlds.not_found
    ["IBM"] (PyStr "nokey") []
  = (Raise (FinanceClientAPIError
              ("Unsuccessful API access [URL: " ++ Sample.ibm_url ++ ", status: 404]")),
     [Sample.ibm_url]).
Proof.
  destruct (@failed_request_fails_construction IntFloat.model stable_sorter
              SampleWorlds.not_found [] [] "IBM" (PyStr "nokey") "nokey" [] []
              (initial ["IBM"] "nokey")
              {| url := Sample.ibm_url; status_code := 404; json_body := None |})
    as [H _].
  - reflexivity.
  - discriminate.
  - reflexivity.
  - reflexivity.
  - apply H. discriminate.
Defined.

(** C4, as stated, fails: a body that does not parse is reported as
    FinanceClientInvalidData, not as FinanceClientAPIError. *)
Lemma unparsable_body_is_invalid_data :
  fst (@TimeSeries.__init__ IntFloat.model stable_sorter SampleWorlds.unparsable
         ["IBM"] (PyStr "nokey") [])
  = Raise (FinanceClientInvalidData "Invalid data")
  /\ forall msg,
      fst (@TimeSeries.__init__ IntFloat.model stable_sorter SampleWorlds.unparsable
             ["IBM"] (PyStr "nokey") [])
      <> Raise (FinanceClientAPIError msg).
Proof.
  assert (E : fst (@TimeSeries.__init__ IntFloat.model stable_sorter
                     SampleWorlds.unparsable ["IBM"] (PyStr "nokey") [])
              = Raise (FinanceClientInvalidData "Invalid data"))
    by reflexivity.
  split; [exact E|]. intros msg H. rewrite E in H. discriminate.
Qed.

Lemma symbol_check_during_construction_witness :
  (getitem SampleWorlds.ibm_metadata "2. Symbol" <> Ok (JStr "IBM") ->
   @TimeSeries.__init__ IntFloat.model stable_sorter Sample.ibm ["IBM"] (PyStr "nokey") []
   = (Raise symbol_not_found, [Sample.ibm_url]))
  /\ (getitem SampleWorlds.ibm_metadata "2. Symbol" = Ok (JStr "IBM") ->
      TimeSeries._validate_query_data
        (recorded (initial ["IBM"] "nokey") SampleWorlds.ibm_metadata Sample.block) "IBM"
      = Ok tt
      /\ Finance.init_loop Sample.ibm TimeSeries.methods ["IBM"]
           (initial ["IBM"] "nokey") []
         = (Ok (recorded (initial ["IBM"] "nokey") SampleWorlds.ibm_metadata Sample.block),
            [Sample.ibm_url])).
Proof.
  exact (@symbol_check_during_construction IntFloat.model stable_sorter Sample.ibm
           [] [] "IBM" (PyStr "nokey") "nokey" [] [] (initial ["IBM"] "nokey")
           SampleWorlds.ibm_answer (Sample.body "IBM" Sample.block)
           SampleWorlds.ibm_metadata Sample.block
           eq_refl ltac:(discriminate) eq_refl eq_refl eq_refl eq_refl eq_refl eq_refl).
Defined.

(** ** Sorting *)

Section InsertionSort.
Context {A : Type} (le : A -> A -> bool).
Let R := fun x y => le x y = true.

Lemma insert_perm (x : A) (l : list A) : Permutation (insert le x l) (x :: l).
Proof.
  induction l as [|y l IH]; simpl; [reflexivity|].
  destruct (le x y); [reflexivity|].
  rewrite IH. apply perm_swap.
Qed.

Lemma isort_perm (l : list A) : Permutation (isort le l) l.
Proof.
  induction l as [|x l IH]; simpl; [reflexivity|].
  rewrite insert_perm. now constructor.
Qed.

Variable P : A -> Prop.
Hypothesis le_total : total_on P le.
Hypothesis le_trans : transitive_on P le.

Lemma insert_sorted (x : A) (l : list A) :
  P x -> Forall P l -> StronglySorted R l -> StronglySorted R (insert le x l).
Proof.
  intros Hx Hl Hs. induction Hs as [|y l Hs IH Hy]; simpl.
  - constructor; constructor.
  - inversion Hl as [|? ? Py Pl]; subst. destruct (le x y) eqn:Hxy.
    + constructor; [now constructor|].
      constructor; [exact Hxy|].
      rewrite Forall_forall in *. intros z Hz.
      exact (le_trans x y z Hx Py (Pl z Hz) Hxy (Hy z Hz)).
    + constructor; [exact (IH Pl)|].
      apply (Permutation_Forall (Permutation_sym (insert_perm x l))).
      constructor; [|exact Hy].
      destruct (le_total x y Hx Py) as [H|H]; [congruence|exact H].
Qed.

Lemma isort_sorted (l : list A) : Forall P l -> StronglySorted R (isort le l).
Proof.
  induction l as [|x l IH]; simpl; intros Hl; [constructor|].
  inversion Hl; subst. apply insert_sorted; auto.
  apply (Permutation_Forall (Permutation_sym (isort_perm l))). assumption.
Qed.
End InsertionSort.

Lemma Forall_In_self {A} (l : list A) : Forall (fun x => In x l) l.
Proof. apply Forall_forall. auto. Qed.

Lemma stable_sorter_ok : SorterOk stable_sorter.
Proof.
  split; simpl; intros.
  - apply isort_perm.
  - apply (isort_sorted le (fun x => In x l)); auto. apply Forall_In_self.
Qed.

(** ** numpy's quicksort on short lists

    Up to seventeen elements numpy sorts by insertion alone, which keeps
    equal elements in the order of the input. *)

Lemma StronglySorted_snoc_inv {A} (R : A -> A -> Prop) (l : list A) (y : A) :
  StronglySorted R (l ++ [y]) -> StronglySorted R l /\ Forall (fun z => R z y) l.
Proof.
  induction l as [|z l IH]; simpl; intros H; [split; constructor|].
  inversion H as [|? ? Hs Hall]; subst. destruct (IH Hs) as [Hs' Hy].
  apply Forall_app in Hall. destruct Hall as [Hl Hlast].
  split; constructor; try assumption. now inversion Hlast.
Qed.

Section ShortLists.
Context {A : Type} (le : A -> A -> bool) (P : A -> Prop).
Hypothesis le_total : total_on P le.
Hypothesis le_trans : transitive_on P le.

Lemma strict_le (x y : A) : P x -> P y -> strict le x y = true -> le x y = true.
Proof.
  unfold strict. intros Px Py H. apply negb_true_iff in H.
  destruct (le_total x y Px Py) as [E|E]; [exact E|congruence].
Qed.

Lemma insert_strict_snoc (x y : A) (l : list A) :
  strict le x y = true ->
  insert (strict le) x (l ++ [y]) = (insert (strict le) x l ++ [y])%list.
Proof.
  intros H. induction l as [|z l IH]; simpl.
  - now rewrite H.
  - destruct (strict le x z); [reflexivity|]. now rewrite IH.
Qed.

Lemma insert_strict_last (x : A) (l : list A) :
  Forall (fun z => strict le x z = false) l ->
  insert (strict le) x l = (l ++ [x])%list.
Proof.
  induction 1 as [|z l Hz _ IH]; simpl; [reflexivity|]. now rewrite Hz, IH.
Qed.

Lemma insert_back_Forall (x : A) (before : list A) :
  P x -> Forall P before -> Forall P (insert_back (strict le) x before).
Proof.
  intros Px. induction 1 as [|y before Py Hb IH]; simpl; [now constructor|].
  destruct (strict le x y); repeat constructor; assumption.
Qed.

Lemma insert_strict_Forall (x : A) (s : list A) :
  P x -> Forall P s -> Forall P (insert (strict le) x s).
Proof.
  intros Px Hs.
  apply (Permutation_Forall (Permutation_sym (insert_perm (strict le) x s))).
  now constructor.
Qed.

(** One pass of numpy's insertion sort, seen from the left. *)
Lemma insert_back_rev (x : A) (before : list A) :
  P x -> Forall P before ->
  StronglySorted (fun a b => le a b = true) (rev before) ->
  rev (insert_back (strict le) x before) = insert (strict le) x (rev before).
Proof.
  intros Px. induction before as [|y before IH]; intros HP Hs; [reflexivity|].
  inversion HP as [|? ? Py HP']; subst. simpl in Hs.
  destruct (StronglySorted_snoc_inv _ _ _ Hs) as [Hs' Hy].
  simpl. destruct (strict le x y) eqn:Hxy; simpl.
  - rewrite (IH HP' Hs'). symmetry. now apply insert_strict_snoc.
  - symmetry. apply insert_strict_last.
    assert (Hyx : le y x = true).
    { unfold strict in Hxy. now apply negb_false_iff in Hxy. }
    apply Forall_app. split; [|now repeat constructor].
    apply Forall_rev in HP'. rewrite Forall_forall in *. intros z Hz.
    unfold strict. apply negb_false_iff.
    exact (le_trans z y x (HP' z Hz) Py Px (Hy z Hz) Hyx).
Qed.

Lemma insert_strict_sorted (x : A) (s : list A) :
  P x -> Forall P s ->
  StronglySorted (fun a b => le a b = true) s ->
  StronglySorted (fun a b => le a b = true) (insert (strict le) x s).
Proof.
  intros Hx Hl Hs. induction Hs as [|y l Hs IH Hy]; simpl.
  - constructor; constructor.
  - inversion Hl as [|? ? Py Pl]; subst. destruct (strict le x y) eqn:Hxy.
    + pose proof (strict_le x y Hx Py Hxy) as Hle.
      constructor; [now constructor|].
      constructor; [exact Hle|].
      rewrite Forall_forall in *. intros z Hz.
      exact (le_trans x y z Hx Py (Pl z Hz) Hle (Hy z Hz)).
    + constructor; [exact (IH Pl)|].
      apply (Permutation_Forall (Permutation_sym (insert_perm (strict le) x l))).
      constructor; [|exact Hy].
      unfold strict in Hxy. now apply negb_false_iff in Hxy.
Qed.

(** An element put before its equals and one put after them do not get
    in each other's way. *)
Lemma insert_commute (a x : A) (s : list A) :
  P a -> P x -> Forall P s ->
  insert le a (insert (strict le) x s) = insert (strict le) x (insert le a s).
Proof.
  intros Pa Px. induction s as [|y s IH]; intros HP.
  - simpl. unfold strict. destruct (le a x); reflexivity.
  - inversion HP as [|? ? Py HP']; subst. cbn [insert].
    destruct (strict le x y) eqn:Hxy; destruct (le a y) eqn:Hay;
      cbn [insert]; rewrite ?Hxy, ?Hay.
    + unfold strict. destruct (le a x); reflexivity.
    + destruct (le a x) eqn:Hax; [|reflexivity].
      pose proof (le_trans a x y Pa Px Py Hax (strict_le x y Px Py Hxy)). congruence.
    + assert (Hax : le a x = true).
      { apply (le_trans a y x Pa Py Px Hay).
        unfold strict in Hxy. now apply negb_false_iff in Hxy. }
      assert (Hxa : strict le x a = false) by (unfold strict; now rewrite Hax).
      now rewrite Hxa.
    + now rewrite (IH HP').
Qed.

Lemma fold_insert_back (l before : list A) :
  Forall P l -> Forall P before ->
  StronglySorted (fun a b => le a b = true) (rev before) ->
  rev (fold_left (fun b x => insert_back (strict le) x b) l before)
  = fold_left (fun s x => insert (strict le) x s) l (rev before).
Proof.
  revert before. induction l as [|x l IH]; intros before Hl Hb Hs; [reflexivity|].
  inversion Hl; subst. simpl. rewrite IH.
  - now rewrite insert_back_rev.
  - assumption.
  - now apply insert_back_Forall.
  - rewrite insert_back_rev by assumption.
    apply insert_strict_sorted; [assumption| |assumption]. now apply Forall_rev.
Qed.

Lemma fold_insert_commute (l : list A) (a : A) (s : list A) :
  P a -> Forall P l -> Forall P s ->
  fold_left (fun s x => insert (strict le) x s) l (insert le a s)
  = insert le a (fold_left (fun s x => insert (strict le) x s) l s).
Proof.
  intros Pa. revert s. induction l as [|x l IH]; intros s Hl Hs; [reflexivity|].
  inversion Hl; subst. simpl. rewrite <- insert_commute by assumption.
  apply IH; [assumption|]. now apply insert_strict_Forall.
Qed.

(** numpy's insertion sort and the stable sort give the same list. *)
Lemma insertion_sort_isort (l : list A) :
  Forall P l -> insertion_sort (strict le) l = isort le l.
Proof.
  intros Hl. unfold insertion_sort.
  rewrite fold_insert_back; [|assumption|constructor|constructor]. simpl.
  induction Hl as [|x l Px Hl IH]; [reflexivity|]. simpl.
  change [x] with (insert le x []).
  rewrite fold_insert_commute; [|assumption|assumption|constructor].
  now rewrite IH.
Qed.
End ShortLists.

Lemma quicksort_stretch_short {A} (less : A -> A -> bool) (d : A)
      (fuel pl pr : nat) (t : list A) :
  (pr - pl <= SMALL_QUICKSORT)%nat ->
  quicksort_stretch less d fuel pl pr t = sort_stretch less pl pr t.
Proof.
  intros H. apply Nat.ltb_ge in H. destruct fuel; simpl; now rewrite H.
Qed.

Lemma numpy_quicksort_short {A} (le : A -> A -> bool) (l : list A) :
  (List.length l <= 17)%nat ->
  total_on (fun x => In x l) le -> transitive_on (fun x => In x l) le ->
  sort (Sorter := numpy_quicksort) le l = isort le l.
Proof.
  intros Hlen Htot Htrans. destruct l as [|d l']; [reflexivity|].
  change (quicksort_stretch (strict le) d (List.length (d :: l')) 0
                            (List.length (d :: l') - 1) (d :: l')
          = isort le (d :: l')).
  remember (d :: l') as l eqn:El.
  assert (Hpos : (1 <= List.length l)%nat) by (rewrite El; simpl; lia).
  rewrite quicksort_stretch_short by (unfold SMALL_QUICKSORT; lia).
  unfold sort_stretch.
  replace (List.length l - 1 + 1 - 0)%nat with (List.length l) by lia.
  replace (List.length l - 1 + 1)%nat with (List.length l) by lia.
  rewrite skipn_all, app_nil_r. simpl firstn at 1. simpl skipn. cbn [app].
  rewrite firstn_all.
  apply (insertion_sort_isort le (fun x => In x l) Htot Htrans).
  apply Forall_In_self.
Qed.

(** ** Dates *)

Lemma date_leb_iff (a b : date) :
  date_leb a b = true
  <-> year a < year b
      \/ (year a = year b
          /\ (month a < month b \/ (month a = month b /\ day a <= day b))).
Proof.
  unfold date_leb.
  destruct (Z.ltb_spec (year a) (year b)), (Z.eqb_spec (year a) (year b)),
    (Z.ltb_spec (month a) (month b)), (Z.eqb_spec (month a) (month b)),
    (Z.leb_spec (day a) (day b)); simpl; split; intros Hab;
    try reflexivity; try discriminate; lia.
Qed.

Lemma date_leb_total : total date_leb.
Proof. intros a b. rewrite !date_leb_iff. lia. Qed.

Lemma date_leb_trans : transitive date_leb.
Proof. intros a b c. rewrite !date_leb_iff. lia. Qed.

Lemma date_leb_antisym (a b : date) :
  date_leb a b = true -> date_leb b a = true -> a = b.
Proof.
  rewrite !date_leb_iff. destruct a as [ya ma da], b as [yb mb db]; simpl.
  intros Hab Hba. f_equal; lia.
Qed.

Lemma date_ltb_leb (a b : date) : date_ltb a b = true -> date_leb a b = true.
Proof.
  unfold date_ltb. intros H. apply negb_true_iff in H.
  destruct (date_leb_total a b) as [H'|H']; [exact H'|congruence].
Qed.

Lemma date_ltb_irrefl (a : date) : date_ltb a a = false.
Proof.
  unfold date_ltb. destruct (date_leb_total a a) as [H|H]; now rewrite H.
Qed.

(** *** Reading a date back from its string *)

Lemma digit_of_ascii_range (a : ascii) (n : Z) :
  digit_of_ascii a = Some n -> 0 <= n <= 9.
Proof.
  unfold digit_of_ascii.
  destruct (48 <=? Z.of_nat (nat_of_ascii a)) eqn:H1; simpl; [|discriminate].
  destruct (Z.of_nat (nat_of_ascii a) <=? 57) eqn:H2; [|discriminate].
  intros H; inversion H. lia.
Qed.

Lemma digit_of_ascii_inj (a b : ascii) (n : Z) :
  digit_of_ascii a = Some n -> digit_of_ascii b = Some n -> a = b.
Proof.
  unfold digit_of_ascii.
  destruct ((48 <=? Z.of_nat (nat_of_ascii a)) && (Z.of_nat (nat_of_ascii a) <=? 57));
    [|discriminate].
  destruct ((48 <=? Z.of_nat (nat_of_ascii b)) && (Z.of_nat (nat_of_ascii b) <=? 57));
    [|discriminate].
  intros Ha Hb. inversion Ha; inversion Hb.
  assert (E : nat_of_ascii a = nat_of_ascii b) by lia.
  rewrite <- (ascii_nat_embedding a), <- (ascii_nat_embedding b). now rewrite E.
Qed.

Lemma digits2_range (a b : ascii) (n : Z) : digits2 a b = Some n -> 0 <= n <= 99.
Proof.
  unfold digits2.
  destruct (digit_of_ascii a) as [x|] eqn:Ha; [|discriminate].
  destruct (digit_of_ascii b) as [y|] eqn:Hb; [|discriminate].
  apply digit_of_ascii_range in Ha. apply digit_of_ascii_range in Hb.
  intros H. assert (E : n = 10 * x + y) by congruence. lia.
Qed.

Lemma digits2_inj (a b a' b' : ascii) (n : Z) :
  digits2 a b = Some n -> digits2 a' b' = Some n -> a = a' /\ b = b'.
Proof.
  unfold digits2.
  destruct (digit_of_ascii a) as [x|] eqn:Ha; [|discriminate].
  destruct (digit_of_ascii b) as [y|] eqn:Hb; [|discriminate].
  destruct (digit_of_ascii a') as [x'|] eqn:Ha'; [|discriminate].
  destruct (digit_of_ascii b') as [y'|] eqn:Hb'; [|discriminate].
  intros H H'.
  assert (E : n = 10 * x + y) by congruence.
  assert (E' : n = 10 * x' + y') by congruence.
  pose proof (digit_of_ascii_range _ _ Ha). pose proof (digit_of_ascii_range _ _ Hb).
  pose proof (digit_of_ascii_range _ _ Ha'). pose proof (digit_of_ascii_range _ _ Hb').
  assert (x = x') by lia. assert (y = y') by lia. subst.
  split; eapply digit_of_ascii_inj; eauto.
Qed.

Lemma digits4_inj (a b c d a' b' c' d' : ascii) (n : Z) :
  digits4 a b c d = Some n -> digits4 a' b' c' d' = Some n ->
  a = a' /\ b = b' /\ c = c' /\ d = d'.
Proof.
  unfold digits4.
  destruct (digits2 a b) as [x|] eqn:Hx; [|discriminate].
  destruct (digits2 c d) as [y|] eqn:Hy; [|discriminate].
  destruct (digits2 a' b') as [x'|] eqn:Hx'; [|discriminate].
  destruct (digits2 c' d') as [y'|] eqn:Hy'; [|discriminate].
  intros H H'.
  assert (E : n = 100 * x + y) by congruence.
  assert (E' : n = 100 * x' + y') by congruence.
  pose proof (digits2_range _ _ _ Hx). pose proof (digits2_range _ _ _ Hy).
  pose proof (digits2_range _ _ _ Hx'). pose proof (digits2_range _ _ _ Hy').
  assert (x = x') by lia. assert (y = y') by lia. subst.
  destruct (digits2_inj _ _ _ _ _ Hx Hx'). destruct (digits2_inj _ _ _ _ _ Hy Hy').
  auto.
Qed.

(** The shape of a string that [parse_iso_date] accepts. *)
Lemma parse_iso_date_shape (s : string) (d : date) :
  parse_iso_date s = Some d ->
  exists y1 y2 y3 y4 m1 m2 d1 d2,
    s = String y1 (String y2 (String y3 (String y4 (String "-"
          (String m1 (String m2 (String "-" (String d1 (String d2 EmptyString)))))))))
    /\ digits4 y1 y2 y3 y4 = Some (year d)
    /\ digits2 m1 m2 = Some (month d)
    /\ digits2 d1 d2 = Some (day d).
Proof.
  destruct s as [|y1 [|y2 [|y3 [|y4 [|s1 [|m1 [|m2 [|s2 [|d1 [|d2 [|c s]]]]]]]]]]];
    simpl; try discriminate.
  destruct (digits4 y1 y2 y3 y4) as [y|] eqn:Hy; [|discriminate].
  destruct (digits2 m1 m2) as [m|] eqn:Hm; [|discriminate].
  destruct (digits2 d1 d2) as [dd|] eqn:Hd; [|discriminate].
  destruct (Ascii.eqb_spec s1 "-"); simpl; [|discriminate].
  destruct (Ascii.eqb_spec s2 "-"); simpl; [|discriminate].
  match goal with |- (if ?c then _ else _) = _ -> _ => destruct c end; [|discriminate].
  intros H; inversion H; subst; simpl.
  exists y1, y2, y3, y4, m1, m2, d1, d2. repeat split; assumption.
Qed.

Lemma parse_iso_date_inj (s s' : string) (d : date) :
  parse_iso_date s = Some d -> parse_iso_date s' = Some d -> s = s'.
Proof.
  intros H H'.
  destruct (parse_iso_date_shape _ _ H) as (y1 & y2 & y3 & y4 & m1 & m2 & d1 & d2 & -> & Hy & Hm & Hd).
  destruct (parse_iso_date_shape _ _ H') as (z1 & z2 & z3 & z4 & n1 & n2 & e1 & e2 & -> & Hy' & Hm' & Hd').
  destruct (digits4_inj _ _ _ _ _ _ _ _ _ Hy Hy') as (-> & -> & -> & ->).
  destruct (digits2_inj _ _ _ _ _ Hm Hm') as (-> & ->).
  destruct (digits2_inj _ _ _ _ _ Hd Hd') as (-> & ->).
  reflexivity.
Qed.

(** A string in the form ["YYYY-MM-DD"] needs no zero, so that pandas
    reads from it the date it spells. *)
Lemma zero_padded_iso (s : string) (d : date) :
  parse_iso_date s = Some d -> zero_padded s = s.
Proof.
  intros H.
  destruct (parse_iso_date_shape _ _ H)
    as (y1 & y2 & y3 & y4 & m1 & m2 & d1 & d2 & -> & _).
  reflexivity.
Qed.

Lemma parse_date_of_iso (s : string) :
  parse_iso_date s <> None -> parse_date s = parse_iso_date s.
Proof.
  intros H. destruct (parse_iso_date s) as [d|] eqn:E; [|contradiction].
  unfold parse_date. now rewrite (zero_padded_iso s d E).
Qed.

(** ** Tables: what each step of the build keeps *)

Lemma mapM_map {A B C} (f : A -> result B) (g : B -> C) (h : A -> C)
      (l : list A) (bs : list B) :
  (forall a b, f a = Ok b -> g b = h a) ->
  mapM f l = Ok bs -> map g bs = map h l.
Proof.
  intros Hf H. apply mapM_Forall2 in H.
  induction H as [|a b l bs Hab _ IH]; simpl; [reflexivity|].
  now rewrite (Hf a b Hab), IH.
Qed.

Lemma mapM_Forall {A B} (f : A -> result B) (P : B -> Prop) (l : list A) (bs : list B) :
  (forall a b, In a l -> f a = Ok b -> P b) ->
  mapM f l = Ok bs -> Forall P bs.
Proof.
  intros Hf H. apply mapM_Forall2 in H.
  induction H as [|a b l bs Hab _ IH]; constructor.
  - apply (Hf a b); [now left|exact Hab].
  - apply IH. intros a' b' Hin. apply Hf. now right.
Qed.

Lemma block_of_keys (l : list (string * json)) (b : data_block) :
  block_of l = Some b -> map fst b = map fst l.
Proof.
  revert b; induction l as [|[k v] l IH]; simpl; intros b H.
  - now inversion H.
  - destruct v; try discriminate.
    destruct (fields_of l0); [|discriminate].
    destruct (block_of l) as [b'|]; [|discriminate].
    inversion H; subst; simpl. now rewrite (IH b' eq_refl).
Qed.

Section TableSteps.
Context {F : FloatModel}.

Lemma from_dict_ok (d : json) (df : DataFrame string float) :
  from_dict d = Ok df ->
  rectangular df /\ exists l, d = JObj l /\ index df = map fst l.
Proof.
  unfold from_dict. destruct d; try discriminate.
  destruct (block_of l) as [b|] eqn:Hb; [|discriminate].
  destruct (mapM _ b) as [rs|] eqn:Hrs; simpl; [|discriminate].
  intros H; inversion H; subst; clear H. split.
  - unfold rectangular; simpl.
    eapply mapM_Forall; [|exact Hrs]. intros [k fs] [k' cs] _; simpl.
    destruct (mapM (cell_of_field fs) (union_columns b)) as [cs'|] eqn:Hcs;
      simpl; [|discriminate].
    intros H; inversion H; subst; simpl. exact (mapM_length _ _ _ Hcs).
  - exists l. split; [reflexivity|]. unfold index; simpl.
    rewrite <- (block_of_keys l b Hb).
    eapply mapM_map; [|exact Hrs]. intros [k fs] [k' cs]; simpl.
    destruct (mapM (cell_of_field fs) (union_columns b)); simpl; [|discriminate].
    now intros H; inversion H.
Qed.

Lemma rename_ok {Ix C} (m : list (string * string)) (df : DataFrame Ix C) :
  rectangular df -> rectangular (rename m df) /\ index (rename m df) = index df.
Proof.
  unfold rectangular, rename, index; simpl. rewrite length_map. auto.
Qed.

Lemma astype_ok {Ix} (m : list (string * string)) (df : DataFrame Ix float)
      (df' : DataFrame Ix cell) :
  astype m df = Ok df' ->
  rectangular df ->
  rectangular df'
  /\ index df' = index df
  /\ forall name, In name (map fst m) -> has_column (columns df') name = true.
Proof.
  unfold astype.
  destruct (forallb _ m) eqn:Hall; [|discriminate].
  destruct (mapM _ (columns df)) as [casts|] eqn:Hcasts; simpl; [|discriminate].
  destruct (mapM _ (rows df)) as [rs|] eqn:Hrs; simpl; [|discriminate].
  intros H Hrect; inversion H; subst; clear H.
  apply mapM_length in Hcasts.
  split; [|split].
  - unfold rectangular in *; simpl.
    rewrite Forall_forall in Hrect.
    eapply mapM_Forall; [|exact Hrs]. intros [k xs] [k' cs] Hin; simpl.
    destruct (mapM _ (combine casts xs)) as [cs'|] eqn:Hcs; simpl; [|discriminate].
    intros H; inversion H; subst; simpl.
    pose proof (Hrect _ Hin) as Hlen; simpl in Hlen.
    rewrite (mapM_length _ _ _ Hcs), length_combine, Hcasts, Hlen.
    apply Nat.min_id.
  - unfold index; simpl. eapply mapM_map; [|exact Hrs].
    intros [k xs] [k' cs]; simpl.
    destruct (mapM _ (combine casts xs)); simpl; [|discriminate].
    now intros H; inversion H.
  - simpl. intros name Hin. apply in_map_iff in Hin. destruct Hin as [nt [<- Hnt]].
    rewrite forallb_forall in Hall. exact (Hall nt Hnt).
Qed.

Lemma index_astype_datetime_ok {C} (df : DataFrame string C) (df' : DataFrame date C) :
  index_astype_datetime df = Ok df' ->
  columns df' = columns df
  /\ Forall2 (fun k d => parse_date k = Some d) (index df) (index df')
  /\ (rectangular df -> rectangular df').
Proof.
  unfold index_astype_datetime.
  destruct (mapM _ (rows df)) as [rs|] eqn:Hrs; simpl; [|discriminate].
  intros H; inversion H; subst; clear H. apply mapM_Forall2 in Hrs.
  split; [reflexivity|]. unfold index, rectangular; simpl. split.
  - induction Hrs as [|r r' l l' Hr _ IH]; simpl; constructor; [|exact IH].
    destruct (parse_date (fst r)); [|discriminate]. now inversion Hr.
  - intros Hrect. induction Hrs as [|r r' l l' Hr _ IH]; constructor.
    + inversion Hrect; subst. destruct (parse_date (fst r)); [|discriminate].
      inversion Hr; subst; simpl. assumption.
    + apply IH. now inversion Hrect.
Qed.
End TableSteps.

(** ** Tables: the index after the build *)

Lemma parse_iso_date_NoDup (ks : list string) (ds : list date) :
  Forall2 (fun k d => parse_iso_date k = Some d) ks ds -> NoDup ks -> NoDup ds.
Proof.
  induction 1 as [|k d ks ds Hk Hrest IH]; intros Hnd; [constructor|].
  inversion Hnd as [|? ? Hnotin Hnd']; subst.
  constructor; [|now apply IH].
  intros Hin. apply Hnotin. clear IH Hnd Hnd' Hnotin.
  induction Hrest as [|k' d' ks ds Hk' _ IH]; [inversion Hin|].
  destruct Hin as [->|Hin].
  - left. exact (parse_iso_date_inj _ _ _ Hk' Hk).
  - right. now apply IH.
Qed.

(** Distinct keys written ["YYYY-MM-DD"] are read as distinct dates. *)
Lemma parse_date_NoDup (ks : list string) (ds : list date) :
  Forall2 (fun k d => parse_date k = Some d) ks ds ->
  Forall (fun k => parse_iso_date k <> None) ks ->
  NoDup ks -> NoDup ds.
Proof.
  intros H Hiso. apply parse_iso_date_NoDup.
  induction H as [|k d ks ds Hk _ IH]; [constructor|].
  inversion Hiso; subst. constructor; [|now apply IH].
  now rewrite <- (parse_date_of_iso k).
Qed.

Lemma sorted_map_fst {C} (l : list (date * C)) :
  StronglySorted (fun a b => date_leb (fst a) (fst b) = true) l ->
  StronglySorted (fun a b => date_leb a b = true) (map fst l).
Proof.
  induction 1 as [|a l _ IH Ha]; simpl; constructor; [exact IH|].
  apply Forall_map. exact Ha.
Qed.

Lemma sorted_NoDup_strict (l : list date) :
  StronglySorted (fun a b => date_leb a b = true) l -> NoDup l -> strictly_ascending l.
Proof.
  induction 1 as [|a l _ IH Ha]; intros Hnd; [constructor|].
  inversion Hnd as [|? ? Hnotin Hnd']; subst.
  constructor; [now apply IH|].
  rewrite Forall_forall in *. intros x Hx.
  unfold date_ltb. apply negb_true_iff.
  destruct (date_leb x a) eqn:Hxa; [|reflexivity].
  elim Hnotin. now rewrite (date_leb_antisym a x (Ha x Hx) Hxa).
Qed.

Section BuiltTable.
Context {F : FloatModel} {S : Sorter} {SO : SorterOk S}.

Lemma sort_index_perm {C} (df : DataFrame date C) :
  Permutation (rows (sort_index df)) (rows df).
Proof. apply sort_perm. Qed.

Lemma sort_index_sorted {C} (df : DataFrame date C) :
  StronglySorted (fun a b => date_leb a b = true) (index (sort_index df)).
Proof.
  apply sorted_map_fst. unfold sort_index; simpl. apply sort_sorted.
  - intros a b _ _. apply date_leb_total.
  - intros a b c _ _ _. apply date_leb_trans.
Qed.

Lemma build_table_inv (d : json) (df : TimeSeries.Table) :
  TimeSeries.build_table d = Ok df ->
  exists df0 df2 df3,
    from_dict d = Ok df0
    /\ astype TimeSeries.astype_dtype (rename TimeSeries.rename_columns df0) = Ok df2
    /\ index_astype_datetime df2 = Ok df3
    /\ df = sort_index df3.
Proof.
  unfold TimeSeries.build_table, try_except_if, rbind.
  destruct (from_dict d) as [df0|e]; [|destruct (is_TypeError e); discriminate].
  simpl.
  destruct (astype _ _) as [df2|e] eqn:Ha; [|destruct (is_TypeError e); discriminate].
  destruct (index_astype_datetime df2) as [df3|e] eqn:Hi; [|discriminate].
  intros H; inversion H. now exists df0, df2, df3.
Qed.

(** What [_build_data_frame] stores: a rectangular table with the eight
    canonical columns, its rows in strictly ascending order of date when
    the data block had no key twice and every key written ["YYYY-MM-DD"]. *)
Lemma build_table_ok (d : json) (df : TimeSeries.Table) :
  TimeSeries.build_table d = Ok df ->
  well_formed_table df
  /\ (distinct_keys d -> iso_date_keys d ->
      strictly_ascending (index df) /\ NoDup (index df)).
Proof.
  intros H. destruct (build_table_inv d df H) as (df0 & df2 & df3 & H0 & H2 & H3 & ->).
  destruct (from_dict_ok d df0 H0) as [R0 [l [-> Hix0]]].
  destruct (rename_ok TimeSeries.rename_columns df0 R0) as [R1 Hix1].
  destruct (astype_ok _ _ _ H2 R1) as (R2 & Hix2 & Hcols).
  destruct (index_astype_datetime_ok _ _ H3) as (Hc3 & Hix3 & R3).
  specialize (R3 R2).
  split; [split|].
  - unfold rectangular in *. simpl columns.
    apply (Permutation_Forall (Permutation_sym (sort_index_perm df3))). exact R3.
  - intros name Hin. simpl. rewrite Hc3. apply Hcols.
    unfold canonical_columns in Hin. unfold TimeSeries.astype_dtype.
    rewrite map_map. simpl in *. exact Hin.
  - simpl. intros Hnd Hiso.
    assert (Hnd3 : NoDup (index df3)).
    { apply (parse_date_NoDup (index df2)); [exact Hix3| |];
        rewrite Hix2, Hix1, Hix0; assumption. }
    assert (Hnds : NoDup (index (sort_index df3))).
    { apply (Permutation_NoDup (l := index df3)); [|exact Hnd3].
      unfold index. apply Permutation_map. symmetry. apply sort_index_perm. }
    split; [|exact Hnds].
    apply sorted_NoDup_strict; [apply sort_index_sorted|exact Hnds].
Qed.
End BuiltTable.

(** ** The tables of a constructed client *)

Lemma position_some (cols : list string) (name : string) :
  has_column cols name = true ->
  exists i, position name cols = Some i /\ (i < List.length cols)%nat.
Proof.
  unfold has_column. induction cols as [|c cols IH]; simpl; [discriminate|].
  destruct (name =? c)%string; simpl.
  - intros _. exists O. split; [reflexivity|lia].
  - intros H. destruct (IH H) as [i [Hi Hlt]]. exists (Datatypes.S i).
    rewrite Hi. split; [reflexivity|lia].
Qed.

Lemma df_getitem_ok {Ix C} (df : DataFrame Ix C) (name : string) :
  well_formed_table df -> In name canonical_columns ->
  exists s, df_getitem df name = Ok s.
Proof.
  intros [Hrect Hcols] Hin. unfold df_getitem.
  destruct (position_some _ _ (Hcols name Hin)) as [i [-> Hlt]].
  apply mapM_total. eapply Forall_impl; [|exact Hrect].
  intros r Hr; simpl in Hr.
  destruct (nth_error (snd r) i) as [x|] eqn:Hx; [now eexists|].
  apply nth_error_None in Hx. lia.
Qed.

Section Constructed.
Context {F : FloatModel} {S : Sorter} {SO : SorterOk S}.

Lemma init_ok_inv (w : World) (ticker : list string) (api_key : pyval)
      (tr tr' : list string) (c : TimeSeries.client) :
  TimeSeries.__init__ w ticker api_key tr = (Ok c, tr') ->
  TimeSeries._build_data_frame (TimeSeries.base c) = Ok (TimeSeries._data_frame c)
  /\ Finance._ticker (TimeSeries.base c) = ticker.
Proof.
  unfold TimeSeries.__init__, io_bind, io_lift, io_ret.
  destruct (Finance.__init__ _ _ _ _ _ _) as [[s|e] tr1] eqn:Hs; [|discriminate].
  destruct (TimeSeries._build_data_frame s) as [fs|e] eqn:Hb; [|discriminate].
  intros H; inversion H; subst; simpl. split; [exact Hb|].
  unfold Finance.__init__ in Hs.
  destruct (negb _ || negb _); [discriminate|].
  destruct (Finance.configure_api_key w api_key); try discriminate.
  now destruct (init_loop_api_key w _ _ _ _ _ Hs) as [_ ->].
Qed.

Lemma built_tables (s : Finance.self) (fs : list TimeSeries.Table) :
  TimeSeries._build_data_frame s = Ok fs ->
  List.length fs = List.length (Finance._ticker s)
  /\ Forall (fun df => exists d, In d (Finance._json_data s)
                                 /\ TimeSeries.build_table d = Ok df) fs.
Proof.
  unfold TimeSeries._build_data_frame. intros H. split.
  - rewrite (mapM_length _ _ _ H). apply length_seq.
  - eapply mapM_Forall; [|exact H]. intros i df _; simpl.
    destruct (nth_error (Finance._json_data s) i) as [d|] eqn:Hd; [|discriminate].
    intros Hdf. exists d. split; [exact (nth_error_In _ _ Hd)|exact Hdf].
Qed.

Lemma constructed_tables (w : World) (ticker : list string) (api_key : pyval)
      (tr tr' : list string) (c : TimeSeries.client) :
  TimeSeries.__init__ w ticker api_key tr = (Ok c, tr') ->
  List.length (TimeSeries._data_frame c) = List.length ticker
  /\ Forall well_formed_table (TimeSeries._data_frame c).
Proof.
  intros H. destruct (init_ok_inv _ _ _ _ _ _ H) as [Hb Ht].
  destruct (built_tables _ _ Hb) as [Hlen Hall]. rewrite Ht in Hlen.
  split; [exact Hlen|].
  eapply Forall_impl; [|exact Hall]. intros df [d [_ Hd]].
  exact (proj1 (build_table_ok d df Hd)).
Qed.

(** C6 (as amended).  A data block whose keys are distinct and written
    ["YYYY-MM-DD"] normalizes to a table whose dates are strictly
    ascending, hence without duplicates; so it is for every table of a
    constructed client whose responses were such blocks. *)
Theorem normalized_index_strictly_ascending :
  (forall d df,
      TimeSeries.build_table d = Ok df -> distinct_keys d -> iso_date_keys d ->
      strictly_ascending (index df) /\ NoDup (index df))
  /\ (forall w ticker api_key tr tr' c,
         TimeSeries.__init__ w ticker api_key tr = (Ok c, tr') ->
         Forall distinct_keys (Finance._json_data (TimeSeries.base c)) ->
         Forall iso_date_keys (Finance._json_data (TimeSeries.base c)) ->
         Forall (fun df => strictly_ascending (index df) /\ NoDup (index df))
                (TimeSeries.to_pandas c)).
Proof.
  split.
  - intros d df H. exact (proj2 (build_table_ok d df H)).
  - intros w ticker api_key tr tr' c H Hkeys Hiso.
    destruct (init_ok_inv _ _ _ _ _ _ H) as [Hb _].
    destruct (built_tables _ _ Hb) as [_ Hall].
    unfold TimeSeries.to_pandas.
    eapply Forall_impl; [|exact Hall]. intros df [d [Hin Hd]].
    rewrite Forall_forall in Hkeys, Hiso.
    exact (proj2 (build_table_ok d df Hd) (Hkeys d Hin) (Hiso d Hin)).
Qed.
End Constructed.

Lemma normalized_index_strictly_ascending_witness :
  distinct_keys Sample.block
  /\ iso_date_keys Sample.block
  /\ index (SampleWorlds.table_of Sample.block)
     = [Sample.apr_30; Sample.may_10; Sample.may_11]
  /\ strictly_ascending (index (SampleWorlds.table_of Sample.block))
  /\ NoDup (index (SampleWorlds.table_of Sample.block)).
Proof.
  assert (Hkeys : distinct_keys Sample.block).
  { simpl. repeat constructor; simpl; intuition discriminate. }
  assert (Hiso : iso_date_keys Sample.block).
  { simpl. repeat constructor; discriminate. }
  split; [exact Hkeys|]. split; [exact Hiso|]. split; [reflexivity|].
  exact (proj1 (@normalized_index_strictly_ascending IntFloat.model stable_sorter
                  stable_sorter_ok)
           Sample.block (SampleWorlds.table_of Sample.block) eq_refl Hkeys Hiso).
Defined.

(** C6, the claim as it was stated.  The two keys ["2021-5-10"] and
    ["2021-05-10"] are distinct date strings; pandas reads the same day
    from both, and the table the client builds has that day twice. *)
Lemma one_digit_month_repeats_date :
  distinct_keys SampleWorlds.twice_block
  /\ exists c : @TimeSeries.client IntFloat.model,
      @TimeSeries.__init__ IntFloat.model stable_sorter SampleWorlds.twice
        ["IBM"] (PyStr "nokey") [] = (Ok c, [Sample.ibm_url])
      /\ map index (TimeSeries.to_pandas c) = [[Sample.may_10; Sample.may_10]]
      /\ Forall (fun df => ~ NoDup (index df) /\ ~ strictly_ascending (index df))
                (TimeSeries.to_pandas c).
Proof.
  split.
  { simpl. repeat constructor; simpl; intuition discriminate. }
  eexists. split; [reflexivity|]. split; [reflexivity|].
  constructor; [|constructor]. split.
  - intros H. inversion H as [|? ? Hnotin _]; subst. apply Hnotin. now left.
  - intros H. inversion H as [|? ? _ Hall]; subst.
    inversion Hall as [|? ? Hlt _]; subst. discriminate Hlt.
Qed.

(** ** Daily prices and volumes *)

Section Daily.
Context {F : FloatModel} {S : Sorter} {SO : SorterOk S}.

Lemma daily_body_inverted (column : string) (f t : date) (df : TimeSeries.Table) :
  well_formed_table df -> In column canonical_columns ->
  date_ltb t f = true ->
  TimeSeries.daily_body column (Some f) (Some t) df = Raise dates_incorrect.
Proof.
  intros Hwf Hin Hlt. unfold TimeSeries.daily_body.
  destruct (df_getitem_ok df column Hwf Hin) as [s ->]; simpl.
  unfold date_ltb in Hlt. apply negb_true_iff in Hlt. rewrite Hlt. reflexivity.
Qed.

Lemma daily_body_unbounded (column : string) (f t : option date) (df : TimeSeries.Table) :
  f = None \/ t = None ->
  TimeSeries.daily_body column f t df = df_getitem df column.
Proof.
  intros H. unfold TimeSeries.daily_body.
  destruct (df_getitem df column) as [s|e]; simpl; [|reflexivity].
  destruct H as [-> | ->]; [reflexivity|]. now destruct f.
Qed.

Lemma daily_unbounded (column : string) (f t : option date) (fs : list TimeSeries.Table) :
  f = None \/ t = None ->
  Forall well_formed_table fs -> In column canonical_columns ->
  exists ss, mapM (TimeSeries.daily_body column f t) fs = Ok ss
             /\ Forall2 (fun df s => df_getitem df column = Ok s) fs ss.
Proof.
  intros H Hwf Hin.
  destruct (mapM_total (TimeSeries.daily_body column f t) fs) as [ss Hss].
  - eapply Forall_impl; [|exact Hwf]. intros df Hdf.
    rewrite (daily_body_unbounded column f t df H).
    exact (df_getitem_ok df column Hdf Hin).
  - exists ss. split; [exact Hss|].
    apply mapM_Forall2 in Hss.
    eapply Forall2_impl; [|exact Hss]. intros df s Hs. cbv beta in Hs.
    now rewrite (daily_body_unbounded column f t df H) in Hs.
Qed.

(** C1 (amended).  On a client constructed for at least one ticker,
    [daily_price] and [daily_volume] called with both bounds and from > to
    raise FinanceClientParamError; called with a bound left out they check
    nothing and return, table by table, the whole close (volume) column. *)
Theorem daily_range_check
        (w : World) (ticker : list string) (api_key : pyval)
        (tr tr' : list string) (c : TimeSeries.client) :
  TimeSeries.__init__ w ticker api_key tr = (Ok c, tr') ->
  (forall f t, ticker <> [] -> date_ltb t f = true ->
               TimeSeries.daily_price c (Some f) (Some t) = Raise dates_incorrect
               /\ TimeSeries.daily_volume c (Some f) (Some t) = Raise dates_incorrect)
  /\ (forall f t, f = None \/ t = None ->
        exists prices volumes,
          TimeSeries.daily_price c f t = Ok prices
          /\ Forall2 (fun df s => df_getitem df "close" = Ok s)
                     (TimeSeries.to_pandas c) prices
          /\ TimeSeries.daily_volume c f t = Ok volumes
          /\ Forall2 (fun df s => df_getitem df "volume" = Ok s)
                     (TimeSeries.to_pandas c) volumes).
Proof.
  intros H. destruct (constructed_tables _ _ _ _ _ _ H) as [Hlen Hwf].
  assert (Hclose : In "close" canonical_columns) by (simpl; tauto).
  assert (Hvolume : In "volume" canonical_columns) by (simpl; tauto).
  split.
  - intros f t Hne Hlt. unfold TimeSeries.daily_price, TimeSeries.daily_volume.
    destruct (TimeSeries._data_frame c) as [|df fs].
    + destruct ticker; [now elim Hne|discriminate].
    + inversion Hwf; subst.
      split; apply mapM_first_raise; now apply daily_body_inverted.
  - intros f t Hb. unfold TimeSeries.daily_price, TimeSeries.daily_volume,
                   TimeSeries.to_pandas.
    destruct (daily_unbounded "close" f t _ Hb Hwf Hclose) as [ps [Hps Hp2]].
    destruct (daily_unbounded "volume" f t _ Hb Hwf Hvolume) as [vs [Hvs Hv2]].
    exists ps, vs. auto.
Qed.
End Daily.

(** C1, as stated, fails: a client constructed for no ticker returns the
    empty list for an inverted range. *)
Lemma inverted_range_on_empty_client :
  exists c : @TimeSeries.client IntFloat.model,
    @TimeSeries.__init__ IntFloat.model stable_sorter Sample.ibm [] (PyStr "nokey") []
    = (Ok c, [])
    /\ date_ltb Sample.may_10 Sample.may_11 = true
    /\ TimeSeries.daily_price c (Some Sample.may_11) (Some Sample.may_10) = Ok []
    /\ TimeSeries.daily_volume c (Some Sample.may_11) (Some Sample.may_10) = Ok [].
Proof.
  eexists. split; [reflexivity|]. repeat split; reflexivity.
Qed.

Lemma daily_range_check_witness :
  TimeSeries.daily_price SampleWorlds.ibm_client
    (Some Sample.may_11) (Some Sample.may_10) = Raise dates_incorrect
  /\ exists prices,
      TimeSeries.daily_price SampleWorlds.ibm_client None (Some Sample.may_10)
      = Ok prices
      /\ Forall2 (fun df s => df_getitem df "close" = Ok s)
                 (TimeSeries.to_pandas SampleWorlds.ibm_client) prices.
Proof.
  destruct (@daily_range_check IntFloat.model stable_sorter stable_sorter_ok
              Sample.ibm ["IBM"] (PyStr "nokey") [] [Sample.ibm_url]
              SampleWorlds.ibm_client eq_refl) as [Hinv Hfull].
  split.
  - apply (Hinv Sample.may_11 Sample.may_10); [discriminate|reflexivity].
  - destruct (Hfull None (Some Sample.may_10) (or_introl eq_refl))
      as [prices [_ [Hp [Hall _]]]].
    exists prices. split; assumption.
Defined.

(** ** The last element of a sorted list *)

Lemma last_error_cons {A} (y : A) (l : list A) :
  last_error (y :: l) = match last_error l with
                        | Some z => Some z
                        | None => Some y
                        end.
Proof. unfold last_error; simpl. now destruct (rev l). Qed.

Lemma last_error_None {A} (l : list A) : last_error l = None -> l = [].
Proof.
  unfold last_error. intros H. rewrite <- (rev_involutive l).
  now destruct (rev l).
Qed.

Lemma last_error_In {A} (l : list A) (m : A) : last_error l = Some m -> In m l.
Proof.
  unfold last_error. intros H. apply in_rev.
  destruct (rev l); inversion H; subst. now left.
Qed.

Lemma StronglySorted_app_r {A} (R : A -> A -> Prop) (l1 l2 : list A) :
  StronglySorted R (l1 ++ l2) -> StronglySorted R l2.
Proof.
  induction l1 as [|x l1 IH]; simpl; intros H; [exact H|].
  apply IH. now inversion H.
Qed.

Section LastOfSorted.
Context {A : Type} (le : A -> A -> bool) (P : A -> Prop).
Let R := fun x y => le x y = true.
Hypothesis le_total : total_on P le.
Hypothesis le_trans : transitive_on P le.

Lemma sorted_last_is_max (l : list A) (m : A) :
  Forall P l -> StronglySorted R l -> last_error l = Some m ->
  Forall (fun x => le x m = true) l.
Proof.
  intros HP Hs. revert m. induction Hs as [|y l Hs IH Hy]; intros m Hm; [constructor|].
  inversion HP as [|? ? Py Pl]; subst.
  rewrite last_error_cons in Hm. destruct (last_error l) as [z|] eqn:Hl.
  - inversion Hm; subst. constructor; [|now apply IH].
    rewrite Forall_forall in Hy. exact (Hy m (last_error_In _ _ Hl)).
  - inversion Hm; subst. apply last_error_None in Hl; subst.
    constructor; [|constructor].
    destruct (le_total m m Py Py); assumption.
Qed.

Lemma last_insert (x : A) (s : list A) :
  P x -> Forall P s -> StronglySorted R s ->
  last_error (insert le x s)
  = match last_error s with
    | None => Some x
    | Some m => if le x m then Some m else Some x
    end.
Proof.
  intros Px HP Hs. induction Hs as [|y s Hs IH Hy]; [reflexivity|].
  inversion HP as [|? ? Py Ps]; subst. simpl.
  destruct (le x y) eqn:Hxy.
  - rewrite last_error_cons.
    destruct (last_error (y :: s)) as [m|] eqn:Hm;
      [|apply last_error_None in Hm; discriminate].
    assert (Hym : le y m = true).
    { pose proof (sorted_last_is_max (y :: s) m HP
                    (SSorted_cons y Hs Hy) Hm) as Hall.
      now inversion Hall. }
    assert (Pm : P m).
    { rewrite Forall_forall in HP. exact (HP m (last_error_In _ _ Hm)). }
    now rewrite (le_trans x y m Px Py Pm Hxy Hym).
  - rewrite last_error_cons, (IH Ps), last_error_cons.
    destruct (last_error s) as [m|]; [now destruct (le x m)|].
    now rewrite Hxy.
Qed.

(** Insertion sort ends with the last of the largest elements. *)
Lemma isort_last_max (l : list A) (m : A) :
  Forall P l -> last_error (isort le l) = Some m -> last_max le l m.
Proof.
  revert m. induction l as [|x l IH]; intros m HP Hm; [discriminate|].
  inversion HP as [|? ? Px Pl]; subst. simpl in Hm.
  assert (HPs : Forall P (isort le l))
    by (apply (Permutation_Forall (Permutation_sym (isort_perm le l))); exact Pl).
  pose proof (isort_sorted le P le_total le_trans l Pl) as Hsorted.
  rewrite (last_insert x (isort le l) Px HPs Hsorted) in Hm.
  destruct (last_error (isort le l)) as [m'|] eqn:Hl.
  - destruct (IH m' Pl eq_refl) as (l1 & l2 & -> & H1 & H2).
    destruct (le x m') eqn:Hxm; inversion Hm; subst.
    + exists (x :: l1), l2. repeat split; [now constructor|exact H2].
    + exists [], (l1 ++ m' :: l2)%list. repeat split; [constructor|].
      pose proof (sorted_last_is_max _ m' HPs Hsorted Hl) as Hmax.
      apply (Permutation_Forall (isort_perm le (l1 ++ m' :: l2))) in Hmax.
      rewrite Forall_forall in *. intros y Hy.
      destruct (le m y) eqn:Hmy; [|reflexivity].
      assert (Pm' : P m') by (apply Pl; apply in_elt).
      pose proof (le_trans m y m' Px (Pl y Hy) Pm' Hmy (Hmax y Hy)). congruence.
  - inversion Hm; subst. apply last_error_None in Hl.
    assert (l = []) as ->.
    { apply Permutation_nil. rewrite <- Hl. apply isort_perm. }
    exists [], []. repeat split; constructor.
Qed.
End LastOfSorted.

(** ** The highest daily variation *)

Lemma filter_all {A} (f : A -> bool) (l : list A) :
  Forall (fun x => f x = true) l -> filter f l = l.
Proof.
  induction 1 as [|x l Hx _ IH]; simpl; [reflexivity|]. now rewrite Hx, IH.
Qed.

Lemma filter_none {A} (f : A -> bool) (l : list A) :
  Forall (fun x => f x = false) l -> filter f l = [].
Proof.
  induction 1 as [|x l Hx _ IH]; simpl; [reflexivity|]. now rewrite Hx.
Qed.

Lemma last_max_rev {A} (le : A -> A -> bool) (l : list A) (m : A) :
  last_max le (rev l) m -> first_max le l m.
Proof.
  intros (l1 & l2 & Hl & H1 & H2).
  exists (rev l2), (rev l1). split; [|split].
  - rewrite <- (rev_involutive l), Hl, rev_app_distr. simpl.
    now rewrite <- app_assoc.
  - now apply Forall_rev.
  - now apply Forall_rev.
Qed.

Lemma combine_map_fst {A B} (l : list A) (l' : list B) :
  List.length l = List.length l' -> map fst (combine l l') = l.
Proof.
  revert l'; induction l as [|a l IH]; intros [|b l'] H; simpl in *;
    try discriminate; [reflexivity|]. f_equal. apply IH. lia.
Qed.

Section Highest.
Context {F : FloatModel} {FO : FloatOrder F}.

Lemma spread_le_total (series : list TimeSeries.variation) :
  no_nan_spread series -> total_on (fun x => In x series) spread_le.
Proof.
  unfold no_nan_spread. rewrite Forall_forall. intros H x y Hx Hy.
  apply fle_total; auto.
Qed.

Lemma spread_le_trans (P : TimeSeries.variation -> Prop) : transitive_on P spread_le.
Proof. intros x y z _ _ _. apply fle_trans. Qed.

Lemma sort_values_desc_no_nan {S : Sorter} (series : list TimeSeries.variation) :
  no_nan_spread series ->
  sort_values_desc TimeSeries.v_spread series = rev (sort spread_le (rev series)).
Proof.
  intros H. unfold sort_values_desc.
  rewrite filter_all, filter_none, app_nil_r; [reflexivity|exact H|].
  eapply Forall_impl; [|exact H]. intros r Hr; simpl in Hr. now rewrite Hr.
Qed.

(** Whatever the sort, the first row in descending order is a largest one. *)
Lemma desc_head_max {S : Sorter} {SO : SorterOk S} (series : list TimeSeries.variation) :
  series <> [] -> no_nan_spread series ->
  exists r rest,
    sort_values_desc TimeSeries.v_spread series = r :: rest
    /\ In r series
    /\ forall r', In r' series -> spread_le r' r = true.
Proof.
  intros Hne Hnan. rewrite (sort_values_desc_no_nan series Hnan).
  set (s := sort spread_le (rev series)).
  assert (Hperm : Permutation s (rev series)) by apply sort_perm.
  assert (Hnan' : no_nan_spread (rev series)) by now apply Forall_rev.
  assert (Hsorted : StronglySorted (fun x y => spread_le x y = true) s).
  { apply sort_sorted; [now apply spread_le_total|apply spread_le_trans]. }
  assert (HP : Forall (fun x => In x (rev series)) s).
  { apply (Permutation_Forall (Permutation_sym Hperm)). apply Forall_In_self. }
  destruct (rev s) as [|r rest] eqn:Hrev.
  - exfalso. apply Hne.
    assert (s = []) as Hs by (rewrite <- (rev_involutive s), Hrev; reflexivity).
    rewrite Hs in Hperm. apply Permutation_nil in Hperm.
    rewrite <- (rev_involutive series), Hperm. reflexivity.
  - exists r, rest. split; [reflexivity|].
    assert (Hlast : last_error s = Some r) by (unfold last_error; now rewrite Hrev).
    pose proof (sorted_last_is_max spread_le (fun x => In x (rev series))
                  (spread_le_total _ Hnan') s r HP Hsorted Hlast)
      as Hmax.
    apply (Permutation_Forall Hperm) in Hmax. rewrite Forall_forall in Hmax.
    split.
    + apply in_rev. apply (Permutation_in _ Hperm). exact (last_error_In _ _ Hlast).
    + intros r' Hr'. apply Hmax. now apply in_rev in Hr'.
Qed.

(** With a stable sort it is the first of the largest rows. *)
Lemma desc_head_first_max (series : list TimeSeries.variation)
      (r : TimeSeries.variation) (rest : list TimeSeries.variation) :
  no_nan_spread series ->
  @sort_values_desc F stable_sorter _ TimeSeries.v_spread series = r :: rest ->
  first_max spread_le series r.
Proof.
  intros Hnan. rewrite (sort_values_desc_no_nan series Hnan). simpl sort.
  intros Hrev. apply last_max_rev.
  assert (Hnan' : no_nan_spread (rev series)) by now apply Forall_rev.
  apply (isort_last_max spread_le (fun x => In x (rev series))
           (spread_le_total _ Hnan') (spread_le_trans _)).
  - apply Forall_In_self.
  - unfold last_error. now rewrite Hrev.
Qed.

Lemma first_max_earliest (series : list TimeSeries.variation) (r : TimeSeries.variation) :
  first_max spread_le series r ->
  ascending (map TimeSeries.v_date series) ->
  forall r', In r' series -> spread_le r r' = true ->
             date_leb (TimeSeries.v_date r) (TimeSeries.v_date r') = true.
Proof.
  intros (l1 & l2 & -> & H1 & H2) Hasc r' Hin Hle.
  apply in_app_or in Hin. destruct Hin as [Hin|[<-|Hin]].
  - rewrite Forall_forall in H1. rewrite (H1 r' Hin) in Hle. discriminate.
  - destruct (date_leb_total (TimeSeries.v_date r) (TimeSeries.v_date r)); assumption.
  - unfold ascending in Hasc. rewrite map_app in Hasc.
    apply StronglySorted_app_r in Hasc. simpl in Hasc.
    apply StronglySorted_inv in Hasc. destruct Hasc as [_ Hall].
    rewrite Forall_forall in Hall. apply Hall. now apply in_map.
Qed.

Lemma with_spread_no_nan (series : list TimeSeries.variation) :
  no_nan_spread (with_spread series).
Proof.
  apply Forall_forall. intros r Hr. apply filter_In in Hr.
  destruct Hr as [_ Hr]. now apply negb_true_iff in Hr.
Qed.

Lemma with_spread_none (series : list TimeSeries.variation) :
  with_spread series = [] ->
  Forall (fun r => isnan (TimeSeries.v_spread r) = true) series.
Proof.
  unfold with_spread. induction series as [|r series IH]; simpl; [constructor|].
  destruct (isnan (TimeSeries.v_spread r)) eqn:Hr; simpl; [|discriminate].
  intros H. constructor; [exact Hr|now apply IH].
Qed.

(** The rows without a number keep their order and go last. *)
Lemma sort_values_desc_split {S : Sorter} (series : list TimeSeries.variation) :
  sort_values_desc TimeSeries.v_spread series
  = (rev (sort spread_le (rev (with_spread series)))
       ++ filter (fun r => isnan (TimeSeries.v_spread r)) series)%list.
Proof. reflexivity. Qed.

Lemma sort_nil {S : Sorter} {SO : SorterOk S} {A} (le : A -> A -> bool) :
  sort le [] = [].
Proof. apply Permutation_nil. symmetry. apply sort_perm. Qed.

Lemma ascending_filter {R} (date_of : R -> date) (f : R -> bool) (l : list R) :
  ascending (map date_of l) -> ascending (map date_of (filter f l)).
Proof.
  unfold ascending. induction l as [|x l IH]; simpl; intros H; [constructor|].
  inversion H as [|? ? Hs Hall]; subst.
  destruct (f x); simpl; [|now apply IH].
  constructor; [now apply IH|].
  rewrite Forall_forall in *. intros d Hd. apply Hall.
  apply in_map_iff in Hd. destruct Hd as [y [<- Hy]].
  apply in_map. apply filter_In in Hy. tauto.
Qed.

(** The head of the rows in descending order, NaN or not: a row of the
    table that no row with a number exceeds, and one with a number
    whenever there is one. *)
Lemma desc_head {S : Sorter} {SO : SorterOk S} (series : list TimeSeries.variation) :
  series <> [] ->
  exists r rest,
    sort_values_desc TimeSeries.v_spread series = r :: rest
    /\ In r series
    /\ (forall r', In r' series -> isnan (TimeSeries.v_spread r') = false ->
                   spread_le r' r = true)
    /\ (isnan (TimeSeries.v_spread r) = true ->
        Forall (fun r' => isnan (TimeSeries.v_spread r') = true) series).
Proof.
  intros Hne. rewrite sort_values_desc_split.
  destruct (with_spread series) as [|r0 nn] eqn:Hnn.
  - pose proof (with_spread_none series Hnn) as Hall.
    simpl rev. rewrite sort_nil. simpl.
    rewrite (filter_all _ series Hall).
    destruct series as [|r rest]; [contradiction|].
    exists r, rest. split; [reflexivity|]. split; [now left|]. split; [|now intros _].
    intros r' Hin Hr'. rewrite Forall_forall in Hall. rewrite (Hall r' Hin) in Hr'.
    discriminate.
  - rewrite <- Hnn.
    assert (Hne' : with_spread series <> []) by (rewrite Hnn; discriminate).
    destruct (desc_head_max (with_spread series) Hne' (with_spread_no_nan series))
      as (r & rest & Hsort & Hin & Hmax).
    rewrite (sort_values_desc_no_nan _ (with_spread_no_nan series)) in Hsort.
    rewrite Hsort. simpl.
    exists r, (rest ++ filter (fun r => isnan (TimeSeries.v_spread r)) series)%list.
    split; [reflexivity|].
    pose proof Hin as Hin'. apply filter_In in Hin'. destruct Hin' as [Hin' Hr].
    split; [exact Hin'|]. split.
    + intros r' Hr' Hnum. apply Hmax. apply filter_In. split; [exact Hr'|].
      now rewrite Hnum.
    + intros Hnan. rewrite Hnan in Hr. discriminate.
Qed.

(** With a stable sort and ascending dates it is the earliest of the rows
    it does not exceed. *)
Lemma desc_head_earliest (series : list TimeSeries.variation)
      (r : TimeSeries.variation) (rest : list TimeSeries.variation) :
  ascending (map TimeSeries.v_date series) ->
  @sort_values_desc F stable_sorter _ TimeSeries.v_spread series = r :: rest ->
  forall r', In r' series -> isnan (TimeSeries.v_spread r') = false ->
             spread_le r r' = true ->
             date_leb (TimeSeries.v_date r) (TimeSeries.v_date r') = true.
Proof.
  intros Hasc. rewrite sort_values_desc_split.
  destruct (with_spread series) as [|r0 nn] eqn:Hnn.
  - intros _ r' Hin Hr'.
    pose proof (with_spread_none series Hnn) as Hall.
    rewrite Forall_forall in Hall. rewrite (Hall r' Hin) in Hr'. discriminate.
  - rewrite <- Hnn.
    assert (Hne' : with_spread series <> []) by (rewrite Hnn; discriminate).
    destruct (@desc_head_max stable_sorter stable_sorter_ok (with_spread series) Hne'
                (with_spread_no_nan series))
      as (r1 & rest1 & Hsort & _ & _).
    pose proof Hsort as Hsort'.
    rewrite (sort_values_desc_no_nan _ (with_spread_no_nan series)) in Hsort'.
    rewrite Hsort'. simpl. intros H; inversion H; subst r1; clear H.
    intros r' Hin Hnum Hle.
    apply (first_max_earliest (with_spread series) r).
    + exact (desc_head_first_max _ r rest1 (with_spread_no_nan series) Hsort).
    + now apply ascending_filter.
    + apply filter_In. split; [exact Hin|]. now rewrite Hnum.
    + exact Hle.
Qed.

(** On a list of at most seventeen rows numpy's quicksort orders the rows
    as the stable sort does. *)
Lemma sort_values_desc_short (series : list TimeSeries.variation) :
  (List.length series <= 17)%nat ->
  @sort_values_desc F numpy_quicksort _ TimeSeries.v_spread series
  = @sort_values_desc F stable_sorter _ TimeSeries.v_spread series.
Proof.
  intros Hlen. rewrite !sort_values_desc_split. f_equal. f_equal.
  pose proof (with_spread_no_nan series) as Hnan.
  assert (Hnan' : no_nan_spread (rev (with_spread series))) by now apply Forall_rev.
  apply numpy_quicksort_short.
  - rewrite length_rev. unfold with_spread.
    pose proof (filter_length_le (fun r => negb (isnan (TimeSeries.v_spread r))) series).
    lia.
  - now apply spread_le_total.
  - apply spread_le_trans.
Qed.
End Highest.

Lemma df_getitem_index {Ix C} (df : DataFrame Ix C) (name : string) (s : Series Ix C) :
  df_getitem df name = Ok s -> map fst s = index df.
Proof.
  unfold df_getitem, index. destruct (position name (columns df)) as [i|]; [|discriminate].
  apply mapM_map. intros r b. destruct (nth_error (snd r) i); [|discriminate].
  now intros H; inversion H.
Qed.

Section HighestDaily.
Context {F : FloatModel} {FO : FloatOrder F}.

Lemma floats_of_index {Ix} (s : Series Ix cell) (s' : Series Ix float) :
  TimeSeries.floats_of s = Ok s' -> map fst s' = map fst s.
Proof.
  apply mapM_map. intros kv b. destruct (TimeSeries.as_float (snd kv)); [|discriminate].
  now intros H; inversion H.
Qed.

(** The rows [high_low] hands to the sort: one per row of the table, in
    the order of the table, each with its own high - low. *)
Lemma high_low_series (df : TimeSeries.Table) (series : list TimeSeries.variation) :
  TimeSeries.high_low df = Ok series ->
  map TimeSeries.v_date series = index df
  /\ Forall (fun r => TimeSeries.v_spread r
                      = fsub (TimeSeries.v_high r) (TimeSeries.v_low r)) series.
Proof.
  unfold TimeSeries.high_low.
  destruct (df_getitem df "high") as [hs|] eqn:Hh; simpl; [|discriminate].
  destruct (df_getitem df "low") as [ls|] eqn:Hl; simpl; [|discriminate].
  destruct (TimeSeries.floats_of hs) as [hs'|] eqn:Hh'; simpl; [|discriminate].
  destruct (TimeSeries.floats_of ls) as [ls'|] eqn:Hl'; simpl; [|discriminate].
  intros H; inversion H; subst; clear H.
  apply floats_of_index in Hh', Hl'.
  apply df_getitem_index in Hh, Hl.
  split.
  - rewrite map_map. unfold TimeSeries.v_date; simpl.
    rewrite <- (map_map fst fst), combine_map_fst; [now rewrite Hh', Hh|].
    rewrite <- (length_map fst hs'), <- (length_map fst ls'). now rewrite Hh', Hl', Hh, Hl.
  - apply Forall_map. apply Forall_forall. intros hl _. reflexivity.
Qed.

End HighestDaily.

Lemma int_float_order : FloatOrder IntFloat.model.
Proof.
  split.
  - intros [x|] [y|]; simpl; try discriminate. intros _ _.
    destruct (Z.leb_spec x y); [now left|right]. apply Z.leb_le. lia.
  - intros [x|] [y|] [z|]; simpl; try discriminate.
    rewrite !Z.leb_le. lia.
Qed.



(** ** Failures of the build that escape as they are *)

Lemma mapM_raise_inv {A B} (f : A -> result B) (l : list A) (e : exn) :
  mapM f l = Raise e -> exists a, In a l /\ f a = Raise e.
Proof.
  induction l as [|a l IH]; simpl; [discriminate|].
  destruct (f a) as [b|e'] eqn:Ha; simpl.
  - destruct (mapM f l) as [bs|e'']; simpl; [discriminate|].
    intros H; inversion H; subst. destruct (IH eq_refl) as [a' [Hin Ha']].
    exists a'. split; [now right|exact Ha'].
  - intros H; inversion H; subst. exists a. split; [now left|exact Ha].
Qed.

Lemma mapM_raises {A B} (f : A -> result B) (l : list A) (a : A) (e : exn) :
  In a l -> f a = Raise e -> exists e', mapM f l = Raise e'.
Proof.
  intros Hin Ha. destruct (mapM f l) as [bs|e'] eqn:Hl; [|now exists e'].
  apply mapM_Forall2 in Hl. exfalso.
  induction Hl as [|a' b l bs Hab _ IH]; [inversion Hin|].
  destruct Hin as [->|Hin]; [congruence|now apply IH].
Qed.

Lemma has_column_In (cols : list string) (name : string) :
  has_column cols name = true <-> In name cols.
Proof.
  unfold has_column. rewrite existsb_exists. split.
  - intros [c [Hin Hc]]. apply String.eqb_eq in Hc. now subst.
  - intros Hin. exists name. split; [exact Hin|apply String.eqb_refl].
Qed.

Lemma add_new_In (names cols : list string) (c : string) :
  In c cols \/ In c names -> In c (add_new cols names).
Proof.
  unfold add_new. revert cols. induction names as [|n names IH]; intros cols H; simpl.
  - destruct H as [H|[]]. exact H.
  - apply IH. destruct H as [H|[->|H]].
    + left. destruct (has_column cols n); [exact H|apply in_or_app; now left].
    + left. destruct (has_column cols c) eqn:Hc.
      * now apply has_column_In.
      * apply in_or_app. right. now left.
    + now right.
Qed.

Lemma union_columns_In (b : data_block) (k c : string) (fs : list (string * string)) :
  In (k, fs) b -> In c (map fst fs) -> In c (union_columns b).
Proof.
  unfold union_columns. intros Hin Hc.
  assert (G : forall acc, In c acc \/ (exists r, In r b /\ In c (map fst (snd r))) ->
                          In c (fold_left (fun acc r => add_new acc (map fst (snd r))) b acc)).
  { clear. induction b as [|r b IH]; intros acc H; simpl.
    - destruct H as [H|[r [[] _]]]. exact H.
    - apply IH. destruct H as [H|[r' [[->|Hr'] Hc]]].
      + left. apply add_new_In. now left.
      + left. apply add_new_In. now right.
      + right. now exists r'. }
  apply G. right. now exists (k, fs).
Qed.

Lemma assoc_In {V} (k : string) (l : list (string * V)) (v : V) :
  assoc k l = Some v -> In k (map fst l).
Proof.
  induction l as [|[k' v'] l IH]; simpl; [discriminate|].
  destruct (String.eqb_spec k k'); [now left|]. intros H. right. now apply IH.
Qed.

Lemma forallb_false {A} (f : A -> bool) (l : list A) (x : A) :
  In x l -> f x = false -> forallb f l = false.
Proof.
  intros Hin Hx. destruct (forallb f l) eqn:H; [|reflexivity].
  rewrite forallb_forall in H. now rewrite (H x Hin) in Hx.
Qed.

Section EscapingFailures.
Context {F : FloatModel} {S : Sorter}.

Lemma cell_of_field_raise (fs : list (string * string)) (c : string) (e : exn) :
  cell_of_field fs c = Raise e -> e = ValueError.
Proof.
  unfold cell_of_field. destruct (assoc c fs) as [s|]; [|discriminate].
  destruct (float_of_str s); [discriminate|]. now intros H; inversion H.
Qed.

(** C2, on the code.  When a canonical name is still missing from the
    columns after the renaming, the build does not raise
    FinanceClientInvalidData: [rename] lets the missing key pass, [astype]
    raises KeyError, and the handler around it waits for TypeError. *)
Theorem missing_field_raises_key_error
        (d : json) (df0 : DataFrame string float) (name : string) :
  from_dict d = Ok df0 ->
  In name canonical_columns ->
  has_column (columns (rename TimeSeries.rename_columns df0)) name = false ->
  TimeSeries.build_table d = Raise KeyError.
Proof.
  intros Hd Hin Hmissing. unfold TimeSeries.build_table. rewrite Hd. simpl.
  unfold astype.
  rewrite (forallb_false _ TimeSeries.astype_dtype
             (name, match assoc name TimeSeries.astype_dtype with
                    | Some ty => ty
                    | None => EmptyString
                    end)); [reflexivity| |exact Hmissing].
  unfold canonical_columns in Hin. simpl in Hin |- *.
  repeat (destruct Hin as [<-|Hin]; [simpl; tauto|]). destruct Hin.
Qed.

(** C3, on the code.  When a field of the data block holds a string that
    is no number, the build does not raise FinanceClientInvalidData:
    [from_dict] raises ValueError, and the handler around it waits for
    TypeError. *)
Theorem uncastable_value_raises_value_error
        (l : list (string * json)) (b : data_block)
        (k c s : string) (fs : list (string * string)) :
  block_of l = Some b ->
  In (k, fs) b ->
  assoc c fs = Some s ->
  float_of_str s = None ->
  TimeSeries.build_table (JObj l) = Raise ValueError.
Proof.
  intros Hb Hrow Hc Hs.
  assert (Hfrom : from_dict (JObj l) = Raise ValueError).
  { unfold from_dict. rewrite Hb.
    set (row := fun r : string * list (string * string) =>
                  (cs <- mapM (cell_of_field (snd r)) (union_columns b) ;;
                   Ok (fst r, cs))%result).
    assert (Hraise : forall r e, row r = Raise e -> e = ValueError).
    { intros r e. unfold row.
      destruct (mapM (cell_of_field (snd r)) (union_columns b)) as [cs|e'] eqn:Hcs;
        simpl; [discriminate|].
      intros H; inversion H; subst.
      destruct (mapM_raise_inv _ _ _ Hcs) as [c' [_ Hc']].
      exact (cell_of_field_raise _ _ _ Hc'). }
    assert (Hbad : exists e, row (k, fs) = Raise e).
    { unfold row; simpl.
      destruct (mapM_raises (cell_of_field fs) (union_columns b) c ValueError) as [e He].
      - exact (union_columns_In b k c fs Hrow (assoc_In _ _ _ Hc)).
      - unfold cell_of_field. now rewrite Hc, Hs.
      - exists e. now rewrite He. }
    destruct Hbad as [e He].
    destruct (mapM_raises row b (k, fs) e Hrow He) as [e' He'].
    fold row. rewrite He'. simpl.
    destruct (mapM_raise_inv _ _ _ He') as [r [_ Hr]].
    now rewrite (Hraise r e' Hr). }
  unfold TimeSeries.build_table. rewrite Hfrom. reflexivity.
Qed.
End EscapingFailures.

Lemma missing_field_raises_key_error_witness :
  @TimeSeries.build_table IntFloat.model stable_sorter SampleWorlds.no_open_block
  = Raise KeyError.
Proof.
  apply (@missing_field_raises_key_error IntFloat.model stable_sorter
           SampleWorlds.no_open_block SampleWorlds.no_open_frame "open").
  - reflexivity.
  - left; reflexivity.
  - reflexivity.
Defined.

(** The same failure seen from the constructor. *)
Example construction_with_missing_field :
  @TimeSeries.__init__ IntFloat.model stable_sorter SampleWorlds.no_open
    ["IBM"] (PyStr "nokey") []
  = (Raise KeyError, [Sample.ibm_url]).
Proof. reflexivity. Qed.

Lemma uncastable_value_raises_value_error_witness :
  @TimeSeries.build_table IntFloat.model stable_sorter
    (JObj SampleWorlds.bad_close_rows)
  = Raise ValueError.
Proof.
  apply (@uncastable_value_raises_value_error IntFloat.model stable_sorter
           SampleWorlds.bad_close_rows
           [("2021-05-11", SampleWorlds.bad_close_fields)]
           "2021-05-11" "4. close" "abc" SampleWorlds.bad_close_fields).
  - reflexivity.
  - left; reflexivity.
  - reflexivity.
  - reflexivity.
Defined.

(** The same failure seen from the constructor, and the one of a volume
    that is not finite, raised by the cast to int. *)
Example construction_with_uncastable_value :
  @TimeSeries.__init__ IntFloat.model stable_sorter SampleWorlds.bad_close
    ["IBM"] (PyStr "nokey") []
  = (Raise ValueError, [Sample.ibm_url])
  /\ @TimeSeries.build_table IntFloat.model stable_sorter SampleWorlds.nan_volume_block
     = Raise ValueError.
Proof. split; reflexivity. Qed.

(** When only some rows lack the field, nothing fails at all: the cell is
    NaN and the table is built. *)
Example partly_missing_field_builds :
  exists df : @TimeSeries.Table IntFloat.model,
    @TimeSeries.build_table IntFloat.model stable_sorter SampleWorlds.partly_open_block
    = Ok df
    /\ df_getitem df "open"
       = Ok [ (Sample.may_10, @CFloat IntFloat.model (@nan IntFloat.model));
              (Sample.may_11, IntFloat.fcell 10) ].
Proof. eexists. split; reflexivity. Qed.

(** ** The model at work on the sample *)

Example daily_price_all :
  TimeSeries.daily_price SampleWorlds.ibm_client None None
  = Ok [ [ (Sample.apr_30, IntFloat.fcell 11); (Sample.may_10, IntFloat.fcell 11);
           (Sample.may_11, IntFloat.fcell 12) ] ].
Proof. reflexivity. Qed.

Example daily_volume_in_may :
  TimeSeries.daily_volume SampleWorlds.ibm_client
    (Some {| year := 2021; month := 5; day := 1 |}) (Some Sample.may_10)
  = Ok [ [ (Sample.may_10, IntFloat.icell 200) ] ].
Proof. reflexivity. Qed.

Example yearly_dividends_of_sample :
  TimeSeries.yearly_dividends SampleWorlds.ibm_client None None
  = Ok [ [ ("2021", IntFloat.num 1) ] ]
  /\ TimeSeries.yearly_dividends_per_quarter SampleWorlds.ibm_client
       (Some 2021) (Some 2021)
     = Ok [ [ ({| year := 2021; month := 4; day := 1 |}, IntFloat.num 1) ] ].
Proof. split; reflexivity. Qed.

Example highest_variations_of_sample :
  @TimeSeries.highest_daily_variation IntFloat.model stable_sorter SampleWorlds.ibm_client
  = Ok [ (Sample.may_10, IntFloat.num 15, IntFloat.num 10, IntFloat.num 5) ]
  /\ @TimeSeries.highest_monthly_mean_variation IntFloat.model stable_sorter
       SampleWorlds.ibm_client
     = Ok [ ({| year := 2021; month := 5; day := 1 |}, IntFloat.num 5) ].
Proof. split; reflexivity. Qed.

(** * Further properties of the client *)

(** ** Lists, position by position *)

Lemma Forall2_nth_left {A B} (R : A -> B -> Prop) (l : list A) (l' : list B)
      (i : nat) (a : A) :
  Forall2 R l l' -> nth_error l i = Some a ->
  exists b, nth_error l' i = Some b /\ R a b.
Proof.
  intros H. revert i. induction H as [|x y l l' Hxy _ IH]; intros [|i] Hi;
    simpl in *; try discriminate.
  - inversion Hi; subst. now exists y.
  - now apply IH.
Qed.

Lemma Forall2_nth_right {A B} (R : A -> B -> Prop) (l : list A) (l' : list B)
      (i : nat) (b : B) :
  Forall2 R l l' -> nth_error l' i = Some b ->
  exists a, nth_error l i = Some a /\ R a b.
Proof.
  intros H. revert i. induction H as [|x y l l' Hxy _ IH]; intros [|i] Hi;
    simpl in *; try discriminate.
  - inversion Hi; subst. now exists x.
  - now apply IH.
Qed.

Lemma nth_error_combine_inv {A B} (l : list A) (l' : list B) (i : nat) (p : A * B) :
  nth_error (combine l l') i = Some p ->
  nth_error l i = Some (fst p) /\ nth_error l' i = Some (snd p).
Proof.
  revert l' i. induction l as [|a l IH]; intros [|b l'] [|i] H; simpl in *;
    try discriminate.
  - inversion H; subst. now split.
  - now apply IH.
Qed.

Lemma position_nth_error (cols : list string) (name : string) (i : nat) :
  position name cols = Some i -> nth_error cols i = Some name.
Proof.
  revert i. induction cols as [|c cols IH]; intros i; simpl; [discriminate|].
  destruct (String.eqb_spec name c) as [->|Hne].
  - now intros H; inversion H.
  - destruct (position name cols) as [j|]; simpl; [|discriminate].
    intros H; inversion H; subst. simpl. now apply IH.
Qed.

Lemma mapM_map_snd {A B C} (f : A * B -> result (C * B)) (l : list (A * B))
      (l' : list (C * B)) :
  (forall a b, f a = Ok b -> snd b = snd a) ->
  mapM f l = Ok l' -> map snd l' = map snd l.
Proof. intros Hf. now apply mapM_map. Qed.

(** ** Tables: the types of the columns and the number of rows *)

Section TypedTables.
Context {F : FloatModel}.

Lemma cast_dtype (ty : string) (d : dtype) (x : float) (c : cell) :
  In ty (map snd TimeSeries.astype_dtype) ->
  dtype_of_str ty = Some d -> cast d x = Ok c -> cell_dtype c = ty.
Proof.
  intros Hin Hd Hc.
  assert (Hty : ty = "float" \/ ty = "int").
  { simpl in Hin. repeat (destruct Hin as [<-|Hin]; [tauto|]). destruct Hin. }
  destruct Hty as [-> | ->]; inversion Hd; subst; simpl in Hc.
  - now inversion Hc.
  - destruct (isfinite x); [now inversion Hc|discriminate].
Qed.

Lemma assoc_In_snd {V} (k : string) (l : list (string * V)) (v : V) :
  assoc k l = Some v -> In v (map snd l).
Proof.
  induction l as [|[k' v'] l IH]; simpl; [discriminate|].
  destruct (k =? k')%string; [intros H; inversion H; now left|].
  intros H. right. now apply IH.
Qed.

Lemma astype_typed {Ix} (df : DataFrame Ix float) (df' : DataFrame Ix cell) :
  astype TimeSeries.astype_dtype df = Ok df' -> rectangular df -> typed_table df'.
Proof.
  intros H Hrect.
  destruct (astype_ok _ _ _ H Hrect) as (Hrect' & _ & _).
  unfold astype in H.
  destruct (forallb _ TimeSeries.astype_dtype); [|discriminate].
  destruct (mapM _ (columns df)) as [casts|] eqn:Hcasts; simpl in H; [|discriminate].
  destruct (mapM _ (rows df)) as [rs|] eqn:Hrs; simpl in H; [|discriminate].
  inversion H; subst; clear H.
  apply mapM_Forall2 in Hcasts.
  intros name ty i Hty Hpos. simpl in Hpos |- *.
  apply position_nth_error in Hpos.
  destruct (Forall2_nth_left _ _ _ _ _ Hcasts Hpos) as [f [Hf Hname]].
  rewrite Hty in Hname.
  destruct (dtype_of_str ty) as [d|] eqn:Hd; [|discriminate].
  inversion Hname; subst; clear Hname.
  eapply mapM_Forall; [|exact Hrs]. intros [k xs] [k' cs] Hin; simpl.
  destruct (mapM _ (combine casts xs)) as [cs'|] eqn:Hcs; simpl; [|discriminate].
  intros H; inversion H; subst; clear H. simpl.
  apply mapM_Forall2 in Hcs.
  assert (Hlt : (i < List.length (combine casts xs))%nat).
  { rewrite length_combine, <- (Forall2_length Hcasts).
    unfold rectangular in Hrect. rewrite Forall_forall in Hrect.
    pose proof (Hrect _ Hin) as Hl; simpl in Hl. rewrite Hl, Nat.min_id.
    apply nth_error_Some. now rewrite Hpos. }
  destruct (nth_error (combine casts xs) i) as [fx|] eqn:Hfx;
    [|apply nth_error_None in Hfx; lia].
  destruct (Forall2_nth_left _ _ _ _ _ Hcs Hfx) as [c [Hc Hcast]].
  destruct (nth_error_combine_inv _ _ _ _ Hfx) as [Hf' _].
  assert (Hfst : fst fx = cast d) by congruence.
  rewrite Hfst in Hcast.
  exists c. split; [exact Hc|].
  exact (cast_dtype ty d (snd fx) c (assoc_In_snd _ _ _ Hty) Hd Hcast).
Qed.
End TypedTables.

Lemma typed_table_ext {F : FloatModel} {Ix Ix'}
      (df : DataFrame Ix cell) (df' : DataFrame Ix' cell) :
  columns df' = columns df ->
  (forall r', In r' (rows df') -> exists r, In r (rows df) /\ snd r = snd r') ->
  typed_table df -> typed_table df'.
Proof.
  intros Hcols Hrows Ht name ty i Hty Hpos. rewrite Hcols in Hpos.
  specialize (Ht name ty i Hty Hpos). rewrite Forall_forall in *.
  intros r' Hr'. destruct (Hrows r' Hr') as [r [Hr <-]]. exact (Ht r Hr).
Qed.

Section BuiltTableTypes.
Context {F : FloatModel} {S : Sorter} {SO : SorterOk S}.

Lemma index_astype_datetime_cells {C} (df : DataFrame string C) (df' : DataFrame date C) :
  index_astype_datetime df = Ok df' -> map snd (rows df') = map snd (rows df).
Proof.
  unfold index_astype_datetime.
  destruct (mapM _ (rows df)) as [rs|] eqn:Hrs; simpl; [|discriminate].
  intros H; inversion H; subst; clear H. simpl.
  eapply mapM_map; [|exact Hrs]. intros r r'. cbv beta.
  destruct (parse_date (fst r)); [|discriminate]. now intros H; inversion H.
Qed.

Lemma from_dict_shape (d : json) (df : DataFrame string float) :
  from_dict d = Ok df ->
  exists l b, d = JObj l /\ block_of l = Some b
              /\ columns df = union_columns b
              /\ List.length (rows df) = List.length b.
Proof.
  unfold from_dict. destruct d; try discriminate.
  destruct (block_of l) as [b|] eqn:Hb; [|discriminate].
  destruct (mapM _ b) as [rs|] eqn:Hrs; simpl; [|discriminate].
  intros H; inversion H; subst; clear H. exists l, b. simpl.
  split; [reflexivity|]. split; [exact Hb|]. split; [reflexivity|].
  exact (mapM_length _ _ _ Hrs).
Qed.

Lemma astype_columns {Ix} (m : list (string * string)) (df : DataFrame Ix float)
      (df' : DataFrame Ix cell) :
  astype m df = Ok df' -> columns df' = columns df.
Proof.
  unfold astype. destruct (forallb _ m); [|discriminate].
  destruct (mapM _ (columns df)) as [casts|]; simpl; [|discriminate].
  destruct (mapM _ (rows df)) as [rs|]; simpl; [|discriminate].
  now intros H; inversion H.
Qed.

(** A table that was built has at least one row, and its canonical
    columns hold cells of the declared types. *)
Lemma build_table_rows (d : json) (df : TimeSeries.Table) :
  TimeSeries.build_table d = Ok df -> rows df <> [] /\ typed_table df.
Proof.
  intros H. destruct (build_table_inv d df H) as (df0 & df2 & df3 & H0 & H2 & H3 & ->).
  destruct (from_dict_ok d df0 H0) as [R0 _].
  destruct (from_dict_shape d df0 H0) as (l & b & -> & Hb & Hcols0 & Hlen0).
  destruct (rename_ok TimeSeries.rename_columns df0 R0) as [R1 Hix1].
  destruct (astype_ok _ _ _ H2 R1) as (R2 & Hix2 & Hcols).
  pose proof (astype_typed _ _ H2 R1) as T2.
  destruct (index_astype_datetime_ok _ _ H3) as (Hc3 & Hix3 & _).
  pose proof (index_astype_datetime_cells _ _ H3) as Hcells.
  split.
  - intros Hnil.
    assert (Hrows3 : List.length (rows df3) = List.length (rows (sort_index df3))).
    { symmetry. apply Permutation_length. apply sort_index_perm. }
    rewrite Hnil in Hrows3. simpl in Hrows3.
    assert (Hb0 : b = []).
    { apply length_zero_iff_nil. rewrite <- Hlen0.
      rewrite <- (length_map fst (rows df0)). fold (index df0).
      rewrite <- Hix1, <- Hix2. rewrite (Forall2_length Hix3).
      unfold index. now rewrite length_map. }
    subst b. simpl in Hcols0.
    assert (Hopen : has_column (columns df2) "open" = true)
      by (apply Hcols; simpl; tauto).
    rewrite (astype_columns _ _ _ H2) in Hopen. simpl in Hopen.
    rewrite Hcols0 in Hopen. discriminate.
  - apply (typed_table_ext df3); [reflexivity| |].
    + intros r' Hr'. exists r'. split; [|reflexivity].
      exact (Permutation_in _ (sort_index_perm df3) Hr').
    + apply (typed_table_ext df2); [exact Hc3| |exact T2].
      intros r' Hr'. apply (in_map snd) in Hr'. rewrite Hcells in Hr'.
      apply in_map_iff in Hr'. destruct Hr' as [r [Hr Hin]]. now exists r.
Qed.
End BuiltTableTypes.

(** ** Construction: what the loop records and requests *)

Section LoopRecords.
Variable w : World.
Let cls := TimeSeries.methods.

Lemma base_init_usable (q : string) (ticker : list string) (api_key : pyval)
      (k : string) (tr : list string) :
  Finance.configure_api_key w api_key = PyStr k -> k <> EmptyString ->
  Finance.__init__ w cls q ticker api_key tr
  = Finance.init_loop w cls ticker (initial ticker k) tr.
Proof.
  intros Hk Hne. unfold Finance.__init__. rewrite Hk; simpl.
  apply String.eqb_neq in Hne. now rewrite Hne.
Qed.

Lemma base_init_inv (q : string) (ticker : list string) (api_key : pyval)
      (tr tr' : list string) (s : Finance.self) :
  Finance.__init__ w cls q ticker api_key tr = (Ok s, tr') ->
  exists k, Finance.configure_api_key w api_key = PyStr k /\ k <> EmptyString
            /\ Finance.init_loop w cls ticker (initial ticker k) tr = (Ok s, tr').
Proof.
  unfold Finance.__init__.
  destruct (Finance.configure_api_key w api_key) as [|k|z|b] eqn:Hk; simpl;
    try discriminate.
  - destruct (String.eqb_spec k EmptyString) as [->|Hne]; simpl; [discriminate|].
    intros H. exists k. auto.
  - rewrite Bool.orb_true_r. discriminate.
  - rewrite Bool.orb_true_r. discriminate.
Qed.

Lemma init_step_trace (s : Finance.self) (t : string) (tr : list string) :
  snd (Finance.init_step w cls s t tr)
  = (tr ++ [query_url (Finance._api_key s) t])%list.
Proof.
  unfold Finance.init_step, io_bind, io_lift, io_ret, Finance._query_api, query_url.
  simpl.
  destruct (requests_get w _) as [e|r]; simpl; [reflexivity|].
  destruct (status_code r =? 200); simpl; [|reflexivity].
  destruct (Finance._process_query_response cls s r) as [s'|e]; simpl; [|reflexivity].
  destruct (TimeSeries._validate_query_data s' t); reflexivity.
Qed.

Lemma init_step_records (s s' : Finance.self) (t : string) (tr tr' : list string) :
  Finance.init_step w cls s t tr = (Ok s', tr') ->
  exists md d, s' = recorded s md d.
Proof.
  unfold Finance.init_step, io_bind, io_lift, io_ret.
  destruct (Finance._query_api w cls s t tr) as [[r|e] tr1]; [|discriminate].
  destruct (Finance._process_query_response cls s r) as [s1|e] eqn:Hp; [|discriminate].
  destruct (Finance._validate_query_data cls s1 t); [|discriminate].
  intros H; inversion H; subst.
  destruct (process_ok_inv _ _ _ Hp) as (b & md & d & _ & _ & _ & ->).
  now exists md, d.
Qed.

Lemma init_loop_records (ts : list string) (s s' : Finance.self) (tr tr' : list string) :
  Finance.init_loop w cls ts s tr = (Ok s', tr') ->
  List.length (Finance._json_data s')
  = (List.length (Finance._json_data s) + List.length ts)%nat
  /\ List.length (Finance._json_metadata s')
     = (List.length (Finance._json_metadata s) + List.length ts)%nat.
Proof.
  revert s tr. induction ts as [|t ts IH]; intros s tr; simpl.
  - unfold io_ret. intros H; inversion H; subst. lia.
  - unfold io_bind.
    destruct (Finance.init_step w cls s t tr) as [[s1|e] tr1] eqn:Hs; [|discriminate].
    intros H. apply IH in H.
    destruct (init_step_records _ _ _ _ _ Hs) as (md & d & ->). simpl in H.
    rewrite !length_app in H. simpl in H. lia.
Qed.

(** The requests of the loop: one per ticker, in the order of the list, up
    to the ticker at which the loop stops. *)
Lemma init_loop_trace (ts : list string) (s : Finance.self) (tr : list string) :
  exists n,
    (n <= List.length ts)%nat
    /\ snd (Finance.init_loop w cls ts s tr)
       = (tr ++ map (query_url (Finance._api_key s)) (firstn n ts))%list
    /\ (forall s', fst (Finance.init_loop w cls ts s tr) = Ok s' -> n = List.length ts).
Proof.
  revert s tr. induction ts as [|t ts IH]; intros s tr; simpl.
  - exists O. simpl. rewrite app_nil_r. auto.
  - unfold io_bind. pose proof (init_step_trace s t tr) as Htr.
    destruct (Finance.init_step w cls s t tr) as [[s1|e] tr1] eqn:Hs; simpl in Htr; subst tr1.
    + destruct (IH s1 (tr ++ [query_url (Finance._api_key s) t])%list)
        as (n & Hn & Hsnd & Hok).
      destruct (init_step_api_key w _ _ _ _ _ Hs) as [Hkey _].
      exists (Datatypes.S n). split; [simpl; lia|]. split.
      * rewrite Hsnd, Hkey. simpl. now rewrite <- app_assoc.
      * intros s' Hs'. simpl. f_equal. now apply (Hok s').
    + exists 1%nat. simpl. split; [lia|]. split; [reflexivity|discriminate].
Qed.
End LoopRecords.

(** ** The constructed client: one typed table per ticker *)

Lemma mapM_seq_nth {A B} (f : A -> result B) (pre data : list A) (bs : list B) :
  mapM (fun i => match nth_error (pre ++ data) i with
                 | Some d => f d
                 | None => Raise IndexError
                 end) (seq (List.length pre) (List.length data)) = Ok bs ->
  Forall2 (fun d b => f d = Ok b) data bs.
Proof.
  revert pre bs. induction data as [|d data IH]; intros pre bs; simpl.
  - intros H; inversion H. constructor.
  - rewrite nth_error_app2, Nat.sub_diag by lia. simpl.
    destruct (f d) as [b|e] eqn:Hd; simpl; [|discriminate].
    destruct (mapM _ (seq (Datatypes.S (List.length pre)) (List.length data)))
      as [bs'|e] eqn:Hrest; simpl; [|discriminate].
    intros H; inversion H; subst. constructor; [exact Hd|].
    apply (IH (pre ++ [d])%list).
    rewrite <- app_assoc, length_app, Nat.add_1_r. simpl. exact Hrest.
Qed.

Lemma df_getitem_typed {F : FloatModel} {Ix} (df : DataFrame Ix cell) (name ty : string) :
  well_formed_table df -> typed_table df ->
  assoc name TimeSeries.astype_dtype = Some ty ->
  exists s, df_getitem df name = Ok s
            /\ map fst s = index df
            /\ Forall (fun kv => cell_dtype (snd kv) = ty) s.
Proof.
  intros Hwf Ht Hty.
  assert (Hin : In name canonical_columns).
  { apply assoc_In in Hty. simpl in Hty |- *. exact Hty. }
  destruct (df_getitem_ok df name Hwf Hin) as [s Hs].
  exists s. split; [exact Hs|]. split; [exact (df_getitem_index _ _ _ Hs)|].
  unfold df_getitem in Hs.
  destruct (position name (columns df)) as [i|] eqn:Hpos; [|discriminate].
  specialize (Ht name ty i Hty Hpos). rewrite Forall_forall in Ht.
  eapply mapM_Forall; [|exact Hs]. intros r kv Hr; simpl.
  destruct (Ht r Hr) as [c [Hc Hdt]]. rewrite Hc.
  intros [= <-]. exact Hdt.
Qed.

Section ConstructedTables.
Context {F : FloatModel} {S : Sorter}.

(** X1.  A constructed client holds one metadata block, one data block
    and one table per ticker, and the table at each position is the one
    built from the data block at that position. *)
Theorem constructed_client_one_table_per_ticker
        (w : World) (ticker : list string) (api_key : pyval)
        (tr tr' : list string) (c : TimeSeries.client) :
  TimeSeries.__init__ w ticker api_key tr = (Ok c, tr') ->
  Finance._ticker (TimeSeries.base c) = ticker
  /\ List.length (Finance._json_metadata (TimeSeries.base c)) = List.length ticker
  /\ List.length (TimeSeries.to_pandas c) = List.length ticker
  /\ Forall2 (fun d df => TimeSeries.build_table d = Ok df)
             (Finance._json_data (TimeSeries.base c)) (TimeSeries.to_pandas c).
Proof.
  unfold TimeSeries.__init__, io_bind, io_lift, io_ret, TimeSeries.to_pandas.
  destruct (Finance.__init__ _ _ _ _ _ _) as [[s|e] tr1] eqn:Hs; [|discriminate].
  destruct (TimeSeries._build_data_frame s) as [fs|e] eqn:Hb; [|discriminate].
  intros H; inversion H; subst; simpl.
  destruct (base_init_inv _ _ _ _ _ _ _ Hs) as (k & _ & _ & Hloop).
  destruct (init_loop_api_key w _ _ _ _ _ Hloop) as [_ Ht]. simpl in Ht.
  destruct (init_loop_records w _ _ _ _ _ Hloop) as [Hd Hm]. simpl in Hd, Hm.
  split; [exact Ht|]. split; [exact Hm|].
  unfold TimeSeries._build_data_frame in Hb. rewrite Ht in Hb.
  split.
  - rewrite (mapM_length _ _ _ Hb). apply length_seq.
  - apply (mapM_seq_nth TimeSeries.build_table [] (Finance._json_data s) fs).
    simpl. rewrite Hd. exact Hb.
Qed.

Context {SO : SorterOk S}.

(** X2.  Every table of a constructed client has at least one row, and
    each of its eight canonical columns can be read and holds, in every
    row, a cell of the declared type: float for open, high, low, close,
    aclose and dividend, int for volume and splitc. *)
Theorem constructed_tables_are_typed
        (w : World) (ticker : list string) (api_key : pyval)
        (tr tr' : list string) (c : TimeSeries.client) :
  TimeSeries.__init__ w ticker api_key tr = (Ok c, tr') ->
  Forall (fun df =>
            rows df <> []
            /\ forall name ty,
                assoc name TimeSeries.astype_dtype = Some ty ->
                exists s, df_getitem df name = Ok s
                          /\ map fst s = index df
                          /\ Forall (fun kv => cell_dtype (snd kv) = ty) s)
         (TimeSeries.to_pandas c).
Proof.
  intros H. destruct (init_ok_inv _ _ _ _ _ _ H) as [Hb _].
  destruct (built_tables _ _ Hb) as [_ Hall].
  unfold TimeSeries.to_pandas.
  eapply Forall_impl; [|exact Hall]. intros df [d [_ Hd]].
  destruct (build_table_rows d df Hd) as [Hne Hty].
  destruct (build_table_ok d df Hd) as [Hwf _].
  split; [exact Hne|]. intros name ty Hname.
  exact (df_getitem_typed df name ty Hwf Hty Hname).
Qed.
End ConstructedTables.

Lemma constructed_client_one_table_per_ticker_witness :
  Finance._ticker (TimeSeries.base SampleWorlds.ibm_client) = ["IBM"]
  /\ List.length (Finance._json_metadata (TimeSeries.base SampleWorlds.ibm_client))
     = 1%nat
  /\ List.length (TimeSeries.to_pandas SampleWorlds.ibm_client) = 1%nat
  /\ Forall2 (fun d df => @TimeSeries.build_table IntFloat.model stable_sorter d = Ok df)
             (Finance._json_data (TimeSeries.base SampleWorlds.ibm_client))
             (TimeSeries.to_pandas SampleWorlds.ibm_client).
Proof.
  exact (@constructed_client_one_table_per_ticker IntFloat.model stable_sorter
           Sample.ibm ["IBM"] (PyStr "nokey") [] [Sample.ibm_url]
           SampleWorlds.ibm_client eq_refl).
Defined.

Lemma constructed_tables_are_typed_witness :
  Forall (fun df =>
            rows df <> []
            /\ forall name ty,
                assoc name TimeSeries.astype_dtype = Some ty ->
                exists s, df_getitem df name = Ok s
                          /\ map fst s = index df
                          /\ Forall (fun kv => cell_dtype (snd kv) = ty) s)
         (TimeSeries.to_pandas SampleWorlds.ibm_client).
Proof.
  exact (@constructed_tables_are_typed IntFloat.model stable_sorter stable_sorter_ok
           Sample.ibm ["IBM"] (PyStr "nokey") [] [Sample.ibm_url]
           SampleWorlds.ibm_client eq_refl).
Defined.

(** ** Construction: requests, failures and the key *)

Section ConstructionFacts.
Context {F : FloatModel} {S : Sorter}.
Variable w : World.

Lemma init_trace_of_loop (ticker : list string) (api_key : pyval) (k : string)
      (tr : list string) :
  Finance.configure_api_key w api_key = PyStr k -> k <> EmptyString ->
  snd (TimeSeries.__init__ w ticker api_key tr)
  = snd (Finance.init_loop w TimeSeries.methods ticker (initial ticker k) tr)
  /\ forall c, fst (TimeSeries.__init__ w ticker api_key tr) = Ok c ->
               exists s, fst (Finance.init_loop w TimeSeries.methods ticker
                                (initial ticker k) tr) = Ok s.
Proof.
  intros Hk Hne. unfold TimeSeries.__init__, io_bind, io_lift, io_ret.
  rewrite (base_init_usable w _ ticker api_key k tr Hk Hne).
  destruct (Finance.init_loop w TimeSeries.methods ticker (initial ticker k) tr)
    as [[s|e] tr1]; simpl.
  - destruct (TimeSeries._build_data_frame s); simpl; split; eauto.
  - split; [reflexivity|discriminate].
Qed.

Lemma construction_stops (ts1 rest : list string) (t : string) (api_key : pyval)
      (k : string) (tr0 tr tr' : list string) (s : Finance.self) (e : exn) :
  Finance.configure_api_key w api_key = PyStr k -> k <> EmptyString ->
  Finance.init_loop w TimeSeries.methods ts1 (initial (ts1 ++ t :: rest) k) tr0
  = (Ok s, tr) ->
  Finance.init_step w TimeSeries.methods s t tr = (Raise e, tr') ->
  TimeSeries.__init__ w (ts1 ++ t :: rest) api_key tr0 = (Raise e, tr').
Proof.
  intros Hk Hne Hpre Hstep.
  apply (init_loop_failure w _ _ k _ _ _ Hk Hne).
  exact (init_loop_stops w ts1 rest t _ s tr0 tr _ _ Hpre Hstep).
Qed.

(** X3.  With a usable key [k] the constructor requests the URL of each
    ticker once, in the order of the list and with that key, and nothing
    else.  When the turn of every ticker succeeds, every ticker has been
    requested, whether or not the tables can be built afterwards; when
    the turn of [t] fails after those of [ts1] succeeded, the constructor
    fails with the same exception and the requests are those of [ts1]
    and of [t]: no retry, and no request for a later ticker. *)
Theorem construction_requests_in_ticker_order
        (ticker : list string) (api_key : pyval) (k : string) (tr : list string) :
  Finance.configure_api_key w api_key = PyStr k -> k <> EmptyString ->
  (forall s tr',
      Finance.init_loop w TimeSeries.methods ticker (initial ticker k) tr = (Ok s, tr') ->
      snd (TimeSeries.__init__ w ticker api_key tr)
      = (tr ++ map (query_url k) ticker)%list)
  /\ (forall c tr',
         TimeSeries.__init__ w ticker api_key tr = (Ok c, tr') ->
         tr' = (tr ++ map (query_url k) ticker)%list)
  /\ (forall ts1 t rest s tr1 e tr2,
         ticker = (ts1 ++ t :: rest)%list ->
         Finance.init_loop w TimeSeries.methods ts1 (initial ticker k) tr = (Ok s, tr1) ->
         Finance.init_step w TimeSeries.methods s t tr1 = (Raise e, tr2) ->
         TimeSeries.__init__ w ticker api_key tr
         = (Raise e, (tr ++ map (query_url k) (ts1 ++ [t]))%list)).
Proof.
  intros Hk Hne.
  destruct (init_trace_of_loop ticker api_key k tr Hk Hne) as [Hsnd Hfst].
  assert (Hall : forall ts s0 tr0 s tr',
             Finance.init_loop w TimeSeries.methods ts s0 tr0 = (Ok s, tr') ->
             tr' = (tr0 ++ map (query_url (Finance._api_key s0)) ts)%list).
  { intros ts s0 tr0 s tr' Hloop.
    destruct (init_loop_trace w ts s0 tr0) as (n & _ & Htr & Hok).
    rewrite Hloop in Htr, Hok. simpl in Htr, Hok.
    rewrite (Hok s eq_refl), firstn_all in Htr. exact Htr. }
  split; [|split].
  - intros s tr' Hloop. rewrite Hsnd, Hloop. simpl.
    exact (Hall _ _ _ _ _ Hloop).
  - intros c tr' Hc.
    assert (Hc1 : fst (TimeSeries.__init__ w ticker api_key tr) = Ok c) by now rewrite Hc.
    destruct (Hfst c Hc1) as [s Hs].
    destruct (Finance.init_loop w TimeSeries.methods ticker (initial ticker k) tr)
      as [r tr1] eqn:Hloop.
    simpl in Hs. subst r. rewrite Hc in Hsnd. simpl in Hsnd. subst tr'.
    exact (Hall _ _ _ _ _ Hloop).
  - intros ts1 t rest s tr1 e tr2 -> Hpre Hstep.
    rewrite (construction_stops ts1 rest t api_key k tr tr1 tr2 s e Hk Hne Hpre Hstep).
    f_equal.
    pose proof (init_step_trace w s t tr1) as Htr. rewrite Hstep in Htr. simpl in Htr.
    destruct (init_loop_api_key w _ _ _ _ _ Hpre) as [Hkey _].
    rewrite Htr, Hkey, (Hall _ _ _ _ _ Hpre). simpl.
    now rewrite map_app, app_assoc.
Qed.

(** X4.  Once the tickers before [t] are through: an answer with status
    200 whose body has no "Meta Data" entry or no "Time Series (Daily)"
    entry (or is no dict at all) makes the constructor raise
    FinanceClientInvalidData, after that one request. *)
Theorem response_without_blocks_fails_construction
        (ts1 rest : list string) (t : string) (api_key : pyval) (k : string)
        (tr0 tr : list string) (s : Finance.self) (r : Response) (b : json) :
  Finance.configure_api_key w api_key = PyStr k -> k <> EmptyString ->
  Finance.init_loop w TimeSeries.methods ts1 (initial (ts1 ++ t :: rest) k) tr0
  = (Ok s, tr) ->
  requests_get w (query_url k t) = GetResponse r ->
  status_code r = 200 ->
  json_body r = Some b ->
  (forall md, getitem b "Meta Data" <> Ok md)
  \/ (forall d, getitem b "Time Series (Daily)" <> Ok d) ->
  TimeSeries.__init__ w (ts1 ++ t :: rest) api_key tr0
  = (Raise invalid_data, (tr ++ [query_url k t])%list).
Proof.
  intros Hk Hne Hpre Hget Hst Hbody Hmissing.
  destruct (init_loop_api_key w _ _ _ _ _ Hpre) as [Hkey _]; simpl in Hkey.
  rewrite <- Hkey in Hget.
  pose proof (init_step_response w s t tr r Hget) as Hstep. rewrite Hkey in Hstep.
  apply Z.eqb_eq in Hst. rewrite Hst in Hstep.
  assert (Hp : Finance._process_query_response TimeSeries.methods s r
               = Raise invalid_data).
  { unfold Finance._process_query_response, Finance.response_json.
    rewrite Hbody; simpl. unfold Finance._build_query_metadata_key.
    destruct (getitem b "Meta Data") as [md|e1] eqn:Hmd; simpl; [|reflexivity].
    unfold TimeSeries._build_query_data_key.
    destruct (getitem b "Time Series (Daily)") as [d|e2] eqn:Hd; simpl; [|reflexivity].
    destruct Hmissing as [Hm|Hm]; [elim (Hm md)|elim (Hm d)]; reflexivity. }
  rewrite Hp in Hstep.
  exact (construction_stops ts1 rest t api_key k tr0 tr _ s _ Hk Hne Hpre Hstep).
Qed.

(** X5.  Once the tickers before [t] are through: when [requests.get]
    itself raises for [t], the constructor raises UnboundLocalError, not
    FinanceClientAPIError: the handler of [_query_api] formats its message
    from the local [response], which the failed call never bound. *)
Theorem transport_exception_fails_with_unbound_local
        (ts1 rest : list string) (t : string) (api_key : pyval) (k : string)
        (tr0 tr : list string) (s : Finance.self) (e : exn) :
  Finance.configure_api_key w api_key = PyStr k -> k <> EmptyString ->
  Finance.init_loop w TimeSeries.methods ts1 (initial (ts1 ++ t :: rest) k) tr0
  = (Ok s, tr) ->
  requests_get w (query_url k t) = GetRaises e ->
  TimeSeries.__init__ w (ts1 ++ t :: rest) api_key tr0
  = (Raise UnboundLocalError, (tr ++ [query_url k t])%list).
Proof.
  intros Hk Hne Hpre Hget.
  destruct (init_loop_api_key w _ _ _ _ _ Hpre) as [Hkey _]; simpl in Hkey.
  apply (construction_stops ts1 rest t api_key k tr0 tr _ s _ Hk Hne Hpre).
  unfold Finance.init_step, io_bind, Finance._query_api.
  unfold query_url in Hget. rewrite Hkey. simpl in Hget |- *. now rewrite Hget.
Qed.
End ConstructionFacts.

Section KeyPrecedence.
Context {F : FloatModel} {S : Sorter}.

Lemma init_loop_same_answers (w w' : World) (cls : Finance.Methods)
      (ts : list string) (s : Finance.self) (tr : list string) :
  (forall u, requests_get w u = requests_get w' u) ->
  Finance.init_loop w cls ts s tr = Finance.init_loop w' cls ts s tr.
Proof.
  intros Hget. revert s tr. induction ts as [|t ts IH]; intros s tr; simpl;
    [reflexivity|].
  unfold io_bind.
  assert (Hstep : Finance.init_step w cls s t tr = Finance.init_step w' cls s t tr).
  { unfold Finance.init_step, io_bind, Finance._query_api. now rewrite Hget. }
  rewrite Hstep. destruct (Finance.init_step w' cls s t tr) as [[s1|e] tr1];
    [apply IH|reflexivity].
Qed.

(** X6.  A non-empty string passed as [api_key] is the key that is used:
    the environment is not consulted, so two worlds that answer the same
    requests give the same construction whatever their environments hold. *)
Theorem explicit_key_ignores_environment
        (w w' : World) (ticker : list string) (k : string) (tr : list string) :
  k <> EmptyString ->
  (forall u, requests_get w u = requests_get w' u) ->
  TimeSeries.__init__ w ticker (PyStr k) tr = TimeSeries.__init__ w' ticker (PyStr k) tr.
Proof.
  intros Hne Hget. unfold TimeSeries.__init__, io_bind.
  assert (Hk : forall v, Finance.configure_api_key v (PyStr k) = PyStr k).
  { intros v. unfold Finance.configure_api_key. simpl.
    apply String.eqb_neq in Hne. now rewrite Hne. }
  rewrite (base_init_usable w _ ticker (PyStr k) k tr (Hk w) Hne).
  rewrite (base_init_usable w' _ ticker (PyStr k) k tr (Hk w') Hne).
  now rewrite (init_loop_same_answers w w' _ ticker _ tr Hget).
Qed.

(** X7.  Leaving the key out (or passing a falsy value) is the same as
    passing the value of TEII_FINANCE_API_KEY. *)
Theorem omitted_key_is_environment_key
        (w : World) (ticker : list string) (api_key : pyval) (k : string)
        (tr : list string) :
  truthy api_key = false ->
  os_getenv w api_key_variable = Some k ->
  TimeSeries.__init__ w ticker api_key tr = TimeSeries.__init__ w ticker (PyStr k) tr.
Proof.
  intros Hf He. unfold TimeSeries.__init__, io_bind, Finance.__init__.
  assert (H1 : Finance.configure_api_key w api_key = PyStr k).
  { unfold Finance.configure_api_key. unfold api_key_variable in He.
    now rewrite Hf, He. }
  assert (H2 : Finance.configure_api_key w (PyStr k) = PyStr k).
  { unfold Finance.configure_api_key. unfold api_key_variable in He. simpl.
    destruct (k =? EmptyString)%string; simpl; [now rewrite He|reflexivity]. }
  now rewrite H1, H2.
Qed.
End KeyPrecedence.

(** ** Export: failures *)

Section ExportFailures.
Context {F : FloatModel} {T : CsvFormat F}.

(** X8.  When the path cannot be written, or the client has no table,
    [to_csv] leaves the files as they were; it raises FinanceClientIOError
    naming the path in the first case and lets the IndexError of
    [self._data_frame[0]] escape when there is no table. *)
Theorem to_csv_failure_leaves_files
        (c : TimeSeries.client) (path : string) (fs : TimeSeries.FileSystem) :
  TimeSeries.can_write fs path = false \/ TimeSeries._data_frame c = [] ->
  snd (TimeSeries.to_csv c path fs) = fs
  /\ fst (TimeSeries.to_csv c path fs)
     = match TimeSeries._data_frame c with
       | [] => Raise IndexError
       | _ :: _ =>
           Raise (FinanceClientIOError
                    ("Unable to write json data into file '" ++ path ++ "'"))
       end.
Proof.
  unfold TimeSeries.to_csv, TimeSeries.DataFrame_to_csv.
  destruct (TimeSeries._data_frame c) as [|df rest]; simpl.
  - intros _. split; reflexivity.
  - intros [Hw|Hnil]; [|discriminate]. rewrite Hw. split; reflexivity.
Qed.
End ExportFailures.

(** ** Queries: ranges *)

Lemma mapM_ext {A B} (f g : A -> result B) (l : list A) :
  (forall a, f a = g a) -> mapM f l = mapM g l.
Proof.
  intros H. induction l as [|a l IH]; simpl; [reflexivity|]. now rewrite H, IH.
Qed.

Lemma mapM_then_map {A B C} (f : A -> result B) (g : B -> C) (l : list A) :
  mapM (fun a => (x <- f a ;; Ok (g x))%result) l
  = (xs <- mapM f l ;; Ok (map g xs))%result.
Proof.
  induction l as [|a l IH]; simpl; [reflexivity|].
  destruct (f a) as [b|e]; simpl; [|reflexivity].
  rewrite IH. destruct (mapM f l); reflexivity.
Qed.

Lemma filter_split_perm {A} (p : A -> bool) (l : list A) :
  Permutation (filter (fun x => negb (p x)) l ++ filter p l) l.
Proof.
  induction l as [|x l IH]; simpl; [constructor|].
  destruct (p x); simpl.
  - rewrite <- Permutation_middle. now constructor.
  - now constructor.
Qed.

Section Ranges.
Context {F : FloatModel}.

Lemma daily_body_in_order (column : string) (f t : date) (df : TimeSeries.Table) :
  date_leb f t = true -> representable f = true -> representable t = true ->
  TimeSeries.daily_body column (Some f) (Some t) df
  = (s <- TimeSeries.daily_body column None None df ;; Ok (loc date_leb f t s))%result.
Proof.
  intros Hle Hf Ht. unfold TimeSeries.daily_body, loc_dates. rewrite Hle, Hf, Ht.
  destruct (df_getitem df column); reflexivity.
Qed.

Lemma loc_restricted {V} (f t : date) (s : Series date V) :
  restricted_to f t s (loc date_leb f t s).
Proof.
  unfold restricted_to, loc, in_range. split; [|split].
  - induction s as [|kv s IH]; simpl; [constructor|].
    destruct (date_leb f (fst kv) && date_leb (fst kv) t); now constructor.
  - apply Forall_forall. intros kv Hkv. apply filter_In in Hkv.
    destruct Hkv as [_ H]. now apply andb_true_iff in H.
  - exists (filter (fun kv => negb (date_leb f (fst kv) && date_leb (fst kv) t)) s).
    split.
    + symmetry. rewrite Permutation_app_comm.
      apply (filter_split_perm
               (fun kv : date * V => date_leb f (fst kv) && date_leb (fst kv) t)).
    + apply Forall_forall. intros kv Hkv. apply filter_In in Hkv.
      destruct Hkv as [_ H]. apply negb_true_iff in H.
      intros [H1 H2]. rewrite H1, H2 in H. discriminate.
Qed.

Lemma daily_in_order (column : string) (f t : date) (fs : list TimeSeries.Table) :
  date_leb f t = true -> representable f = true -> representable t = true ->
  match mapM (TimeSeries.daily_body column None None) fs with
  | Ok full =>
      exists cut,
        mapM (TimeSeries.daily_body column (Some f) (Some t)) fs = Ok cut
        /\ Forall2 (restricted_to f t) full cut
  | Raise e => mapM (TimeSeries.daily_body column (Some f) (Some t)) fs = Raise e
  end.
Proof.
  intros Hle Hf Ht.
  rewrite (mapM_ext (TimeSeries.daily_body column (Some f) (Some t)) _ fs
             (fun df => daily_body_in_order column f t df Hle Hf Ht)).
  rewrite mapM_then_map.
  destruct (mapM (TimeSeries.daily_body column None None) fs) as [full|e];
    [|reflexivity].
  exists (map (loc date_leb f t) full). split; [reflexivity|].
  induction full as [|s full IH]; simpl; constructor; [apply loc_restricted|exact IH].
Qed.

(** X9.  With both bounds given, inside the range of the index type and
    from <= to, [daily_price] and [daily_volume] fail exactly as the call
    without bounds fails, and otherwise return its series, one for one,
    each cut down to the dates d with from <= d <= to: in the order of
    the full series, nothing outside the range kept and nothing inside it
    left out. *)
Theorem daily_range_is_filter_of_full
        (c : TimeSeries.client) (f t : date) :
  date_leb f t = true -> representable f = true -> representable t = true ->
  match TimeSeries.daily_price c None None with
  | Ok full =>
      exists cut,
        TimeSeries.daily_price c (Some f) (Some t) = Ok cut
        /\ Forall2 (restricted_to f t) full cut
  | Raise e => TimeSeries.daily_price c (Some f) (Some t) = Raise e
  end
  /\ match TimeSeries.daily_volume c None None with
     | Ok full =>
         exists cut,
           TimeSeries.daily_volume c (Some f) (Some t) = Ok cut
           /\ Forall2 (restricted_to f t) full cut
     | Raise e => TimeSeries.daily_volume c (Some f) (Some t) = Raise e
     end.
Proof.
  intros Hle Hf Ht. unfold TimeSeries.daily_price, TimeSeries.daily_volume.
  split; now apply daily_in_order.
Qed.

Lemma floats_of_ok {Ix} (s : Series Ix cell) :
  Forall (fun kv => cell_dtype (snd kv) = "float") s ->
  exists s', TimeSeries.floats_of s = Ok s'.
Proof.
  intros H. apply mapM_total. eapply Forall_impl; [|exact H].
  intros [k c] Hc; simpl in *. destruct c; [now eexists|discriminate].
Qed.

Lemma year_check_inverted (f t : Z) :
  t < f -> TimeSeries.year_check (Some f) (Some t) = Raise dates_incorrect.
Proof.
  intros H. unfold TimeSeries.year_check. apply Z.leb_gt in H. now rewrite H.
Qed.

Lemma dividends_inverted (f t : Z) (df : TimeSeries.Table) :
  well_formed_table df -> typed_table df -> t < f ->
  TimeSeries.yearly_dividends_body (Some f) (Some t) df = Raise dates_incorrect
  /\ TimeSeries.yearly_dividends_per_quarter_body (Some f) (Some t) df
     = Raise dates_incorrect.
Proof.
  intros Hwf Hty Hlt.
  destruct (df_getitem_typed df "dividend" "float" Hwf Hty eq_refl)
    as (s & Hs & _ & Hfl).
  destruct (floats_of_ok s Hfl) as [s' Hs'].
  unfold TimeSeries.yearly_dividends_body, TimeSeries.yearly_dividends_per_quarter_body.
  rewrite Hs. cbn [rbind]. rewrite Hs'. cbn [rbind].
  rewrite (year_check_inverted f t Hlt). split; reflexivity.
Qed.
End Ranges.

Section ConstructedInvariants.
Context {F : FloatModel} {S : Sorter} {SO : SorterOk S}.

(** All that the build guarantees of the tables of a constructed client. *)
Lemma constructed_tables_invariants
      (w : World) (ticker : list string) (api_key : pyval)
      (tr tr' : list string) (c : TimeSeries.client) :
  TimeSeries.__init__ w ticker api_key tr = (Ok c, tr') ->
  List.length (TimeSeries._data_frame c) = List.length ticker
  /\ Forall (fun df => well_formed_table df /\ typed_table df /\ rows df <> []
                       /\ StronglySorted (fun a b => date_leb a b = true) (index df))
            (TimeSeries._data_frame c).
Proof.
  intros H. destruct (init_ok_inv _ _ _ _ _ _ H) as [Hb Ht].
  destruct (built_tables _ _ Hb) as [Hlen Hall]. rewrite Ht in Hlen.
  split; [exact Hlen|].
  eapply Forall_impl; [|exact Hall]. intros df [d [_ Hd]].
  destruct (build_table_rows d df Hd) as [Hne Hty].
  destruct (build_table_ok d df Hd) as [Hwf _].
  repeat split; try assumption; try apply Hwf.
  destruct (build_table_inv d df Hd) as (df0 & df2 & df3 & _ & _ & _ & ->).
  apply sort_index_sorted.
Qed.

(** X10.  On a client constructed for at least one ticker,
    [yearly_dividends] and [yearly_dividends_per_quarter] called with both
    years and from_year > to_year raise FinanceClientParamError. *)
Theorem yearly_range_check
        (w : World) (ticker : list string) (api_key : pyval)
        (tr tr' : list string) (c : TimeSeries.client) (f t : Z) :
  TimeSeries.__init__ w ticker api_key tr = (Ok c, tr') ->
  ticker <> [] ->
  t < f ->
  TimeSeries.yearly_dividends c (Some f) (Some t) = Raise dates_incorrect
  /\ TimeSeries.yearly_dividends_per_quarter c (Some f) (Some t) = Raise dates_incorrect.
Proof.
  intros H Hne Hlt.
  destruct (constructed_tables_invariants _ _ _ _ _ _ H) as [Hlen Hall].
  unfold TimeSeries.yearly_dividends, TimeSeries.yearly_dividends_per_quarter.
  destruct (TimeSeries._data_frame c) as [|df fs].
  - destruct ticker; [now elim Hne|discriminate].
  - inversion Hall as [|? ? (Hwf & Hty & _) _]; subst.
    destruct (dividends_inverted f t df Hwf Hty Hlt) as [Hy Hq].
    split; apply mapM_first_raise; assumption.
Qed.
End ConstructedInvariants.

(** ** Queries: the extremal ones always answer *)

Lemma zrange_nonempty (lo hi : Z) : lo <= hi -> TimeSeries.zrange lo hi <> [].
Proof.
  intros H. unfold TimeSeries.zrange.
  destruct (Z.to_nat (hi - lo + 1)) as [|n] eqn:Hn; [lia|]. simpl. discriminate.
Qed.

Lemma parse_iso_date_month (s : string) (d : date) :
  parse_iso_date s = Some d -> 1 <= month d <= 12.
Proof.
  destruct s as [|y1 [|y2 [|y3 [|y4 [|s1 [|m1 [|m2 [|s2 [|d1 [|d2 [|c s]]]]]]]]]]];
    simpl; try discriminate.
  destruct (digits4 y1 y2 y3 y4) as [y|]; [|discriminate].
  destruct (digits2 m1 m2) as [m|]; [|discriminate].
  destruct (digits2 d1 d2) as [dd|]; [|discriminate].
  destruct (_ && (1 <=? m) && (m <=? 12) && _ && _) eqn:Hc; [|discriminate].
  intros H; inversion H; subst; simpl.
  rewrite !andb_true_iff in Hc. destruct Hc as [[[[_ H1] H2] _] _]. lia.
Qed.

Lemma parse_date_month (s : string) (d : date) :
  parse_date s = Some d -> 1 <= month d <= 12.
Proof. unfold parse_date. apply parse_iso_date_month. Qed.

Lemma month_period_monotone (a b : date) :
  1 <= month a <= 12 -> 1 <= month b <= 12 -> date_leb a b = true ->
  TimeSeries.month_period a <= TimeSeries.month_period b.
Proof.
  intros Ha Hb Hle. apply date_leb_iff in Hle. unfold TimeSeries.month_period. lia.
Qed.

Lemma sorted_first_last (l : list date) (a z : date) (l' l'' : list date) :
  StronglySorted (fun x y => date_leb x y = true) l ->
  l = a :: l' -> rev l = z :: l'' -> date_leb a z = true.
Proof.
  intros Hs -> Hrev.
  assert (Hin : In z (a :: l')) by (apply in_rev; rewrite Hrev; now left).
  destruct Hin as [->|Hin].
  - destruct (date_leb_total z z); assumption.
  - apply StronglySorted_inv in Hs. destruct Hs as [_ Hall].
    rewrite Forall_forall in Hall. now apply Hall.
Qed.

Lemma group_by_period_nonempty {R} (period : R -> Z) (s : list R) :
  s <> [] ->
  (forall first last s1 s2,
      s = first :: s1 -> rev s = last :: s2 -> period first <= period last) ->
  TimeSeries.group_by_period period s <> [].
Proof.
  intros Hne Hle. unfold TimeSeries.group_by_period.
  destruct s as [|first s1]; [now elim Hne|].
  destruct (rev (first :: s1)) as [|last s2] eqn:Hrev.
  - simpl in Hrev. now destruct (rev s1).
  - intros Hnil. apply map_eq_nil in Hnil. revert Hnil. apply zrange_nonempty.
    exact (Hle first last s1 s2 eq_refl eq_refl).
Qed.

Section Extremal.
Context {F : FloatModel} {S : Sorter} {SO : SorterOk S}.

Lemma sort_values_desc_perm {R} (key : R -> float) (l : list R) :
  Permutation (sort_values_desc key l) l.
Proof.
  unfold sort_values_desc.
  rewrite <- (filter_split_perm (fun r => isnan (key r)) l) at 3.
  apply Permutation_app_tail.
  rewrite <- Permutation_rev, sort_perm, <- Permutation_rev. reflexivity.
Qed.

Lemma high_low_ok (df : TimeSeries.Table) :
  well_formed_table df -> typed_table df ->
  exists series, TimeSeries.high_low df = Ok series.
Proof.
  intros Hwf Hty.
  destruct (df_getitem_typed df "high" "float" Hwf Hty eq_refl) as (hs & Hh & _ & Hhf).
  destruct (df_getitem_typed df "low" "float" Hwf Hty eq_refl) as (ls & Hl & _ & Hlf).
  destruct (floats_of_ok hs Hhf) as [hs' Hh'].
  destruct (floats_of_ok ls Hlf) as [ls' Hl'].
  unfold TimeSeries.high_low.
  rewrite Hh. cbn [rbind]. rewrite Hl. cbn [rbind].
  rewrite Hh'. cbn [rbind]. rewrite Hl'. cbn [rbind]. now eexists.
Qed.

Lemma head_of_desc {R} (key : R -> float) (l : list R) :
  l <> [] -> exists r rest, sort_values_desc key l = r :: rest /\ In r l.
Proof.
  intros Hne. pose proof (sort_values_desc_perm key l) as Hp.
  destruct (sort_values_desc key l) as [|r rest].
  - apply Permutation_nil in Hp. now elim Hne.
  - exists r, rest. split; [reflexivity|].
    apply (Permutation_in _ Hp). now left.
Qed.

Lemma daily_variation_answers (df : TimeSeries.Table) :
  well_formed_table df -> typed_table df -> rows df <> [] ->
  exists series r,
    TimeSeries.high_low df = Ok series
    /\ TimeSeries.highest_daily_variation_body df = Ok r
    /\ In r series.
Proof.
  intros Hwf Hty Hne.
  destruct (high_low_ok df Hwf Hty) as [series Hs].
  destruct (high_low_series df series Hs) as [Hdates _].
  assert (Hne' : series <> []).
  { intros ->. apply Hne. unfold index in Hdates. simpl in Hdates.
    symmetry in Hdates. now apply map_eq_nil in Hdates. }
  destruct (head_of_desc TimeSeries.v_spread series Hne') as (r & rest & Hsort & Hin).
  exists series, r. split; [exact Hs|]. split; [|exact Hin].
  unfold TimeSeries.highest_daily_variation_body.
  rewrite Hs. cbn [rbind]. now rewrite Hsort.
Qed.

Lemma monthly_variation_answers (df : TimeSeries.Table) :
  well_formed_table df -> typed_table df -> rows df <> [] ->
  StronglySorted (fun a b => date_leb a b = true) (index df) ->
  Forall (fun d => 1 <= month d <= 12) (index df) ->
  exists m, TimeSeries.highest_monthly_mean_variation_body df = Ok m.
Proof.
  intros Hwf Hty Hne Hsorted Hmonths.
  destruct (high_low_ok df Hwf Hty) as [series Hs].
  destruct (high_low_series df series Hs) as [Hdates _].
  unfold TimeSeries.highest_monthly_mean_variation_body.
  rewrite Hs. cbn [rbind].
  set (groups := TimeSeries.group_by_period _ series).
  assert (Hne' : series <> []).
  { intros ->. apply Hne. unfold index in Hdates. simpl in Hdates.
    symmetry in Hdates. now apply map_eq_nil in Hdates. }
  assert (Hgroups : groups <> []).
  { apply group_by_period_nonempty; [exact Hne'|].
    intros first last s1 s2 Hfirst Hlast.
    rewrite <- Hdates in Hsorted, Hmonths. rewrite Forall_forall in Hmonths.
    assert (Hin1 : In (TimeSeries.v_date first) (map TimeSeries.v_date series))
      by (rewrite Hfirst; now left).
    assert (Hin2 : In (TimeSeries.v_date last) (map TimeSeries.v_date series)).
    { apply in_map. apply in_rev. rewrite Hlast. now left. }
    apply month_period_monotone; [exact (Hmonths _ Hin1)|exact (Hmonths _ Hin2)|].
    apply (sorted_first_last (map TimeSeries.v_date series) _ _
             (map TimeSeries.v_date s1) (map TimeSeries.v_date s2)); [exact Hsorted| |].
    - now rewrite Hfirst.
    - now rewrite <- map_rev, Hlast. }
  assert (Hmeans : map TimeSeries.monthly_mean groups <> []).
  { intros Hnil. apply map_eq_nil in Hnil. now elim Hgroups. }
  destruct (head_of_desc TimeSeries.v_spread _ Hmeans) as (r & rest & Hsort & _).
  rewrite Hsort. simpl. now eexists.
Qed.
End Extremal.

Section ExtremalOnClient.
Context {F : FloatModel} {S : Sorter} {SO : SorterOk S}.

Lemma build_table_months (d : json) (df : TimeSeries.Table) :
  TimeSeries.build_table d = Ok df ->
  Forall (fun x => 1 <= month x <= 12) (index df).
Proof.
  intros H. destruct (build_table_inv d df H) as (df0 & df2 & df3 & _ & _ & H3 & ->).
  destruct (index_astype_datetime_ok _ _ H3) as (_ & Hix & _).
  assert (H3' : Forall (fun x => 1 <= month x <= 12) (index df3)).
  { induction Hix as [|k x ks xs Hk _ IH]; constructor; [|exact IH].
    exact (parse_date_month k x Hk). }
  apply (Permutation_Forall (x := index df3)); [|exact H3'].
  unfold index. apply Permutation_map. symmetry. apply sort_index_perm.
Qed.

End ExtremalOnClient.

(** ** The build, on a block of the expected shape *)

Lemma traverse_Forall2 {A B} (f : A -> option B) (l : list A) (bs : list B) :
  traverse f l = Some bs <-> Forall2 (fun a b => f a = Some b) l bs.
Proof.
  revert bs; induction l as [|a l IH]; simpl; intros bs; split; intros H.
  - inversion H; constructor.
  - now inversion H.
  - destruct (f a) as [b|] eqn:Ha; [|discriminate].
    destruct (traverse f l) as [bs'|] eqn:Hl; [|discriminate].
    inversion H; subst. constructor; [exact Ha|]. now apply IH.
  - inversion H as [|a' b l' bs' Ha Hl]; subst.
    rewrite Ha. apply IH in Hl. now rewrite Hl.
Qed.

Lemma block_of_block_json (rs : list (string * raw_fields)) :
  block_of (map (fun kr => (fst kr, fields_json (snd kr))) rs)
  = Some (map (fun kr => (fst kr, fields_list (snd kr))) rs).
Proof.
  induction rs as [|[k r] rs IH]; simpl; [reflexivity|]. now rewrite IH.
Qed.

Lemma union_columns_block (rs : list (string * raw_fields)) :
  rs <> [] ->
  union_columns (map (fun kr => (fst kr, fields_list (snd kr))) rs) = raw_keys.
Proof.
  intros Hne. unfold union_columns.
  assert (G : forall rs', fold_left (fun acc r => add_new acc (map fst (snd r)))
                            (map (fun kr : string * raw_fields =>
                                    (fst kr, fields_list (snd kr))) rs') raw_keys
                          = raw_keys).
  { induction rs' as [|kr rs' IH]; simpl; [reflexivity|]. exact IH. }
  destruct rs as [|kr rs]; [now elim Hne|]. simpl. apply G.
Qed.

Section ExpectedShape.
Context {F : FloatModel}.

Lemma cells_of_fields (r : raw_fields) (xs : list float) :
  expected_floats r = Some xs ->
  mapM (cell_of_field (fields_list r)) raw_keys = Ok xs.
Proof.
  unfold expected_floats, fields_list, raw_keys, cell_of_field. simpl.
  repeat match goal with
         | |- context [float_of_str ?s] =>
             destruct (float_of_str s) eqn:?; simpl; try discriminate
         end.
  now intros [= <-].
Qed.

Lemma from_dict_block (rs : list (string * raw_fields))
      (rows0 : list (string * list float)) :
  rs <> [] ->
  Forall2 (fun kr kx => fst kx = fst kr /\ expected_floats (snd kr) = Some (snd kx))
          rs rows0 ->
  from_dict (block_json rs) = Ok {| columns := raw_keys; rows := rows0 |}.
Proof.
  intros Hne Hrows. unfold from_dict, block_json.
  rewrite block_of_block_json, (union_columns_block rs Hne).
  assert (Hm : mapM (fun r : string * list (string * string) =>
                       (cs <- mapM (cell_of_field (snd r)) raw_keys ;;
                        Ok (fst r, cs))%result)
                    (map (fun kr : string * raw_fields =>
                            (fst kr, fields_list (snd kr))) rs)
               = Ok rows0).
  { apply mapM_Forall2. clear Hne.
    induction Hrows as [|[k r] [k' xs] rs rows0 [Hk Hx] _ IH];
      cbn [map]; constructor; [|exact IH].
    cbn [fst snd] in Hk, Hx |- *. subst k'.
    now rewrite (cells_of_fields r xs Hx). }
  now rewrite Hm.
Qed.
End ExpectedShape.

Section ExpectedShapeCasts.
Context {F : FloatModel}.

Lemma renamed_block (rows0 : list (string * list float)) :
  rename TimeSeries.rename_columns {| columns := raw_keys; rows := rows0 |}
  = {| columns := canonical_columns; rows := rows0 |}.
Proof. reflexivity. Qed.

Lemma all_columns_present :
  forallb (fun nt : string * string => has_column canonical_columns (fst nt))
          TimeSeries.astype_dtype = true.
Proof. reflexivity. Qed.

Lemma casts_of_canonical_columns :
  mapM (fun c => match assoc c TimeSeries.astype_dtype with
                 | None => Ok (cast DFloat)
                 | Some ty =>
                     match dtype_of_str ty with
                     | Some d => Ok (cast d)
                     | None => Raise TypeError
                     end
                 end) canonical_columns
  = Ok casts_of_columns.
Proof. reflexivity. Qed.

Lemma cast_row (xs : list float) (cs : list cell) :
  expected_cells xs = Some cs ->
  mapM (fun fx : (float -> result cell) * float => fst fx (snd fx))
       (combine casts_of_columns xs) = Ok cs.
Proof.
  unfold expected_cells.
  destruct xs as [|o [|h [|l [|c [|a [|v [|d [|s [|x xs]]]]]]]]]; try discriminate.
  destruct (isfinite v) eqn:Hv; simpl; [|discriminate].
  destruct (isfinite s) eqn:Hs; simpl; [|discriminate].
  intros [= <-]. simpl. rewrite ?Hv, ?Hs. reflexivity.
Qed.

Lemma astype_block (rows0 : list (string * list float))
      (rows2 : list (string * list cell)) :
  Forall2 (fun kx kc => fst kc = fst kx /\ expected_cells (snd kx) = Some (snd kc))
          rows0 rows2 ->
  astype TimeSeries.astype_dtype {| columns := canonical_columns; rows := rows0 |}
  = Ok {| columns := canonical_columns; rows := rows2 |}.
Proof.
  intros Hrows. unfold astype. cbn [columns rows].
  rewrite all_columns_present, casts_of_canonical_columns. cbn [rbind].
  assert (Hm : mapM (fun r : string * list float =>
                       (cs <- mapM (fun fx : (float -> result cell) * float =>
                                      fst fx (snd fx))
                                   (combine casts_of_columns (snd r)) ;;
                        Ok (fst r, cs))%result) rows0
               = Ok rows2).
  { apply mapM_Forall2.
    induction Hrows as [|[k xs] [k' cs] rows0 rows2 [Hk Hc] _ IH]; constructor;
      [|exact IH].
    cbn [fst snd] in Hk, Hc |- *. subst k'. now rewrite (cast_row xs cs Hc). }
  now rewrite Hm.
Qed.

Lemma index_block {C} (cols : list string) (rows2 : list (string * list C))
      (rows3 : list (date * list C)) :
  Forall2 (fun kc dc => parse_date (fst kc) = Some (fst dc) /\ snd dc = snd kc)
          rows2 rows3 ->
  index_astype_datetime {| columns := cols; rows := rows2 |}
  = Ok {| columns := cols; rows := rows3 |}.
Proof.
  intros Hrows. unfold index_astype_datetime. cbn [columns rows].
  assert (Hm : mapM (fun r : string * list C =>
                       match parse_date (fst r) with
                       | Some d => Ok (d, snd r)
                       | None => Raise Unmodelled
                       end) rows2 = Ok rows3).
  { apply mapM_Forall2.
    induction Hrows as [|[k cs] [d cs'] rows2 rows3 [Hk Hc] _ IH]; constructor;
      [|exact IH].
    cbn [fst snd] in Hk, Hc |- *. subst cs'. now rewrite Hk. }
  now rewrite Hm.
Qed.

(** The three passes behind [expected_row]. *)
Lemma expected_rows_stages (rs : list (string * raw_fields))
      (rows3 : list (date * list cell)) :
  traverse expected_row rs = Some rows3 ->
  exists rows0 rows2,
    Forall2 (fun kr kx => fst kx = fst kr /\ expected_floats (snd kr) = Some (snd kx))
            rs rows0
    /\ Forall2 (fun kx kc => fst kc = fst kx /\ expected_cells (snd kx) = Some (snd kc))
               rows0 rows2
    /\ Forall2 (fun kc dc => parse_date (fst kc) = Some (fst dc) /\ snd dc = snd kc)
               rows2 rows3.
Proof.
  intros H. apply traverse_Forall2 in H.
  induction H as [|[k r] row rs rows3 Hrow _ (rows0 & rows2 & H0 & H2 & H3)].
  - exists [], []. repeat split; constructor.
  - unfold expected_row in Hrow. cbn [fst snd] in Hrow.
    destruct (parse_date k) as [d|] eqn:Hd; [|discriminate].
    destruct (expected_floats r) as [xs|] eqn:Hxs; [|discriminate].
    destruct (expected_cells xs) as [cs|] eqn:Hcs; [|discriminate].
    simpl in Hrow. inversion Hrow; subst.
    exists ((k, xs) :: rows0), ((k, cs) :: rows2).
    repeat split; constructor; auto.
Qed.
End ExpectedShapeCasts.

Section ExpectedBlock.
Context {F : FloatModel} {S : Sorter} {SO : SorterOk S}.

(** X12.  A block of the expected shape with at least one day, in which
    every key is a date, every field a number and volume and split
    coefficient finite, is built without error: the table has the eight
    canonical columns in the order of the mapping; its rows are the
    expected ones (each string read as a float, volume and split
    coefficient cast to int64, the key read as a date), none missing and
    none added, in ascending order of date. *)
Theorem build_table_of_expected_block
        (rs : list (string * raw_fields)) (rows3 : list (date * list cell)) :
  rs <> [] ->
  traverse expected_row rs = Some rows3 ->
  exists df,
    TimeSeries.build_table (block_json rs) = Ok df
    /\ columns df = canonical_columns
    /\ Permutation (rows df) rows3
    /\ ascending (index df).
Proof.
  intros Hne Hrows.
  destruct (expected_rows_stages rs rows3 Hrows) as (rows0 & rows2 & H0 & H2 & H3).
  exists (sort_index {| columns := canonical_columns; rows := rows3 |}).
  split; [|split; [reflexivity|split]].
  - unfold TimeSeries.build_table.
    rewrite (from_dict_block rs rows0 Hne H0). cbn [try_except_if rbind].
    rewrite renamed_block, (astype_block rows0 rows2 H2). cbn [try_except_if rbind].
    rewrite (index_block canonical_columns rows2 rows3 H3). reflexivity.
  - apply sort_index_perm.
  - apply sort_index_sorted.
Qed.
End ExpectedBlock.

Lemma build_table_of_expected_block_witness :
  exists df,
    @TimeSeries.build_table IntFloat.model stable_sorter
      (block_json SampleWorlds.ibm_rows) = Ok df
    /\ columns df = canonical_columns
    /\ Permutation (rows df) SampleWorlds.ibm_expected_rows
    /\ ascending (index df).
Proof.
  apply (@build_table_of_expected_block IntFloat.model stable_sorter stable_sorter_ok
           SampleWorlds.ibm_rows SampleWorlds.ibm_expected_rows).
  - discriminate.
  - reflexivity.
Defined.

(** ** The further properties on the samples *)

Lemma construction_requests_in_ticker_order_witness :
  snd (@TimeSeries.__init__ IntFloat.model stable_sorter Sample.ibm
         ["IBM"; "IBM"] (PyStr "nokey") [])
  = [Sample.ibm_url; Sample.ibm_url]
  /\ @TimeSeries.__init__ IntFloat.model stable_sorter SampleWorlds.not_found
       ["IBM"; "AMZN"] (PyStr "nokey") []
     = (Raise (FinanceClientAPIError
                 (Finance.api_error_message
                    {| url := Sample.ibm_url; status_code := 404; json_body := None |})),
        [Sample.ibm_url]).
Proof.
  split.
  - destruct (@construction_requests_in_ticker_order IntFloat.model stable_sorter
                Sample.ibm ["IBM"; "IBM"] (PyStr "nokey") "nokey" [] eq_refl)
      as [Hall _]; [discriminate|].
    exact (Hall _ _ eq_refl).
  - destruct (@construction_requests_in_ticker_order IntFloat.model stable_sorter
                SampleWorlds.not_found ["IBM"; "AMZN"] (PyStr "nokey") "nokey" [] eq_refl)
      as [_ [_ Hstop]]; [discriminate|].
    exact (Hstop [] "IBM" ["AMZN"] _ _ _ _ eq_refl eq_refl eq_refl).
Defined.

Lemma response_without_blocks_fails_construction_witness :
  @TimeSeries.__init__ IntFloat.model stable_sorter SampleWorlds.unknown_symbol
    ["IBM"] (PyStr "nokey") []
  = (Raise invalid_data, [Sample.ibm_url]).
Proof.
  apply (@response_without_blocks_fails_construction IntFloat.model stable_sorter
           SampleWorlds.unknown_symbol [] [] "IBM" (PyStr "nokey") "nokey" [] []
           (initial ["IBM"] "nokey")
           {| url := Sample.ibm_url; status_code := 200;
              json_body := Some SampleWorlds.error_body |}
           SampleWorlds.error_body).
  - reflexivity.
  - discriminate.
  - reflexivity.
  - reflexivity.
  - reflexivity.
  - reflexivity.
  - left. intros md H. discriminate H.
Defined.

Lemma transport_exception_fails_with_unbound_local_witness :
  @TimeSeries.__init__ IntFloat.model stable_sorter SampleWorlds.offline
    ["IBM"] (PyStr "nokey") []
  = (Raise UnboundLocalError, [Sample.ibm_url]).
Proof.
  apply (@transport_exception_fails_with_unbound_local IntFloat.model stable_sorter
           SampleWorlds.offline [] [] "IBM" (PyStr "nokey") "nokey" [] []
           (initial ["IBM"] "nokey") (TransportError "ConnectionError")).
  - reflexivity.
  - discriminate.
  - reflexivity.
  - reflexivity.
Defined.

Lemma explicit_key_ignores_environment_witness :
  @TimeSeries.__init__ IntFloat.model stable_sorter Sample.ibm
    ["IBM"] (PyStr "nokey") []
  = @TimeSeries.__init__ IntFloat.model stable_sorter SampleWorlds.ibm_with_env
      ["IBM"] (PyStr "nokey") [].
Proof.
  apply (@explicit_key_ignores_environment IntFloat.model stable_sorter
           Sample.ibm SampleWorlds.ibm_with_env ["IBM"] "nokey" []).
  - discriminate.
  - intros u. reflexivity.
Defined.

Lemma omitted_key_is_environment_key_witness :
  @TimeSeries.__init__ IntFloat.model stable_sorter SampleWorlds.ibm_with_env
    ["IBM"] PyNone []
  = @TimeSeries.__init__ IntFloat.model stable_sorter SampleWorlds.ibm_with_env
      ["IBM"] (PyStr "envkey") [].
Proof.
  apply (@omitted_key_is_environment_key IntFloat.model stable_sorter
           SampleWorlds.ibm_with_env ["IBM"] PyNone "envkey" []).
  - reflexivity.
  - reflexivity.
Defined.

Lemma to_csv_failure_leaves_files_witness :
  snd (TimeSeries.to_csv (T := plain_csv IntFloat.model)
         SampleWorlds.ibm_client "out.csv" SampleWorlds.read_only_disk)
  = SampleWorlds.read_only_disk
  /\ fst (TimeSeries.to_csv (T := plain_csv IntFloat.model)
            SampleWorlds.ibm_client "out.csv" SampleWorlds.read_only_disk)
     = Raise (FinanceClientIOError "Unable to write json data into file 'out.csv'").
Proof.
  exact (@to_csv_failure_leaves_files IntFloat.model (plain_csv IntFloat.model)
           SampleWorlds.ibm_client "out.csv" SampleWorlds.read_only_disk
           (or_introl eq_refl)).
Defined.

Lemma daily_range_is_filter_of_full_witness :
  date_leb Sample.may_10 Sample.may_11 = true
  /\ representable Sample.may_10 = true
  /\ representable Sample.may_11 = true
  /\ exists cut,
      TimeSeries.daily_price SampleWorlds.ibm_client
        (Some Sample.may_10) (Some Sample.may_11) = Ok cut
      /\ Forall2 (restricted_to Sample.may_10 Sample.may_11)
                 [[ (Sample.apr_30, IntFloat.fcell 11);
                    (Sample.may_10, IntFloat.fcell 11);
                    (Sample.may_11, IntFloat.fcell 12) ]] cut.
Proof.
  assert (Hle : date_leb Sample.may_10 Sample.may_11 = true) by reflexivity.
  assert (Hf : representable Sample.may_10 = true) by reflexivity.
  assert (Ht : representable Sample.may_11 = true) by reflexivity.
  split; [exact Hle|]. split; [exact Hf|]. split; [exact Ht|].
  assert (E : TimeSeries.daily_price SampleWorlds.ibm_client None None
              = Ok [[ (Sample.apr_30, IntFloat.fcell 11);
                      (Sample.may_10, IntFloat.fcell 11);
                      (Sample.may_11, IntFloat.fcell 12) ]]) by reflexivity.
  destruct (@daily_range_is_filter_of_full IntFloat.model
              SampleWorlds.ibm_client Sample.may_10 Sample.may_11 Hle Hf Ht)
    as [H _].
  rewrite E in H. exact H.
Defined.

Lemma yearly_range_check_witness :
  TimeSeries.yearly_dividends SampleWorlds.ibm_client (Some 2021) (Some 2020)
  = Raise dates_incorrect
  /\ TimeSeries.yearly_dividends_per_quarter SampleWorlds.ibm_client
       (Some 2021) (Some 2020)
     = Raise dates_incorrect.
Proof.
  apply (@yearly_range_check IntFloat.model stable_sorter stable_sorter_ok
           Sample.ibm ["IBM"] (PyStr "nokey") [] [Sample.ibm_url]
           SampleWorlds.ibm_client 2021 2020).
  - reflexivity.
  - discriminate.
  - lia.
Defined.


(** ** The constructed client: metadata and ranges *)

Section Symbols.
Variable w : World.
Let cls := TimeSeries.methods.

Lemma init_step_symbol (s s' : Finance.self) (t : string) (tr tr' : list string) :
  Finance.init_step w cls s t tr = (Ok s', tr') ->
  exists md d, s' = recorded s md d /\ names_ticker t md.
Proof.
  unfold Finance.init_step, io_bind, io_lift, io_ret.
  destruct (Finance._query_api w cls s t tr) as [[r|e] tr1]; [|discriminate].
  destruct (Finance._process_query_response cls s r) as [s1|e] eqn:Hp; [|discriminate].
  destruct (process_ok_inv _ _ _ Hp) as (b & md & d & _ & _ & _ & ->).
  change (Finance._validate_query_data cls (recorded s md d) t)
    with (TimeSeries._validate_query_data (recorded s md d) t).
  rewrite (validate_last (recorded s md d) (Finance._json_metadata s) md t eq_refl).
  unfold names_ticker.
  destruct (getitem md "2. Symbol") as [v|e] eqn:Hg; [|discriminate].
  destruct (json_eq_str v t) eqn:Hv; [|discriminate].
  apply json_eq_str_true in Hv. subst v.
  intros H; inversion H; subst. exists md, d. split; [reflexivity|exact Hg].
Qed.

Lemma init_loop_symbols (ts : list string) (s s' : Finance.self) (tr tr' : list string) :
  Finance.init_loop w cls ts s tr = (Ok s', tr') ->
  exists mds,
    Finance._json_metadata s' = (Finance._json_metadata s ++ mds)%list
    /\ Forall2 names_ticker ts mds.
Proof.
  revert s tr. induction ts as [|t ts IH]; intros s tr; simpl.
  - unfold io_ret. intros H; inversion H; subst. exists [].
    rewrite app_nil_r. split; [reflexivity|constructor].
  - unfold io_bind.
    destruct (Finance.init_step w cls s t tr) as [[s1|e] tr1] eqn:Hs; [|discriminate].
    intros H. destruct (IH _ _ H) as (mds & Hmds & Hall).
    destruct (init_step_symbol _ _ _ _ _ Hs) as (md & d & -> & Hmd).
    exists (md :: mds). split; [|now constructor].
    rewrite Hmds. simpl. now rewrite <- app_assoc.
Qed.
End Symbols.

Lemma loc_in_range {Ix V} (leb : Ix -> Ix -> bool) (lo hi : Ix) (s : Series Ix V) :
  Forall (fun kv => leb lo (fst kv) = true /\ leb (fst kv) hi = true)
         (@loc Ix V leb lo hi s).
Proof.
  apply Forall_forall. intros kv Hkv. unfold loc in Hkv.
  apply filter_In in Hkv. destruct Hkv as [_ H]. now apply andb_true_iff in H.
Qed.

Lemma filter_sorted_fst {Ix V} (R : Ix -> Ix -> Prop) (p : Ix * V -> bool)
      (s : list (Ix * V)) :
  StronglySorted R (map fst s) -> StronglySorted R (map fst (filter p s)).
Proof.
  induction s as [|kv s IH]; simpl; intros H; [constructor|].
  apply StronglySorted_inv in H. destruct H as [Hs Hall].
  destruct (p kv); simpl; [|now apply IH].
  constructor; [now apply IH|].
  rewrite Forall_forall in *. intros x Hx. apply Hall.
  apply in_map_iff in Hx. destruct Hx as [kv' [<- Hin]].
  apply in_map. apply filter_In in Hin. tauto.
Qed.

Section ConstructedQueries.
Context {F : FloatModel} {S : Sorter}.

(** X13.  In a constructed client the metadata block kept for each ticker
    reports that ticker as its "2. Symbol": no table is kept whose answer
    was about another symbol. *)
Theorem constructed_metadata_names_tickers
        (w : World) (ticker : list string) (api_key : pyval)
        (tr tr' : list string) (c : TimeSeries.client) :
  TimeSeries.__init__ w ticker api_key tr = (Ok c, tr') ->
  Forall2 names_ticker ticker (Finance._json_metadata (TimeSeries.base c)).
Proof.
  unfold TimeSeries.__init__, io_bind, io_lift, io_ret.
  destruct (Finance.__init__ _ _ _ _ _ _) as [[s|e] tr1] eqn:Hs; [|discriminate].
  destruct (TimeSeries._build_data_frame s) as [fs|e]; [|discriminate].
  intros H; inversion H; subst; simpl.
  destruct (base_init_inv _ _ _ _ _ _ _ Hs) as (k & _ & _ & Hloop).
  destruct (init_loop_symbols w _ _ _ _ _ Hloop) as (mds & Hmds & Hall).
  simpl in Hmds. now rewrite Hmds.
Qed.

Context {SO : SorterOk S}.

Lemma daily_body_bounded (column : string) (f t : date) (df : TimeSeries.Table) :
  well_formed_table df -> In column canonical_columns ->
  ascending (index df) ->
  date_leb f t = true -> representable f = true -> representable t = true ->
  exists s,
    TimeSeries.daily_body column (Some f) (Some t) df = Ok s
    /\ Forall (in_range f t) s
    /\ ascending (map fst s).
Proof.
  intros Hwf Hin Hsorted Hle Hf Ht.
  destruct (df_getitem_ok df column Hwf Hin) as [s0 Hs0].
  exists (loc date_leb f t s0). split; [|split].
  - unfold TimeSeries.daily_body, loc_dates. rewrite Hs0. cbn [rbind].
    now rewrite Hle, Hf, Ht.
  - apply loc_in_range.
  - unfold loc. apply filter_sorted_fst.
    now rewrite (df_getitem_index _ _ _ Hs0).
Qed.

Lemma daily_bounded (column : string) (f t : date) (fs : list TimeSeries.Table) :
  In column canonical_columns ->
  date_leb f t = true -> representable f = true -> representable t = true ->
  Forall (fun df => well_formed_table df /\ typed_table df /\ rows df <> []
                    /\ ascending (index df)) fs ->
  exists ss,
    mapM (TimeSeries.daily_body column (Some f) (Some t)) fs = Ok ss
    /\ List.length ss = List.length fs
    /\ Forall (fun s => Forall (in_range f t) s /\ ascending (map fst s)) ss.
Proof.
  intros Hin Hle Hf Ht Hall.
  destruct (mapM_total (TimeSeries.daily_body column (Some f) (Some t)) fs) as [ss Hss].
  - eapply Forall_impl; [|exact Hall]. intros df (Hwf & _ & _ & Hsorted).
    destruct (daily_body_bounded column f t df Hwf Hin Hsorted Hle Hf Ht) as [s [Hs _]].
    now exists s.
  - exists ss. split; [exact Hss|]. split; [exact (mapM_length _ _ _ Hss)|].
    apply mapM_Forall2 in Hss. rewrite Forall_forall in Hall.
    clear -Hss Hall Hin Hle Hf Ht SO.
    induction Hss as [|df s dfs ss Hs _ IH]; constructor.
    + destruct (Hall df (or_introl eq_refl)) as (Hwf & _ & _ & Hsorted).
      destruct (daily_body_bounded column f t df Hwf Hin Hsorted Hle Hf Ht)
        as [s' [Hs' Hp]].
      assert (s' = s) by congruence. now subst.
    + apply IH. intros df' Hdf'. apply Hall. now right.
Qed.

(** X14.  On a constructed client, [daily_price] and [daily_volume] called
    with from <= to, both inside the range of the index type, raise
    nothing: each returns one series per ticker, and every series is in
    ascending order of date and holds only dates d with from <= d <= to. *)
Theorem daily_range_within_bounds
        (w : World) (ticker : list string) (api_key : pyval)
        (tr tr' : list string) (c : TimeSeries.client) (f t : date) :
  TimeSeries.__init__ w ticker api_key tr = (Ok c, tr') ->
  date_leb f t = true -> representable f = true -> representable t = true ->
  exists prices volumes,
    TimeSeries.daily_price c (Some f) (Some t) = Ok prices
    /\ TimeSeries.daily_volume c (Some f) (Some t) = Ok volumes
    /\ List.length prices = List.length ticker
    /\ List.length volumes = List.length ticker
    /\ Forall (fun s => Forall (in_range f t) s /\ ascending (map fst s))
              (prices ++ volumes).
Proof.
  intros H Hle Hf Ht.
  destruct (constructed_tables_invariants _ _ _ _ _ _ H) as [Hlen Hall].
  assert (Hclose : In "close" canonical_columns) by (simpl; tauto).
  assert (Hvolume : In "volume" canonical_columns) by (simpl; tauto).
  destruct (daily_bounded "close" f t _ Hclose Hle Hf Ht Hall) as (ps & Hps & Hpl & Hpa).
  destruct (daily_bounded "volume" f t _ Hvolume Hle Hf Ht Hall) as (vs & Hvs & Hvl & Hva).
  exists ps, vs. unfold TimeSeries.daily_price, TimeSeries.daily_volume.
  repeat split; try assumption; try congruence.
  apply Forall_app. now split.
Qed.
End ConstructedQueries.

Lemma constructed_metadata_names_tickers_witness :
  Forall2 names_ticker ["IBM"]
          (Finance._json_metadata (TimeSeries.base SampleWorlds.ibm_client)).
Proof.
  exact (@constructed_metadata_names_tickers IntFloat.model stable_sorter
           Sample.ibm ["IBM"] (PyStr "nokey") [] [Sample.ibm_url]
           SampleWorlds.ibm_client eq_refl).
Defined.

Lemma daily_range_within_bounds_witness :
  representable Sample.may_10 = true
  /\ representable Sample.may_11 = true
  /\ exists prices volumes,
      TimeSeries.daily_price SampleWorlds.ibm_client
        (Some Sample.may_10) (Some Sample.may_11) = Ok prices
      /\ TimeSeries.daily_volume SampleWorlds.ibm_client
           (Some Sample.may_10) (Some Sample.may_11) = Ok volumes
      /\ List.length prices = List.length ["IBM"]
      /\ List.length volumes = List.length ["IBM"]
      /\ Forall (fun s => Forall (in_range Sample.may_10 Sample.may_11) s
                          /\ ascending (map fst s))
                (prices ++ volumes).
Proof.
  assert (Hle : date_leb Sample.may_10 Sample.may_11 = true) by reflexivity.
  assert (Hf : representable Sample.may_10 = true) by reflexivity.
  assert (Ht : representable Sample.may_11 = true) by reflexivity.
  split; [exact Hf|]. split; [exact Ht|].
  exact (@daily_range_within_bounds IntFloat.model stable_sorter stable_sorter_ok
           Sample.ibm ["IBM"] (PyStr "nokey") [] [Sample.ibm_url]
           SampleWorlds.ibm_client Sample.may_10 Sample.may_11 eq_refl Hle Hf Ht).
Defined.
